(** * PCI compliance agent: detection, reporting and transmission pipeline

    A shallow embedding of the scan pipeline of the agent
    ([detection_engine.py], [report_generator.py], [audit_logger.py],
    [secure_client.py], [file_scanner.py]) together with the properties the
    specification states about it.

    Conventions of the embedding.
    - A Python [str] is a list of characters of type [ascii]: the code
      points below 256.  On these [\d] and [[0-9]] coincide, [str.isdigit]
      also holds of the three superscript digits, on which [int] raises, and
      [\w] and [\b] count the letters, digits and fractions above 127 as
      word characters.
    - Python floats are IEEE binary64 numbers: the kernel's primitive floats.
    - A Python [dict] that is serialised is an insertion-ordered association
      list; assigning to a key that exists keeps its position.
    - Functions of third-party or built-in libraries whose results are opaque
      to the agent ([hashlib.sha256], [float.__repr__], [round], the HTTP
      session) are fields of the class [Extern].  The regular expression
      engine is modelled: the patterns of the source are written as syntax
      trees and run by a backtracking matcher with the semantics of [re]. *)

From Stdlib Require Import String Ascii ZArith Lia Bool Arith PeanoNat List.
From Stdlib Require Import DecimalString Floats.
Import ListNotations.

Set Implicit Arguments.
#[local] Set Warnings "-inexact-float,-register-all".

(** ** Python strings and built-ins *)

Module Py.

Definition str := list ascii.

(** A string literal of the source. *)
Definition L (s : string) : str := list_ascii_of_string s.

Definition code (c : ascii) : nat := nat_of_ascii c.

Definition in_range (lo hi : nat) (c : ascii) : bool :=
  (lo <=? code c) && (code c <=? hi).

(** [c.isdecimal()], also the classes [[0-9]] and [\d]. *)
Definition isdecimal (c : ascii) : bool := in_range 48 57 c.

(** [c.isdigit()]: the decimal digits and the superscripts 2, 3 and 1. *)
Definition isdigit (c : ascii) : bool :=
  isdecimal c || (code c =? 178) || (code c =? 179) || (code c =? 185).

(** The classes [[A-Z]] and [[a-z]]. *)
Definition ascii_upper (c : ascii) : bool := in_range 65 90 c.
Definition ascii_lower (c : ascii) : bool := in_range 97 122 c.

(** The capital letters above 127: all of 192 to 222 but the
    multiplication sign. *)
Definition upper_high (c : ascii) : bool :=
  in_range 192 222 c && negb (code c =? 215).

(** [c.isalnum()] for a character above 127: the two ordinal indicators,
    the superscript digits, the micro sign, the three fractions, and the
    letters from 192 on, which leaves out the multiplication and the
    division sign. *)
Definition isalnum_high (c : ascii) : bool :=
  (code c =? 170) || (code c =? 178) || (code c =? 179) || (code c =? 181)
  || (code c =? 185) || (code c =? 186) || in_range 188 190 c
  || (in_range 192 255 c && negb (code c =? 215) && negb (code c =? 247)).

(** The class [\w] of a pattern on [str]: [c.isalnum()] or the
    underscore. *)
Definition isword (c : ascii) : bool :=
  isdecimal c || ascii_upper c || ascii_lower c || (code c =? 95)
  || isalnum_high c.

(** [int(d)] for a decimal digit. *)
Definition int_of_digit (c : ascii) : Z := Z.of_nat (code c) - 48.

(** [int(c)] for a string of one character: [None] is [ValueError]. *)
Definition int_of_char (c : ascii) : option Z :=
  if isdecimal c then Some (int_of_digit c) else None.

Definition lower_char (c : ascii) : ascii :=
  if ascii_upper c || upper_high c then ascii_of_nat (code c + 32) else c.

(** [s.lower()] *)
Definition lower (s : str) : str := map lower_char s.

(** [c.upper()]: the sharp s gives two letters; [None] for the micro sign
    and the y with diaeresis, whose capitals lie beyond the characters of
    the model. *)
Definition upper_char (c : ascii) : option str :=
  if ascii_lower c then Some [ascii_of_nat (code c - 32)]
  else if (code c =? 181) || (code c =? 255) then None
  else if code c =? 223 then Some [ascii_of_nat 83; ascii_of_nat 83]
  else if in_range 224 254 c && negb (code c =? 247)
       then Some [ascii_of_nat (code c - 32)]
  else Some [c].

(** [s.upper()] *)
Fixpoint upper (s : str) : option str :=
  match s with
  | [] => Some []
  | c :: s' =>
      match upper_char c, upper s' with
      | Some u, Some r => Some (u ++ r)
      | _, _ => None
      end
  end.

Fixpoint str_eqb (a b : str) : bool :=
  match a, b with
  | [], [] => true
  | x :: a', y :: b' => Ascii.eqb x y && str_eqb a' b'
  | _, _ => false
  end.

(** [s.upper() == name], for a [name] of the model. *)
Definition upper_is (name s : str) : bool :=
  match upper s with
  | Some u => str_eqb u name
  | None => false
  end.

(** [s.startswith(p)] *)
Fixpoint startswith (p s : str) : bool :=
  match p, s with
  | [], _ => true
  | x :: p', y :: s' => Ascii.eqb x y && startswith p' s'
  | _ :: _, [] => false
  end.

(** [p in s] for strings. *)
Fixpoint contains (p s : str) : bool :=
  startswith p s ||
  match s with
  | [] => false
  | _ :: s' => contains p s'
  end.

(** [s[a:b]] for [0 <= a]. *)
Definition slice (a b : nat) (s : str) : str := firstn (b - a) (skipn a s).

(** [s[-n:]] *)
Definition last_n (n : nat) (s : str) : str := skipn (length s - n) s.

(** ["*" * n] *)
Definition stars (n : nat) : str := repeat "*"%char n.

Definition newline : ascii := ascii_of_nat 10.

(** [text.split('\n')] *)
Fixpoint split_lines (s : str) : list str :=
  match s with
  | [] => [[]]
  | c :: s' =>
      if Ascii.eqb c newline then [] :: split_lines s'
      else match split_lines s' with
           | l :: ls => (c :: l) :: ls
           | [] => [[c]]
           end
  end.

(** [enumerate(xs, start)] *)
Fixpoint enumerate {A : Type} (start : nat) (xs : list A) : list (nat * A) :=
  match xs with
  | [] => []
  | x :: xs' => (start, x) :: enumerate (S start) xs'
  end.

(** [min(a, b)] and [max(a, b)] on floats: the first argument is kept unless
    the second is strictly smaller (larger). *)
Definition fmin (a b : float) : float := if PrimFloat.ltb b a then b else a.
Definition fmax (a b : float) : float := if PrimFloat.ltb a b then b else a.

Definition float_of_nat (n : nat) : float :=
  PrimFloat.of_uint63 (Uint63.of_Z (Z.of_nat n)).

End Py.

Import Py.

(** ** Exceptions: [None] is a raised exception *)

Definition bind {A B : Type} (m : option A) (f : A -> option B) : option B :=
  match m with
  | Some a => f a
  | None => None
  end.

Notation "x <- m ;; k" := (bind m (fun x => k))
  (at level 61, m at next level, right associativity).

Fixpoint mapM {A B : Type} (f : A -> option B) (l : list A)
  : option (list B) :=
  match l with
  | [] => Some []
  | a :: l' =>
      b <- f a ;;
      bs <- mapM f l' ;;
      Some (b :: bs)
  end.

(** ** Regular expressions: the fragment of [re] the agent uses *)

Module Re.

(** Every quantifier of the source's patterns ranges over a single character
    class, except the optional group of the VISA pattern, which is [Alt _ Eps].
    All quantifiers are greedy. *)
Inductive regex : Type :=
| Eps
| Cls (p : ascii -> bool)
| Seq (r1 r2 : regex)
| Alt (r1 r2 : regex)
| Rep (p : ascii -> bool) (lo : nat) (hi : option nat)
| WordB.

Definition Ch (c : ascii) : regex := Cls (Ascii.eqb c).
Definition Cat (rs : list regex) : regex := fold_right Seq Eps rs.
Definition Lit (s : string) : regex := Cat (map Ch (L s)).
Definition Opt (r : regex) : regex := Alt r Eps.
Definition Exactly (p : ascii -> bool) (n : nat) : regex := Rep p n (Some n).
Definition AtLeast (p : ascii -> bool) (n : nat) : regex := Rep p n None.

Definition is_word_opt (o : option ascii) : bool :=
  match o with
  | Some c => isword c
  | None => false
  end.

Definition can_take (hi : option nat) : bool :=
  match hi with
  | Some 0 => false
  | _ => true
  end.

Section Matcher.
Variable A : Type.

(** The continuation receives the character before the current position and
    the text still to be read. *)
Definition cont : Type := option ascii -> str -> option A.

(** Greedy [p{lo,hi}]: take as many characters as allowed, then give them
    back one at a time until the continuation accepts. *)
Fixpoint rep (p : ascii -> bool) (lo : nat) (hi : option nat)
         (prev : option ascii) (s : str) (k : cont) {struct s} : option A :=
  let stop := if lo =? 0 then k prev s else None in
  match s with
  | c :: s' =>
      if p c && can_take hi then
        match rep p (pred lo) (option_map pred hi) (Some c) s' k with
        | Some r => Some r
        | None => stop
        end
      else stop
  | [] => stop
  end.

Fixpoint rmatch (r : regex) (prev : option ascii) (s : str) (k : cont)
  : option A :=
  match r with
  | Eps => k prev s
  | Cls p =>
      match s with
      | c :: s' => if p c then k (Some c) s' else None
      | [] => None
      end
  | Seq r1 r2 => rmatch r1 prev s (fun prev' s' => rmatch r2 prev' s' k)
  | Alt r1 r2 =>
      match rmatch r1 prev s k with
      | Some x => Some x
      | None => rmatch r2 prev s k
      end
  | Rep p lo hi => rep p lo hi prev s k
  | WordB =>
      if xorb (is_word_opt prev) (is_word_opt (hd_error s)) then k prev s
      else None
  end.

End Matcher.

(** A match of [r] starting at the current position: the text left after it. *)
Definition match_at (r : regex) (prev : option ascii) (s : str) : option str :=
  rmatch r prev s (fun _ rest => Some rest).

Definition match_len (s rest : str) : nat := length s - length rest.

(** The scans below read the text once, left to right; [skip] counts the
    characters still covered by the last match.  None of the patterns of the
    agent matches the empty string. *)

(** [r.search(s) is not None] *)
Fixpoint search_from (r : regex) (prev : option ascii) (s : str) : bool :=
  match match_at r prev s with
  | Some _ => true
  | None =>
      match s with
      | c :: s' => search_from r (Some c) s'
      | [] => false
      end
  end.

Definition search (r : regex) (s : str) : bool := search_from r None s.

(** [r.finditer(s)]: the spans [(m.start(), m.end())]. *)
Fixpoint finditer_from (r : regex) (prev : option ascii) (s : str)
         (pos skip : nat) : list (nat * nat) :=
  match skip with
  | S k =>
      match s with
      | c :: s' => finditer_from r (Some c) s' (S pos) k
      | [] => []
      end
  | 0 =>
      match match_at r prev s with
      | Some rest =>
          let len := match_len s rest in
          (pos, pos + len) ::
          match s with
          | c :: s' => finditer_from r (Some c) s' (S pos) (pred len)
          | [] => []
          end
      | None =>
          match s with
          | c :: s' => finditer_from r (Some c) s' (S pos) 0
          | [] => []
          end
      end
  end.

Definition finditer (r : regex) (s : str) : list (nat * nat) :=
  finditer_from r None s 0 0.

(** [re.findall(r, s)] for a pattern without groups. *)
Definition findall (r : regex) (s : str) : list str :=
  map (fun '(a, b) => slice a b s) (finditer r s).

(** [re.sub(r, repl, s)] once the replacement template is expanded. *)
Fixpoint sub_from (r : regex) (repl : str) (prev : option ascii) (s : str)
         (skip : nat) : str :=
  match skip with
  | S k =>
      match s with
      | c :: s' => sub_from r repl (Some c) s' k
      | [] => []
      end
  | 0 =>
      match match_at r prev s with
      | Some rest =>
          let len := match_len s rest in
          repl ++
          match s with
          | c :: s' =>
              (if len =? 0 then [c] else []) ++
              sub_from r repl (Some c) s' (pred len)
          | [] => []
          end
      | None =>
          match s with
          | c :: s' => c :: sub_from r repl (Some c) s' 0
          | [] => []
          end
      end
  end.

Definition sub_literal (r : regex) (repl : str) (s : str) : str :=
  sub_from r repl None s 0.

(** The escapes a replacement template may contain besides group
    references: [\a \b \f \n \r \t \v] and the backslash itself. *)
Definition template_escape (c : ascii) : option ascii :=
  if Ascii.eqb c "a" then Some (ascii_of_nat 7)
  else if Ascii.eqb c "b" then Some (ascii_of_nat 8)
  else if Ascii.eqb c "f" then Some (ascii_of_nat 12)
  else if Ascii.eqb c "n" then Some (ascii_of_nat 10)
  else if Ascii.eqb c "r" then Some (ascii_of_nat 13)
  else if Ascii.eqb c "t" then Some (ascii_of_nat 9)
  else if Ascii.eqb c "v" then Some (ascii_of_nat 11)
  else if Ascii.eqb c "\" then Some "\"%char
  else None.

(** The replacement template of [re.sub], read as [re] reads it before it
    looks for any match: [None] is [re.error].  A backslash before any other
    ASCII letter is a bad escape, and so is a backslash that ends the
    template; a backslash before any other character stays as it is.  The
    patterns of the agent have no groups, so a group reference ([\1] or
    [\g<...>]) is an error as well. *)
Fixpoint parse_template (t : str) : option str :=
  match t with
  | [] => Some []
  | c :: t' =>
      if Ascii.eqb c "\" then
        match t' with
        | [] => None
        | e :: t'' =>
            match template_escape e with
            | Some x => option_map (cons x) (parse_template t'')
            | None =>
                if ascii_upper e || ascii_lower e || isdecimal e then None
                else option_map (fun r => c :: e :: r) (parse_template t'')
            end
        end
      else option_map (cons c) (parse_template t')
  end.

(** [re.sub(r, template, s)] *)
Definition sub (r : regex) (template : str) (s : str) : option str :=
  match parse_template template with
  | Some repl => Some (sub_literal r repl s)
  | None => None
  end.

End Re.

(** ** detection_engine.py *)

Module DetectionEngine.
Import Re.

Inductive CardType : Type :=
| VISA | MASTERCARD | AMEX | DISCOVER | DINERS | JCB | UNKNOWN.

(** [CardType.value] *)
Definition value (t : CardType) : str :=
  match t with
  | VISA => L "visa"
  | MASTERCARD => L "mastercard"
  | AMEX => L "amex"
  | DISCOVER => L "discover"
  | DINERS => L "diners"
  | JCB => L "jcb"
  | UNKNOWN => L "unknown"
  end.

Definition is_major (t : CardType) : bool :=
  match t with
  | VISA | MASTERCARD | AMEX => true
  | _ => false
  end.

Record PANMatch : Type := mkPANMatch {
  file_path : str;
  line_number : nat;
  column_start : nat;
  column_end : nat;
  raw_match : str;
  masked_match : str;
  card_type : CardType;
  luhn_valid : bool;
  confidence_score : float;
  context_before : str;
  context_after : str;
  is_masked : bool
}.

(** The options of the [detection] and [privacy] sections that the detector
    and the report generator read; [default_config] holds the defaults of
    their [config.get(..., default)] calls. *)
Record Config : Type := mkConfig {
  require_luhn : bool;
  min_confidence : float;
  context_window : nat;
  exclude_masked : bool;
  show_last4_only : bool;
  allow_full_pan_retention : bool;
  redact_pan : bool
}.

Definition default_config : Config :=
  {| require_luhn := true;
     min_confidence := 0.7%float;
     context_window := 100;
     exclude_masked := true;
     show_last4_only := true;
     allow_full_pan_retention := false;
     redact_pan := true |}.

Definition d : ascii -> bool := isdecimal.
Definition rng (a b : ascii) : ascii -> bool := in_range (code a) (code b).

(** [CARD_PATTERNS], each compiled as [r'\b' + pattern + r'\b'].  The
    MASTERCARD pattern has an alternation at its top level, so the first
    [\b] belongs to its first branch and the last [\b] to its second. *)
Definition compiled_patterns : list (CardType * regex) :=
  [ (VISA,
     Cat [WordB; Ch "4"; Exactly d 12; Opt (Exactly d 3); WordB]);
    (MASTERCARD,
     Alt (Cat [WordB; Ch "5"; Cls (rng "1" "5"); Exactly d 14])
         (Cat [Ch "2";
               Alt (Cat [Ch "2";
                         Alt (Cat [Ch "2"; Cls (rng "1" "9")])
                             (Cat [Cls (rng "3" "9"); Cls d])])
                   (Alt (Cat [Cls (rng "3" "6"); Cls d; Cls d])
                        (Cat [Ch "7";
                              Alt (Cat [Cls (rng "0" "1"); Cls d])
                                  (Lit "20")]));
               Exactly d 12; WordB]));
    (AMEX,
     Cat [WordB; Ch "3"; Cls (fun c => Ascii.eqb c "4" || Ascii.eqb c "7");
          Exactly d 13; WordB]);
    (DISCOVER,
     Cat [WordB; Ch "6";
          Alt (Lit "011") (Cat [Ch "5"; Exactly d 2]);
          Exactly d 12; WordB]);
    (DINERS,
     Cat [WordB; Ch "3";
          Alt (Cat [Ch "0"; Cls (rng "0" "5")])
              (Cat [Cls (fun c => Ascii.eqb c "6" || Ascii.eqb c "8"); Cls d]);
          Exactly d 11; WordB]);
    (JCB,
     Cat [WordB;
          Alt (Lit "2131") (Alt (Lit "1800") (Cat [Lit "35"; Exactly d 3]));
          Exactly d 11; WordB]) ].

Definition star : ascii -> bool := Ascii.eqb "*".
Definition capX : ascii -> bool := Ascii.eqb "X".
Definition hash : ascii -> bool := Ascii.eqb "#".
Definition mask_char (c : ascii) : bool := star c || capX c || hash c.

(** [MASKED_PATTERNS] *)
Definition masked_regex : list regex :=
  [ AtLeast star 4;
    AtLeast capX 4;
    AtLeast hash 4;
    Cat [AtLeast star 1; Exactly d 4];
    Cat [AtLeast capX 1; Exactly d 4];
    Cat [AtLeast hash 1; Exactly d 4];
    Cat [Exactly d 4; AtLeast mask_char 4];
    Cat [Exactly d 4; Ch "-"; Exactly star 4; Ch "-"; Exactly star 4;
         Ch "-"; Exactly d 4] ].

(** [[int(d) for d in card_number if d.isdigit()]]: [None] is the
    [ValueError] of [int] on a superscript digit. *)
Definition digits_of (card_number : str) : option (list Z) :=
  mapM int_of_char (filter isdigit card_number).

(** The loop [for i, digit in enumerate(digits)] of [luhn_check], started at
    index [i] with the running [checksum]. *)
Fixpoint luhn_loop (parity i : nat) (digits : list Z) (checksum : Z) : Z :=
  match digits with
  | [] => checksum
  | digit :: rest =>
      let digit :=
        if i mod 2 =? parity then
          let digit := (digit * 2)%Z in
          if (digit >? 9)%Z then (digit - 9)%Z else digit
        else digit in
      luhn_loop parity (S i) rest (checksum + digit)%Z
  end.

Definition luhn_check (card_number : str) : option bool :=
  digits <- digits_of card_number ;;
  if (length digits <? 13) || (19 <? length digits) then Some false
  else
    let parity := length digits mod 2 in
    Some (luhn_loop parity 0 digits 0 mod 10 =? 0)%Z.

(** The test of the masked patterns on [text], without the configuration
    guard. *)
Definition matches_masked_pattern (text : str) : bool :=
  existsb (fun r => search r text) masked_regex.

Definition is_masked_number (cfg : Config) (text : str) : bool :=
  if negb (exclude_masked cfg) then false
  else matches_masked_pattern text.

Definition mask_pan (pan : str) (show_last4 : bool) : str :=
  if length pan <? 4 then stars (length pan)
  else if show_last4 then stars (length pan - 4) ++ last_n 4 pan
  else stars (length pan).

Definition payment_keywords : list str :=
  map L [ "card"; "credit"; "debit"; "payment"; "visa"; "mastercard"; "amex";
          "discover"; "pan"; "account"; "number"; "cvv"; "expiry";
          "expire" ]%string.

Definition calculate_confidence (match_ : str) (card_type : CardType)
           (luhn_valid : bool) (context : str) (is_masked : bool) : float :=
  let confidence := 0.0%float in
  let confidence := (confidence + 0.3)%float in
  let confidence := if luhn_valid then (confidence + 0.4)%float
                    else confidence in
  let context_lower := lower context in
  let keyword_matches :=
    length (filter (fun keyword => contains keyword context_lower)
                   payment_keywords) in
  let confidence :=
    (confidence + fmin (float_of_nat keyword_matches * 0.05) 0.2)%float in
  let confidence := if is_masked then (confidence - 0.2)%float
                    else confidence in
  let confidence := if is_major card_type then (confidence + 0.1)%float
                    else confidence in
  fmin (fmax confidence 0.0%float) 1.0%float.

(** The two context strings of a hit [(start, end)] in [line], at their full
    width of [context_window] characters. *)
Definition wide_context_before (cfg : Config) (line : str) (start : nat) : str :=
  slice (start - context_window cfg) start line.

Definition wide_context_after (cfg : Config) (line : str) (end_ : nat) : str :=
  slice end_ (Nat.min (length line) (end_ + context_window cfg)) line.

(** [full_context] of [scan_text]. *)
Definition full_context (cfg : Config) (line : str) (start end_ : nat) : str :=
  wide_context_before cfg line start ++ slice start end_ line ++
  wide_context_after cfg line end_.

(** The body of the innermost loop of [scan_text] for one regex hit: [None]
    stands for [continue].  [digits_only] is what [re.sub(r'\D', '', ...)]
    leaves, decimal digits only, on which [luhn_check] does not raise: the
    first case of the match on its result is never taken. *)
Definition scan_hit (cfg : Config) (file_path : str) (line_num : nat)
           (line : str) (card_type : CardType) (start end_ : nat)
  : option PANMatch :=
  let pan_candidate := slice start end_ line in
  let digits_only := filter isdecimal pan_candidate in
  if (length digits_only <? 13) || (19 <? length digits_only) then None
  else
    match luhn_check digits_only with
    | None => None
    | Some luhn_valid =>
    if require_luhn cfg && negb luhn_valid then None
    else
      let context_before := wide_context_before cfg line start in
      let context_after := wide_context_after cfg line end_ in
      let full_context := context_before ++ pan_candidate ++ context_after in
      let is_masked := is_masked_number cfg full_context in
      let confidence :=
        calculate_confidence pan_candidate card_type luhn_valid full_context
                             is_masked in
      if PrimFloat.ltb confidence (min_confidence cfg) then None
      else
        let show_last4 := show_last4_only cfg in
        let masked_pan := mask_pan digits_only show_last4 in
        Some {| file_path := file_path;
                line_number := line_num;
                column_start := start;
                column_end := end_;
                raw_match := if allow_full_pan_retention cfg
                             then pan_candidate else [];
                masked_match := masked_pan;
                card_type := card_type;
                luhn_valid := luhn_valid;
                confidence_score := confidence;
                context_before :=
                  if 50 <? length context_before
                  then last_n 50 context_before else context_before;
                context_after :=
                  if 50 <? length context_after
                  then firstn 50 context_after else context_after;
                is_masked := is_masked |}
    end.

Definition opt_list {A : Type} (o : option A) : list A :=
  match o with
  | Some a => [a]
  | None => []
  end.

(** One line of the text: every pattern in turn, every hit of the pattern
    from left to right. *)
Definition scan_line (cfg : Config) (file_path : str) (line_num : nat)
           (line : str) : list PANMatch :=
  if is_masked_number cfg line then []
  else
    flat_map
      (fun '(card_type, pattern) =>
         flat_map
           (fun '(start, end_) =>
              opt_list (scan_hit cfg file_path line_num line card_type
                                 start end_))
           (finditer pattern line))
      compiled_patterns.

Definition scan_text (cfg : Config) (text : str) (file_path : str)
  : list PANMatch :=
  flat_map (fun '(line_num, line) => scan_line cfg file_path line_num line)
           (enumerate 1 (split_lines text)).

End DetectionEngine.
Import DetectionEngine.

(** ** Library functions the agent calls and whose results it never inspects *)

Class Extern : Type := {
  (** [hashlib.sha256(s.encode()).hexdigest()] *)
  sha256_hexdigest : str -> str;
  (** the text [json.dumps] writes for a float *)
  float_repr : float -> str;
  (** [round(x, ndigits)] *)
  round_ndigits : float -> Z -> float;
  (** [datetime.fromisoformat(s.replace('Z', '+00:00')).strftime('%Y-%m-%d')],
      [None] when [fromisoformat] raises *)
  iso_date : str -> option str;
  (** [fnmatch.fnmatch(name, pattern)] *)
  fnmatch : str -> str -> bool
}.

(** ** JSON values and [json.dumps] *)

Module Json.

Inductive json : Type :=
| JNone
| JBool (b : bool)
| JInt (z : Z)
| JFloat (f : float)
| JStr (s : str)
| JList (l : list json)
| JDict (d : list (str * json))
| JOther (text : str).   (* any other object, with its [str()] *)

Definition dict : Type := list (str * json).

(** [d.get(k)] *)
Fixpoint get (k : str) (d : dict) : option json :=
  match d with
  | [] => None
  | (k', v) :: d' => if str_eqb k k' then Some v else get k d'
  end.

(** [d.get(k, default)] *)
Definition get_default (k : str) (default : json) (d : dict) : json :=
  match get k d with
  | Some v => v
  | None => default
  end.

(** [k in d] *)
Definition mem (k : str) (d : dict) : bool :=
  match get k d with
  | Some _ => true
  | None => false
  end.

(** [d[k] = v] *)
Fixpoint set (k : str) (v : json) (d : dict) : dict :=
  match d with
  | [] => [(k, v)]
  | (k', v') :: d' =>
      if str_eqb k k' then (k', v) :: d' else (k', v') :: set k v d'
  end.

Definition dquote : ascii := ascii_of_nat 34.

Definition hex_digit (n : nat) : ascii :=
  if n <? 10 then ascii_of_nat (48 + n) else ascii_of_nat (87 + n).

(** One character of a string, as [json.dumps] writes it with
    [ensure_ascii=True]. *)
Definition escape_char (c : ascii) : str :=
  if Ascii.eqb c dquote then ["\"%char; dquote]
  else if Ascii.eqb c "\" then L "\\"
  else if code c =? 10 then L "\n"
  else if code c =? 13 then L "\r"
  else if code c =? 9 then L "\t"
  else if code c =? 12 then L "\f"
  else if code c =? 8 then L "\b"
  else if in_range 32 126 c then [c]
  else L "\u00" ++ [hex_digit (code c / 16); hex_digit (code c mod 16)].

Definition quote (s : str) : str :=
  [dquote] ++ flat_map escape_char s ++ [dquote].

Fixpoint join (sep : str) (parts : list str) : str :=
  match parts with
  | [] => []
  | [p] => p
  | p :: ps => p ++ sep ++ join sep ps
  end.

Fixpoint str_ltb (a b : str) : bool :=
  match a, b with
  | _, [] => false
  | [], _ :: _ => true
  | x :: a', y :: b' =>
      (code x <? code y) || ((code x =? code y) && str_ltb a' b')
  end.

(** [sorted(items)] on the keys. *)
Fixpoint insert_by_key (kv : str * str) (l : list (str * str))
  : list (str * str) :=
  match l with
  | [] => [kv]
  | kv' :: l' =>
      if str_ltb (fst kv) (fst kv') then kv :: l
      else kv' :: insert_by_key kv l'
  end.

Definition sort_by_key (l : list (str * str)) : list (str * str) :=
  fold_right insert_by_key [] l.

Definition int_repr (z : Z) : str :=
  L (NilEmpty.string_of_int (Z.to_int z)).

Section Dumps.
Context {E : Extern}.
Variable sort_keys : bool.

(** [json.dumps(v, sort_keys=sort_keys, default=str)] *)
Fixpoint dumps (v : json) : str :=
  match v with
  | JNone => L "null"
  | JBool true => L "true"
  | JBool false => L "false"
  | JInt z => int_repr z
  | JFloat f => float_repr f
  | JStr s => quote s
  | JList l => L "[" ++ join (L ", ") (map dumps l) ++ L "]"
  | JDict d =>
      let items := map (fun kv => (fst kv, dumps (snd kv))) d in
      let items := if sort_keys then sort_by_key items else items in
      L "{" ++
      join (L ", ") (map (fun kv => quote (fst kv) ++ L ": " ++ snd kv) items)
      ++ L "}"
  | JOther text => quote text
  end.

End Dumps.

End Json.
Import Json.

(** The three patterns both path sanitisers use. *)
Module UserPaths.
Import Re.

Definition not_char (c : ascii) : ascii -> bool := fun x => negb (Ascii.eqb x c).

(** [r'/Users/[^/]+/'] *)
Definition unix_home : regex :=
  Cat [Lit "/Users/"; AtLeast (not_char "/") 1; Ch "/"].

(** [r'\\Users\\[^\\]+\\'] *)
Definition windows_home : regex :=
  Cat [Lit "\Users\"; AtLeast (not_char "\") 1; Ch "\"].

(** [r'C:\\Users\\[^\\]+\\'] *)
Definition drive_home : regex :=
  Cat [Lit "C:\Users\"; AtLeast (not_char "\") 1; Ch "\"].

End UserPaths.

(** ** report_generator.py *)

Module ReportGenerator.
Import Re UserPaths.

Section WithConfig.
Context {E : Extern}.
Variable config : Config.

Definition allow_full_pan : bool := allow_full_pan_retention config.

(** The replacement templates are raw string literals:
    ['/Users/<user>/'], [r'\\Users\\<user>\\'] and [r'C:\\Users\\<user>\\']. *)
Definition _sanitize_file_path (file_path : str) : option str :=
  sanitized <- sub unix_home (L "/Users/<user>/") file_path ;;
  sanitized <- sub windows_home (L "\\Users\\<user>\\") sanitized ;;
  sanitized <- sub drive_home (L "C:\\Users\\<user>\\") sanitized ;;
  Some sanitized.

Definition email_local (c : ascii) : bool :=
  ascii_upper c || ascii_lower c || isdecimal c ||
  existsb (Ascii.eqb c) (L "._%+-").

Definition email_domain (c : ascii) : bool :=
  ascii_upper c || ascii_lower c || isdecimal c || existsb (Ascii.eqb c) (L ".-").

Definition email_tld (c : ascii) : bool :=
  ascii_upper c || Ascii.eqb c "|" || ascii_lower c.

(** [r'\b[A-Za-z0-9._%+-]+@[A-Za-z0-9.-]+\.[A-Z|a-z]{2,}\b'] *)
Definition email_re : regex :=
  Cat [WordB; AtLeast email_local 1; Ch "@"; AtLeast email_domain 1; Ch ".";
       AtLeast email_tld 2; WordB].

(** [r'\b\d{3}-\d{2}-\d{4}\b'] *)
Definition ssn_re : regex :=
  Cat [WordB; Exactly isdecimal 3; Ch "-"; Exactly isdecimal 2; Ch "-";
       Exactly isdecimal 4; WordB].

Definition _sanitize_context (context : str) : option str :=
  match context with
  | [] => Some []
  | _ =>
      sanitized <- sub email_re (L "<email>") context ;;
      sanitized <- sub ssn_re (L "<ssn>") sanitized ;;
      let sanitized :=
        if 200 <? length sanitized then firstn 200 sanitized ++ L "..."
        else sanitized in
      Some sanitized
  end.

Definition _calculate_priority (m : PANMatch) : str :=
  let score := 0 in
  let score := if luhn_valid m then score + 3 else score in
  let score := if negb (is_masked m) then score + 2 else score in
  let score := if PrimFloat.ltb 0.8 (confidence_score m) then score + 2
               else score in
  let score := if is_major (card_type m) then score + 1 else score in
  if 5 <=? score then L "critical"
  else if 3 <=? score then L "high"
  else if 1 <=? score then L "medium"
  else L "low".

Definition _get_remediation_suggestions (m : PANMatch) : list str :=
  let suggestions := [] in
  let suggestions :=
    if negb (is_masked m) && luhn_valid m
    then suggestions ++
         [L "URGENT: Unmasked valid PAN detected - secure immediately"]
    else suggestions in
  let suggestions :=
    if luhn_valid m
    then suggestions ++
         [L "Implement PAN masking or tokenization";
          L "Review data retention policies";
          L "Ensure PCI-DSS compliance for data handling"]
    else suggestions in
  let suggestions :=
    if PrimFloat.ltb 0.7 (confidence_score m)
    then suggestions ++ [L "High confidence match - verify and remediate"]
    else suggestions in
  suggestions ++
  [L "Consider data encryption at rest";
   L "Implement access controls and audit logging"].

(** [hashlib.sha256(raw.encode()).hexdigest() if raw else None] *)
Definition hash_or_none (raw : str) : json :=
  match raw with
  | [] => JNone
  | _ => JStr (sha256_hexdigest raw)
  end.

(** The [pan_data] entry of a finding. *)
Definition pan_data (m : PANMatch) : dict :=
  if allow_full_pan && negb (redact_pan config) then
    [ (L "full_number", JStr (raw_match m));
      (L "masked_number", JStr (masked_match m));
      (L "hash", hash_or_none (raw_match m)) ]
  else
    [ (L "masked_number", JStr (masked_match m));
      (L "hash", hash_or_none (raw_match m)) ].

(** One iteration of the loop of [_process_findings]. *)
Definition process_finding (m : PANMatch) : option dict :=
  path <- _sanitize_file_path (file_path m) ;;
  before <- _sanitize_context (context_before m) ;;
  after <- _sanitize_context (context_after m) ;;
  let finding :=
    [ (L "file_path", JStr path);
      (L "line_number", JInt (Z.of_nat (line_number m)));
      (L "column_range",
       JList [JInt (Z.of_nat (column_start m));
              JInt (Z.of_nat (column_end m))]);
      (L "card_type", JStr (value (card_type m)));
      (L "luhn_valid", JBool (luhn_valid m));
      (L "confidence_score",
       JFloat (round_ndigits (confidence_score m) 3));
      (L "is_masked", JBool (is_masked m));
      (L "context",
       JDict [(L "before", JStr before); (L "after", JStr after)]);
      (L "remediation_priority", JStr (_calculate_priority m));
      (L "remediation_suggestions",
       JList (map JStr (_get_remediation_suggestions m))) ] in
  Some (set (L "pan_data") (JDict (pan_data m)) finding).

Definition _process_findings (matches : list PANMatch)
  : option (list dict) :=
  mapM process_finding matches.

(** The counters [_categorize_findings] keeps while it walks the matches. *)
Record Categories : Type := mkCategories {
  by_card_type : dict;
  n_luhn_valid : Z;
  n_luhn_invalid : Z;
  n_high : Z;
  n_medium : Z;
  n_low : Z;
  n_masked : Z;
  n_unmasked : Z
}.

Definition incr (v : json) : json :=
  match v with
  | JInt z => JInt (z + 1)
  | _ => v
  end.

Definition categorize_step (c : Categories) (m : PANMatch) : Categories :=
  let card := value (card_type m) in
  let high := PrimFloat.ltb 0.8 (confidence_score m) in
  let medium := negb high && PrimFloat.ltb 0.5 (confidence_score m) in
  {| by_card_type :=
       set card (incr (get_default card (JInt 0) (by_card_type c)))
           (by_card_type c);
     n_luhn_valid := if luhn_valid m then n_luhn_valid c + 1
                     else n_luhn_valid c;
     n_luhn_invalid := if luhn_valid m then n_luhn_invalid c
                       else n_luhn_invalid c + 1;
     n_high := if high then n_high c + 1 else n_high c;
     n_medium := if medium then n_medium c + 1 else n_medium c;
     n_low := if high || medium then n_low c else n_low c + 1;
     n_masked := if is_masked m then n_masked c + 1 else n_masked c;
     n_unmasked := if is_masked m then n_unmasked c else n_unmasked c + 1 |}%Z.

Definition _categorize_findings (matches : list PANMatch) : dict :=
  let c := fold_left categorize_step matches
                     (mkCategories [] 0 0 0 0 0 0 0) in
  [ (L "by_card_type", JDict (by_card_type c));
    (L "by_validation_status",
     JDict [(L "luhn_valid", JInt (n_luhn_valid c));
            (L "luhn_invalid", JInt (n_luhn_invalid c))]);
    (L "by_confidence",
     JDict [(L "high", JInt (n_high c)); (L "medium", JInt (n_medium c));
            (L "low", JInt (n_low c))]);
    (L "by_masking_status",
     JDict [(L "masked", JInt (n_masked c));
            (L "unmasked", JInt (n_unmasked c))]) ].

Definition high_risk (m : PANMatch) : bool :=
  luhn_valid m && negb (is_masked m).

Definition _assess_risk (matches : list PANMatch) : dict :=
  match matches with
  | [] =>
      [ (L "overall_risk", JStr (L "low"));
        (L "risk_factors", JList []);
        (L "compliance_status", JStr (L "compliant")) ]
  | _ =>
      let risky := filter high_risk matches in
      let high_risk_count := length risky in
      let risk_factors :=
        map (fun m => JStr (L "Unmasked valid PAN in " ++ file_path m))
            risky in
      let '(overall_risk, compliance_status) :=
        if 0 <? high_risk_count then (L "critical", L "non-compliant")
        else if 10 <? length matches then (L "high", L "review-required")
        else if 0 <? length matches then (L "medium", L "review-required")
        else (L "low", L "compliant") in
      [ (L "overall_risk", JStr overall_risk);
        (L "risk_factors", JList (firstn 10 risk_factors));
        (L "compliance_status", JStr compliance_status);
        (L "total_high_risk_findings", JInt (Z.of_nat high_risk_count)) ]
  end.

Definition _generate_recommendations (matches : list PANMatch) : list str :=
  let recommendations :=
    [ L "Implement regular PCI compliance scanning";
      L "Establish data retention and disposal policies";
      L "Implement strong access controls and authentication";
      L "Enable comprehensive audit logging" ] in
  let recommendations :=
    if existsb (fun m => negb (is_masked m) && luhn_valid m) matches
    then L "CRITICAL: Secure unmasked PANs immediately" ::
         L "Implement PAN masking/tokenization solution" :: recommendations
    else recommendations in
  if 5 <? length matches
  then recommendations ++
       [L "Consider automated PAN discovery and classification"]
  else recommendations.

(** The report as [create_report] builds it before it is hashed;
    [timestamp] is [datetime.now(timezone.utc).isoformat()]. *)
Definition build_report (timestamp agent_id scan_id operator : str)
           (matches : list PANMatch) (scan_stats config_summary : dict)
  : option dict :=
  findings <- _process_findings matches ;;
  Some
    [ (L "metadata",
       JDict [ (L "report_version", JStr (L "1.0"));
               (L "agent_id", JStr agent_id);
               (L "scan_id", JStr scan_id);
               (L "timestamp", JStr timestamp);
               (L "operator", JStr operator);
               (L "report_hash", JStr []) ]);
      (L "scan_parameters",
       JDict [ (L "directories_scanned",
                get_default (L "scan_directories") (JInt 0) config_summary);
               (L "exclude_patterns_count",
                get_default (L "exclude_patterns") (JInt 0) config_summary);
               (L "detect_plain_pan_enabled",
                get_default (L "detect_plain_pan") (JBool false)
                            config_summary);
               (L "action_policy",
                get_default (L "action_policy") (JStr (L "report_only"))
                            config_summary);
               (L "max_file_size_mb",
                get_default (L "max_file_size_mb") (JInt 10) config_summary);
               (L "concurrency",
                get_default (L "concurrency") (JInt 4) config_summary);
               (L "privacy_settings",
                JDict [ (L "redact_pan",
                         get_default (L "privacy_redact_pan") (JBool true)
                                     config_summary);
                        (L "show_last4_only",
                         get_default (L "privacy_show_last4_only")
                                     (JBool true) config_summary) ]) ]);
      (L "scan_results",
       JDict [ (L "summary",
                JDict [ (L "total_files_scanned",
                         get_default (L "files_scanned") (JInt 0) scan_stats);
                        (L "total_files_skipped",
                         get_default (L "files_skipped") (JInt 0) scan_stats);
                        (L "total_directories_scanned",
                         get_default (L "directories_scanned") (JInt 0)
                                     scan_stats);
                        (L "total_matches_found",
                         JInt (Z.of_nat (length matches)));
                        (L "errors_encountered",
                         get_default (L "errors") (JInt 0) scan_stats);
                        (L "scan_duration_seconds",
                         get_default (L "duration_seconds") (JInt 0)
                                     scan_stats) ]);
               (L "findings_by_type", JDict (_categorize_findings matches));
               (L "findings", JList (map JDict findings));
               (L "risk_assessment", JDict (_assess_risk matches)) ]);
      (L "compliance_notes",
       JDict [ (L "data_handling",
                JStr (L "This report follows PCI-DSS data minimization principles"));
               (L "retention_policy",
                JStr (L "Sensitive data is masked unless explicitly authorized"));
               (L "audit_trail",
                JStr (L "Full audit log available for scan " ++ scan_id));
               (L "recommendations",
                JList (map JStr (_generate_recommendations matches))) ]) ].

(** [report["metadata"]["report_hash"] = h]: [None] is the [KeyError] or
    [TypeError] of a report without a [metadata] dict. *)
Definition set_report_hash (h : str) (report : dict) : option dict :=
  match get (L "metadata") report with
  | Some (JDict metadata) =>
      Some (set (L "metadata")
                (JDict (set (L "report_hash") (JStr h) metadata)) report)
  | _ => None
  end.

(** [sha256(json.dumps(report, sort_keys=True, default=str))] *)
Definition report_digest (report : dict) : str :=
  sha256_hexdigest (dumps true (JDict report)).

Definition create_report (timestamp agent_id scan_id operator : str)
           (matches : list PANMatch) (scan_stats config_summary : dict)
  : option dict :=
  report <- build_report timestamp agent_id scan_id operator matches
                         scan_stats config_summary ;;
  let report_json := dumps true (JDict report) in
  set_report_hash (sha256_hexdigest report_json) report.

End WithConfig.

End ReportGenerator.

(** ** audit_logger.py *)

Module AuditLogger.
Import Re UserPaths.

(** The same three substitutions, but the last two replacement templates are
    ordinary string literals: ['\\Users\\<user>\\'] is the text
    [\Users\<user>\] and ['C:\\Users\\<user>\\'] is [C:\Users\<user>\]. *)
Definition _sanitize_file_path (file_path : str) : option str :=
  sanitized <- sub unix_home (L "/Users/<user>/") file_path ;;
  sanitized <- sub windows_home (L "\Users\<user>\") sanitized ;;
  sanitized <- sub drive_home (L "C:\Users\<user>\") sanitized ;;
  Some sanitized.

Definition _assess_finding_risk (luhn_valid is_masked : bool)
           (confidence : float) : str :=
  if luhn_valid && negb is_masked && PrimFloat.ltb 0.8 confidence
  then L "critical"
  else if luhn_valid && negb is_masked then L "high"
  else if luhn_valid && is_masked then L "medium"
  else L "low".

End AuditLogger.

(** ** secure_client.py *)

Module SecureClient.
Import Re.

(** The content of an answer: nothing, a text that [response.json()]
    reads as a JSON value, or a text on which it raises. *)
Inductive content : Type :=
| Empty
| Json (value : json)
| Invalid.

(** What one call of [session.post] or [session.get] does: it answers with
    a status and a content, or it raises. *)
Inductive response : Type :=
| Status (code : nat) (body : content)
| Raises.

(** A record of the log, at the level ERROR or WARNING: [Logged] with the
    message as written, [Caught] with the message that the text of the
    exception caught follows. *)
Inductive level : Type := ERROR | WARNING.

Inductive record : Type :=
| Logged (l : level) (message : str)
| Caught (l : level) (message : str).

(** A request put on the wire: method, URL and JSON body. *)
Definition request : Type := (str * str * option json)%type.

Fixpoint lstrip (c : ascii) (s : str) : str :=
  match s with
  | x :: s' => if Ascii.eqb x c then lstrip c s' else s
  | [] => []
  end.

Definition rstrip (c : ascii) (s : str) : str := rev (lstrip c (rev s)).

(** [r'\b[0-9]{13,19}\b'] *)
Definition pan_pattern : regex :=
  Cat [WordB; Rep isdecimal 13 (Some 19); WordB].

(** The body of the loop [for pan in potential_pans], [true] when it
    returns. *)
Definition looks_like_pan (pan : str) : bool :=
  if (13 <=? length pan) &&
     negb (startswith (L "202") pan || startswith (L "201") pan)
  then
    let digits := map int_of_digit pan in
    let parity := length digits mod 2 in
    (luhn_loop parity 0 digits 0 mod 10 =? 0)%Z
  else false.

Section WithSession.
Context {E : Extern}.

(** [reporting.server_url], [reporting.max_retries]. *)
Variable server_url : option str.
Variable max_retries : nat.

(** The answer of the server to the request sent at a given attempt. *)
Variable session : nat -> request -> response.

Definition _contains_sensitive_data (report : dict) : bool :=
  let report_str := lower (dumps false (JDict report)) in
  let potential_pans := findall pan_pattern report_str in
  existsb looks_like_pan potential_pans.

(** The warning of [_contains_sensitive_data], written for the candidate
    on which it returns. *)
Definition _contains_sensitive_data_log (report : dict) : list record :=
  let report_str := lower (dumps false (JDict report)) in
  let potential_pans := findall pan_pattern report_str in
  match find looks_like_pan potential_pans with
  | Some pan =>
      [Logged WARNING
              (L "Potential unmasked PAN detected in report: "
               ++ firstn 4 pan ++ L "****" ++ last_n 4 pan)]
  | None => []
  end.

(** [field in x]: a key of a dict, an element of a list, a part of a
    string; [None] is the [TypeError] for a value that is no container. *)
Definition field_in (field : str) (x : json) : option bool :=
  match x with
  | JDict d => Some (mem field d)
  | JList l =>
      Some (existsb (fun v => match v with
                              | JStr s => str_eqb s field
                              | _ => false
                              end) l)
  | JStr s => Some (contains field s)
  | _ => None
  end.

Definition required_fields : list str :=
  [L "metadata"; L "scan_parameters"; L "scan_results";
   L "compliance_notes"].

Definition required_metadata : list str :=
  [L "agent_id"; L "scan_id"; L "timestamp"; L "operator"].

(** [None] is the [TypeError] of [field not in metadata]. *)
Definition _validate_report (report : dict) : option bool :=
  if negb (forallb (fun field => mem field report) required_fields)
  then Some false
  else
    let metadata := get_default (L "metadata") (JDict []) report in
    present <- mapM (fun field => field_in field metadata)
                    required_metadata ;;
    if negb (forallb (fun b : bool => b) present) then Some false
    else if _contains_sensitive_data report then Some false
    else Some true.

(** The records [_validate_report] writes: the error of the check on which
    it returns, after the warning of [_contains_sensitive_data]. *)
Definition _validate_report_log (report : dict) : list record :=
  match find (fun field => negb (mem field report)) required_fields with
  | Some field =>
      [Logged ERROR (L "Missing required field in report: " ++ field)]
  | None =>
      let metadata := get_default (L "metadata") (JDict []) report in
      match
        find (fun field => match field_in field metadata with
                           | Some present => negb present
                           | None => true
                           end) required_metadata
      with
      | Some field =>
          match field_in field metadata with
          | Some _ =>
              [Logged ERROR (L "Missing required metadata field: " ++ field)]
          | None => []
          end
      | None =>
          _contains_sensitive_data_log report ++
          (if _contains_sensitive_data report
           then [Logged ERROR (L "Report contains prohibited sensitive data")]
           else [])
      end
  end.

(** [x.get(k, default)] on a value that has to be a dict. *)
Definition dict_get (k : str) (default : json) (x : json) : option json :=
  match x with
  | JDict d => Some (get_default k default d)
  | _ => None
  end.

(** [bool(x)] *)
Definition truthy (x : json) : bool :=
  match x with
  | JNone => false
  | JBool b => b
  | JInt z => negb (z =? 0)%Z
  | JFloat f => negb (PrimFloat.eqb f 0%float)
  | JStr s => negb (length s =? 0)
  | JList l => negb (length l =? 0)
  | JDict d => negb (length d =? 0)
  | JOther _ => true
  end.

(** [timestamp.split('T')[0]] *)
Fixpoint before_T (s : str) : str :=
  match s with
  | [] => []
  | c :: s' => if Ascii.eqb c "T" then [] else c :: before_T s'
  end.

(** The [scan_date] of the wire report.  A timestamp that is true and is
    neither a string, a list nor a dict makes ['T' in timestamp] raise. *)
Definition scan_date_of (timestamp : json) : option json :=
  if negb (truthy timestamp) then Some timestamp
  else
    match timestamp with
    | JStr s =>
        if contains (L "T") s then
          match iso_date s with
          | Some date => Some (JStr date)
          | None => Some (JStr (before_T s))
          end
        else Some timestamp
    | JList l =>
        if existsb (fun x => match x with
                             | JStr t => str_eqb t (L "T")
                             | _ => false
                             end) l
        then None else Some timestamp
    | JDict d => if mem (L "T") d then None else Some timestamp
    | _ => None
    end.

(** [[f"directory_{i+1}" for i in range(dirs_count)]] *)
Definition generic_directories (dirs_count : json) : option json :=
  let names (n : Z) :=
    JList (map (fun i => JStr (L "directory_" ++ int_repr (Z.of_nat (S i))))
               (seq 0 (Z.to_nat n))) in
  match dirs_count with
  | JInt n => Some (names n)
  | JBool b => Some (names (if b then 1 else 0)%Z)
  | _ => None
  end.

Definition _transform_report_for_server (report : dict) : option dict :=
  let metadata := get_default (L "metadata") (JDict []) report in
  let scan_params := get_default (L "scan_parameters") (JDict []) report in
  let scan_results := get_default (L "scan_results") (JDict []) report in
  summary <- dict_get (L "summary") (JDict []) scan_results ;;
  timestamp <- dict_get (L "timestamp") (JStr []) metadata ;;
  scan_date <- scan_date_of timestamp ;;
  dirs_count <- dict_get (L "directories_scanned") (JInt 0) scan_params ;;
  generic <- generic_directories dirs_count ;;
  let directories_scanned :=
    get_default (L "actual_directories") generic report in
  agent_id <- dict_get (L "agent_id") (JStr []) metadata ;;
  operator <- dict_get (L "operator") (JStr []) metadata ;;
  total_files_scanned <- dict_get (L "total_files_scanned") (JInt 0) summary ;;
  findings <- dict_get (L "findings") (JList []) scan_results ;;
  exclude_patterns_count <-
    dict_get (L "exclude_patterns_count") (JInt 0) scan_params ;;
  detect_plain_pan_enabled <-
    dict_get (L "detect_plain_pan_enabled") (JBool false) scan_params ;;
  action_policy <-
    dict_get (L "action_policy") (JStr (L "report_only")) scan_params ;;
  max_file_size_mb <- dict_get (L "max_file_size_mb") (JInt 10) scan_params ;;
  concurrency <- dict_get (L "concurrency") (JInt 4) scan_params ;;
  privacy_settings <-
    dict_get (L "privacy_settings") (JDict []) scan_params ;;
  total_files_skipped <- dict_get (L "total_files_skipped") (JInt 0) summary ;;
  total_directories_scanned <-
    dict_get (L "total_directories_scanned") (JInt 0) summary ;;
  total_matches_found <- dict_get (L "total_matches_found") (JInt 0) summary ;;
  errors_encountered <- dict_get (L "errors_encountered") (JInt 0) summary ;;
  scan_duration_seconds <-
    dict_get (L "scan_duration_seconds") (JInt 0) summary ;;
  findings_by_type <- dict_get (L "findings_by_type") (JDict []) scan_results ;;
  risk_assessment <- dict_get (L "risk_assessment") (JDict []) scan_results ;;
  scan_id <- dict_get (L "scan_id") (JStr []) metadata ;;
  report_version <- dict_get (L "report_version") (JStr []) metadata ;;
  report_hash <- dict_get (L "report_hash") (JStr []) metadata ;;
  Some
    [ (L "agent_id", agent_id);
      (L "operator", operator);
      (L "scan_date", scan_date);
      (L "directories_scanned", directories_scanned);
      (L "total_files_scanned", total_files_scanned);
      (L "findings", findings);
      (L "scan_configuration",
       JDict [ (L "exclude_patterns_count", exclude_patterns_count);
               (L "detect_plain_pan_enabled", detect_plain_pan_enabled);
               (L "action_policy", action_policy);
               (L "max_file_size_mb", max_file_size_mb);
               (L "concurrency", concurrency);
               (L "privacy_settings", privacy_settings) ]);
      (L "scan_results_summary",
       JDict [ (L "total_files_skipped", total_files_skipped);
               (L "total_directories_scanned", total_directories_scanned);
               (L "total_matches_found", total_matches_found);
               (L "errors_encountered", errors_encountered);
               (L "scan_duration_seconds", scan_duration_seconds);
               (L "findings_by_type", findings_by_type);
               (L "risk_assessment", risk_assessment) ]);
      (L "metadata",
       JDict [ (L "scan_id", scan_id);
               (L "timestamp", timestamp);
               (L "report_version", report_version);
               (L "report_hash", report_hash) ]);
      (L "compliance_notes",
       get_default (L "compliance_notes") (JDict []) report) ].

(** The call of the session that [method] selects: [session.post] with
    the body, [session.get] without it; [None] is the [ValueError] for any
    other method. *)
Definition request_of (method url : str) (data : option json)
  : option request :=
  if upper_is (L "POST") method then Some (L "POST", url, data)
  else if upper_is (L "GET") method then Some (L "GET", url, None)
  else None.

(** [response.json() if response.content else {}]: [None] when [json()]
    raises. *)
Definition body_of (body : content) : option json :=
  match body with
  | Empty => Some (JDict [])
  | Json value => Some value
  | Invalid => None
  end.

(** The loop [for attempt in range(self.max_retries + 1)] of
    [_make_request], from attempt [attempt] with [fuel] attempts left: the
    value returned ([None] is Python's [None], also when the server sends
    the JSON text [null]) and the requests sent.  Every exception is caught
    in the loop, the [ValueError] for the method included.  Waiting
    ([time.sleep], the rate limit) changes neither result. *)
Fixpoint attempts (fuel attempt : nat) (method url : str)
         (data : option json) : option json * list request :=
  match fuel with
  | 0 => (None, [])
  | S fuel' =>
      let again (sent : list request) :=
        let '(r, more) := attempts fuel' (S attempt) method url data in
        (r, sent ++ more) in
      let after_exception (sent : list request) :=
        if attempt =? max_retries then (None, sent) else again sent in
      match request_of method url data with
      | None => after_exception []
      | Some req =>
          match session attempt req with
          | Status code body =>
              if (code =? 200) || (code =? 201) then
                match body_of body with
                | Some JNone => (None, [req])
                | Some value => (Some value, [req])
                | None => after_exception [req]
                end
              else if (code =? 401) || (code =? 403) then (None, [req])
              else if code =? 429 then again [req]
              else if attempt <? max_retries then again [req]
              else (None, [req])
          | Raises => after_exception [req]
          end
      end
  end.

Definition _make_request (method endpoint : str) (data : option json)
  : option json * list request :=
  match server_url with
  | None => (None, [])
  | Some [] => (None, [])
  | Some base =>
      let url := rstrip "/" base ++ L "/" ++ lstrip "/" endpoint in
      attempts (S max_retries) 0 method url data
  end.

(** [report['metadata']['scan_id']], read for the first log line. *)
Definition scan_id_of (report : dict) : option json :=
  match get (L "metadata") report with
  | Some (JDict metadata) => get (L "scan_id") metadata
  | _ => None
  end.

(** [send_report]: the value returned and the requests sent.  Every
    exception ends in [except Exception: return False]. *)
Definition send_report (report : dict) : bool * list request :=
  match scan_id_of report with
  | None => (false, [])
  | Some _ =>
      match _validate_report report with
      | None => (false, [])
      | Some false => (false, [])
      | Some true =>
        match _transform_report_for_server report with
        | None => (false, [])
        | Some server_report =>
            let '(response, sent) :=
              _make_request (L "POST") (L "/api/reports")
                            (Some (JDict server_report)) in
            match response with
            | Some (JDict _) => (true, sent)
            | Some _ => (false, sent)
            | None => (false, sent)
            end
        end
      end
  end.

(** The records [send_report] and the functions it calls write at the
    levels ERROR and WARNING until the validation of the report has ended;
    a call that ends there writes no other.  The records of the
    transmission that follows a valid report are not modelled. *)
Definition send_report_log (report : dict) : list record :=
  match scan_id_of report with
  | None => [Caught ERROR (L "Error sending report: ")]
  | Some _ =>
      _validate_report_log report ++
      match _validate_report report with
      | None => [Caught ERROR (L "Error sending report: ")]
      | Some false => [Logged ERROR (L "Report validation failed")]
      | Some true => []
      end
  end.

End WithSession.

End SecureClient.

(** ** file_scanner.py *)

Module FileScanner.

(** What the walker finds at a path: a regular file, a directory (whose
    listing may be refused), an entry whose [is_file()] or [is_dir()] raises,
    or anything else (also a path that does not exist). *)
Inductive node : Type :=
| File (path : str)
| Dir (path : str) (readable : bool) (items : list node)
| Broken (path : str)
| Other (path : str).

(** [max_files_per_scan] and [max_recursion_depth]: [0] in the
    configuration stands for [float('inf')]. *)
Inductive limit : Type :=
| Finite (n : nat)
| Unlimited.

Definition limit_of (n : nat) : limit :=
  if n =? 0 then Unlimited else Finite n.

(** [n >= l] *)
Definition reaches (n : nat) (l : limit) : bool :=
  match l with
  | Finite m => m <=? n
  | Unlimited => false
  end.

(** [l != float('inf') and n > l] *)
Definition exceeds (n : nat) (l : limit) : bool :=
  match l with
  | Finite m => m <? n
  | Unlimited => false
  end.

Definition replace_char (a b : ascii) (s : str) : str :=
  map (fun c => if Ascii.eqb c a then b else c) s.

Fixpoint lstrip_set (cs : str) (s : str) : str :=
  match s with
  | x :: s' => if existsb (Ascii.eqb x) cs then lstrip_set cs s' else s
  | [] => []
  end.

(** [s.rstrip(cs)] *)
Definition rstrip_set (cs : str) (s : str) : str :=
  rev (lstrip_set cs (rev s)).

Fixpoint drop_until_slash (s : str) : str :=
  match s with
  | x :: s' => if Ascii.eqb x "/" then s else drop_until_slash s'
  | [] => []
  end.

(** [os.path.dirname] of [posixpath]. *)
Definition dirname (p : str) : str :=
  let head := rev (drop_until_slash (rev p)) in
  if forallb (Ascii.eqb "/") head then head else rstrip_set (L "/") head.

Definition phase_event (phase message : str) (files_scanned total_files
                        matches_found : nat) : dict :=
  [ (L "phase", JStr phase);
    (L "message", JStr message);
    (L "files_scanned", JInt (Z.of_nat files_scanned));
    (L "total_files", JInt (Z.of_nat total_files));
    (L "matches_found", JInt (Z.of_nat matches_found)) ].

(** How the body of the inner counting loop ends. *)
Inductive pass1_result : Type :=
| Stopped (events : list dict)
| Counted (all_files : list str) (events : list dict) (reads : nat).

Record Pass2 : Type := mkPass2 {
  futures : list str;
  file_index : nat;
  files_completed : nat;
  all_matches : list PANMatch;
  events : list dict;
  reads : nat
}.

Section WithScanner.
Context {E : Extern}.

Variable config : Config.
Variable max_files : limit.
Variable max_depth : limit.
Variable concurrency : positive.
Variable exclude_patterns : list str.

(** [stats['files_scanned']] when the scan starts. *)
Variable files_scanned0 : nat.

(** The value of [self.stop_requested] at its successive reads after the
    reset that opens [scan_directories]; another thread sets it through
    [request_stop]. *)
Variable stop_requested : nat -> bool.

(** The text [read_file_content] returns for a file that [should_scan_file]
    accepts; [None] for a file that is skipped. *)
Variable content_of : str -> option str.

(** The future [as_completed] yields first among those in flight, at a given
    iteration. *)
Variable first_completed : nat -> list str -> nat.

Definition is_excluded (path : str) : bool :=
  let path_str := replace_char "\" "/" path in
  existsb
    (fun pattern =>
       let pattern := replace_char "\" "/" pattern in
       fnmatch path_str pattern ||
       fnmatch (dirname path_str) (rstrip_set (L "/*") pattern))
    exclude_patterns.

(** The paths [walk_directory] yields, in order.  During the counting pass
    [stats['files_scanned']] does not change, so the test of the global
    limit has the same outcome at every item. *)
Fixpoint walk_directory (directory : node) (current_depth : nat)
  : list str :=
  match directory with
  | Dir path readable items =>
      if exceeds current_depth max_depth then []
      else if is_excluded path then []
      else if negb readable then []
      else if reaches files_scanned0 max_files then []
      else
        flat_map
          (fun item =>
             match item with
             | File p => if is_excluded p then [] else [p]
             | Dir _ _ _ => walk_directory item (S current_depth)
             | Broken _ => []
             | Other _ => []
             end)
          items
  | _ => []
  end.

Definition scan_file (file_path : str) : list PANMatch :=
  match content_of file_path with
  | Some content => scan_text config content file_path
  | None => []
  end.

(** The loop [for file_path in self.walk_directory(directory)] of the
    counting pass: [inl] when it ends by [return []], [inr] when it ends by
    [break] or by exhaustion. *)
Fixpoint count_files (yielded : list str) (all_files : list str)
         (events : list dict) (reads : nat)
  : list dict + (list str * list dict * nat) :=
  match yielded with
  | [] => inr (all_files, events, reads)
  | file_path :: rest =>
      let all_files := all_files ++ [file_path] in
      let events :=
        if length all_files mod 1000 =? 0 then
          events ++
          [phase_event (L "counting")
                       (L "Found " ++ int_repr (Z.of_nat (length all_files))
                          ++ L " files...")
                       0 (length all_files) 0]
        else events in
      if stop_requested reads then inl events
      else if reaches (length all_files) max_files
      then inr (all_files, events, S reads)
      else count_files rest all_files events (S reads)
  end.

(** The loop [for directory in directories]. *)
Fixpoint count_directories (directories : list node) (all_files : list str)
         (events : list dict) (reads : nat) : pass1_result :=
  match directories with
  | [] => Counted all_files events reads
  | directory :: rest =>
      match count_files (walk_directory directory 0) all_files events reads
      with
      | inl events => Stopped events
      | inr (all_files, events, reads) =>
          count_directories rest all_files events reads
      end
  end.

Definition counting_pass (directories : list node) : pass1_result :=
  count_directories directories []
    [phase_event (L "counting") (L "Counting files...") 0 0 0] 0.

Definition remove_at {A : Type} (i : nat) (l : list A) : list A :=
  firstn i l ++ skipn (S i) l.

Definition percentage (files_completed total_files : nat) : float :=
  round_ndigits
    (float_of_nat files_completed / float_of_nat total_files * 100)%float 1.

Definition scanning_event (files_completed total_files matches_found : nat)
           (current_file : str) (in_queue : nat) : dict :=
  [ (L "phase", JStr (L "scanning"));
    (L "files_scanned", JInt (Z.of_nat files_completed));
    (L "total_files", JInt (Z.of_nat total_files));
    (L "matches_found", JInt (Z.of_nat matches_found));
    (L "current_file", JStr current_file);
    (L "in_queue", JInt (Z.of_nat in_queue));
    (L "percentage", JFloat (percentage files_completed total_files)) ].

Definition complete_event (files_completed total_files matches_found : nat)
  : dict :=
  [ (L "phase", JStr (L "complete"));
    (L "files_scanned", JInt (Z.of_nat files_completed));
    (L "total_files", JInt (Z.of_nat total_files));
    (L "matches_found", JInt (Z.of_nat matches_found));
    (L "current_file", JStr (L "Scan complete"));
    (L "in_queue", JInt 0);
    (L "percentage", JInt 100);
    (L "completed", JBool true) ].

(** The loop [while futures] of the scanning pass.  Every iteration takes one
    future out of flight, so [length all_files] iterations are enough. *)
Fixpoint scanning_loop (fuel : nat) (all_files : list str) (st : Pass2)
  : Pass2 :=
  match fuel with
  | 0 => st
  | S fuel' =>
      match futures st with
      | [] => st
      | _ :: _ =>
          if stop_requested (reads st)
          then mkPass2 (futures st) (file_index st) (files_completed st)
                       (all_matches st) (events st) (S (reads st))
          else
            let total_files := length all_files in
            let i := first_completed (files_completed st) (futures st)
                     mod length (futures st) in
            let file_path := nth i (futures st) [] in
            let futures := remove_at i (futures st) in
            let all_matches := all_matches st ++ scan_file file_path in
            let files_completed := S (files_completed st) in
            let events :=
              events st ++
              [scanning_event files_completed total_files
                              (length all_matches) file_path
                              (length futures)] in
            let reads := S (reads st) in
            if file_index st <? total_files then
              if negb (stop_requested reads) then
                scanning_loop fuel' all_files
                  (mkPass2 (futures ++ [nth (file_index st) all_files []])
                           (S (file_index st)) files_completed all_matches
                           events (S reads))
              else
                scanning_loop fuel' all_files
                  (mkPass2 futures (file_index st) files_completed
                           all_matches events (S reads))
            else
              scanning_loop fuel' all_files
                (mkPass2 futures (file_index st) files_completed all_matches
                         events reads)
      end
  end.

(** [scan_directories] with a progress callback: the matches returned and
    the events the callback received, in order. *)
Definition scan_directories (directories : list node)
  : list PANMatch * list dict :=
  match counting_pass directories with
  | Stopped events => ([], events)
  | Counted all_files events reads =>
      let total_files := length all_files in
      if total_files =? 0 then ([], events)
      else
        let events :=
          events ++
          [phase_event (L "scanning") (L "Scanning files...") 0 total_files 0]
        in
        let initial_batch_size :=
          Nat.min (Pos.to_nat concurrency * 2) total_files in
        let st :=
          scanning_loop total_files all_files
            (mkPass2 (firstn initial_batch_size all_files)
                     initial_batch_size 0 [] events reads) in
        (all_matches st,
         FileScanner.events st ++
         [complete_event (files_completed st) total_files
                         (length (all_matches st))])
  end.

End WithScanner.

End FileScanner.

(** ** main.py *)

Module Main.

(** The progress callback of the command line: it formats
    [progress['files_completed']], [progress['total_files']] and
    [progress['matches_found']].  [None] is the [KeyError] of a missing
    key; the line printed is not kept. *)
Definition cli_progress_callback (progress : dict) : option unit :=
  _ <- get (L "files_completed") progress ;;
  _ <- get (L "total_files") progress ;;
  _ <- get (L "matches_found") progress ;;
  Some tt.

(** [len(x)]: [None] is the [TypeError] of a value without length. *)
Definition len (x : json) : option json :=
  match x with
  | JStr s => Some (JInt (Z.of_nat (length s)))
  | JList l => Some (JInt (Z.of_nat (length l)))
  | JDict d => Some (JInt (Z.of_nat (length d)))
  | _ => None
  end.

Section WithAgent.
Context {E : Extern}.

(** The configuration as loaded from the YAML file, the settings the
    detector and the report generator took from it, and the agent
    identifier. *)
Variable config : dict.
Variable settings : Config.
Variable agent_id : str.

(** [self.config.get(section, {}).get(key, default)] *)
Definition setting (section key : str) (default : json) : option json :=
  SecureClient.dict_get key default (get_default section (JDict []) config).

Definition _get_config_summary : option dict :=
  scan_directories <- setting (L "agent") (L "scan_directories") (JList []) ;;
  scan_directories <- len scan_directories ;;
  exclude_patterns <- setting (L "agent") (L "exclude_patterns") (JList []) ;;
  exclude_patterns <- len exclude_patterns ;;
  detect_plain_pan <-
    setting (L "agent") (L "detect_plain_pan") (JBool false) ;;
  action_policy <-
    setting (L "agent") (L "action_policy") (JStr (L "report_only")) ;;
  max_file_size_mb <- setting (L "agent") (L "max_file_size_mb") (JInt 10) ;;
  concurrency <- setting (L "agent") (L "concurrency") (JInt 4) ;;
  privacy_redact_pan <- setting (L "privacy") (L "redact_pan") (JBool true) ;;
  privacy_show_last4_only <-
    setting (L "privacy") (L "show_last4_only") (JBool true) ;;
  Some [ (L "scan_directories", scan_directories);
         (L "exclude_patterns", exclude_patterns);
         (L "detect_plain_pan", detect_plain_pan);
         (L "action_policy", action_policy);
         (L "max_file_size_mb", max_file_size_mb);
         (L "concurrency", concurrency);
         (L "privacy_redact_pan", privacy_redact_pan);
         (L "privacy_show_last4_only", privacy_show_last4_only) ].

(** [generate_report] in a scan session: [current_scan_id] and
    [current_operator] are those of the session, [current_directories] the
    directories [start_scan_session] validated ([None] before any session),
    [scan_stats] is [scanner.get_stats()] and [timestamp] the time of the
    call.  [None] is an exception. *)
Definition generate_report (current_scan_id : option str)
           (current_operator : str)
           (current_directories : option (list str))
           (timestamp : str) (scan_stats : dict) (matches : list PANMatch)
  : option dict :=
  match current_scan_id with
  | None | Some [] => None
  | Some scan_id =>
      config_summary <- _get_config_summary ;;
      report <- ReportGenerator.create_report
                  settings timestamp agent_id scan_id current_operator
                  matches scan_stats config_summary ;;
      directories <-
        match current_directories with
        | Some (directory :: rest) =>
            Some (JList (map JStr (directory :: rest)))
        | _ => setting (L "agent") (L "scan_directories") (JList [])
        end ;;
      Some (set (L "actual_directories") directories report)
  end.

End WithAgent.

End Main.

(** * Specification

    The notions the specification uses, stated independently of the code. *)

Module Spec.

(** The digit-only form of a text. *)
Definition strip_nondigit (x : str) : str := filter isdecimal x.

(** The text holds none of the superscript digits, the characters that
    [str.isdigit] accepts and [int] refuses. *)
Definition no_superscript (x : str) : bool :=
  forallb (fun c => negb (isdigit c) || isdecimal c) x.

(** The answer of [luhn_check] on the decimal digits of a text. *)
Definition luhn_valid_digits (x : str) : bool :=
  let digits := map int_of_digit (strip_nondigit x) in
  if (length digits <? 13) || (19 <? length digits) then false
  else (luhn_loop (length digits mod 2) 0 digits 0 mod 10 =? 0)%Z.

(** The Luhn transform of the digit at zero-based index [i] of a number of
    [n] digits: doubled when [i] has the parity of [n], and reduced by 9 when
    the double exceeds 9. *)
Definition luhn_transform (n i : nat) (digit : Z) : Z :=
  if Bool.eqb (Nat.even i) (Nat.even n) then
    (if (9 <? 2 * digit)%Z then 2 * digit - 9 else 2 * digit)%Z
  else digit.

Fixpoint sum_from (n i : nat) (digits : list Z) : Z :=
  match digits with
  | [] => 0%Z
  | digit :: rest => (luhn_transform n i digit + sum_from n (S i) rest)%Z
  end.

(** The sum of the transformed digits. *)
Definition luhn_sum (digits : list Z) : Z := sum_from (length digits) 0 digits.

(** The digits of [run] pass the Luhn check. *)
Definition passes_luhn (run : str) : Prop :=
  (luhn_sum (map int_of_digit run) mod 10 = 0)%Z.

(** A character that is not part of a word, or no character at all. *)
Definition not_word (o : option ascii) : Prop := Re.is_word_opt o = false.

(** The last character of [pre], and [prev] when [pre] is empty. *)
Fixpoint last_char (prev : option ascii) (pre : str) : option ascii :=
  match pre with
  | [] => prev
  | c :: pre' => last_char (Some c) pre'
  end.

(** [s] contains [run] as a bare digit run of 13 to 19 digits: [run] sits in
    [s] between [pre] and [post], touching no word character on either
    side. *)
Definition bare_digit_run (s pre run post : str) : Prop :=
  s = pre ++ run ++ post /\
  forallb isdecimal run = true /\
  13 <= length run <= 19 /\
  not_word (last_char None pre) /\
  not_word (hd_error post).

(** A Visa number as the VISA pattern describes it: a 4 followed by 12 or 15
    more digits. *)
Definition visa_number (run : str) : Prop :=
  exists rest : str,
    run = "4"%char :: rest /\
    forallb isdecimal rest = true /\
    (length rest = 12 \/ length rest = 15).

(** The report has the four sections and the four metadata fields that
    [_validate_report] requires, in a [metadata] that is a dict. *)
Definition has_required_fields (report : dict) : bool :=
  forallb (fun field => mem field report) SecureClient.required_fields
  && match get (L "metadata") report with
     | Some (JDict metadata) =>
         forallb (fun field => mem field metadata)
                 SecureClient.required_metadata
     | _ => false
     end.

(** The hash stored in a report. *)
Definition stored_hash (report : dict) : option json :=
  match get (L "metadata") report with
  | Some (JDict metadata) => get (L "report_hash") metadata
  | _ => None
  end.

(** What [ReportGenerator._sanitize_file_path] computes. *)
Definition sanitized_path (file_path : str) : str :=
  Re.sub_literal UserPaths.drive_home (L "C:\Users\<user>\")
    (Re.sub_literal UserPaths.windows_home (L "\Users\<user>\")
       (Re.sub_literal UserPaths.unix_home (L "/Users/<user>/") file_path)).

(** The line of the text a match was found on. *)
Definition line_of (text : str) (m : PANMatch) : str :=
  nth (line_number m - 1) (split_lines text) [].

Section Findings.
Context {E : Extern}.
Variable config : Config.

(** What the specification says of the [pan_data] of the finding made from
    a match. *)
Definition pan_data_as_specified (m : PANMatch) (finding : dict) : Prop :=
  exists pan_data : dict,
    get (L "pan_data") finding = Some (JDict pan_data)
    /\ get (L "masked_number") pan_data = Some (JStr (masked_match m))
    /\ (get (L "hash") pan_data
        = Some (JStr (sha256_hexdigest (raw_match m)))
        <-> raw_match m <> [])
    /\ (raw_match m = [] -> get (L "hash") pan_data = Some JNone)
    /\ (mem (L "full_number") pan_data = true
        <-> allow_full_pan_retention config = true
            /\ redact_pan config = false).

End Findings.

Section Stop.
Import FileScanner.
Context {E : Extern}.
Variables max_files max_depth : limit.
Variable exclude_patterns : list str.
Variable files_scanned0 : nat.
Variable stop_requested : nat -> bool.

(** The stop flag is seen before the scanning pass does any work: the
    counting pass returned on it, or it is set when the scanning pass reads
    it for the first time. *)
Definition stop_seen_before_scanning (directories : list node) : Prop :=
  match counting_pass max_files max_depth exclude_patterns files_scanned0
                      stop_requested directories with
  | Stopped _ => True
  | Counted _ _ reads => stop_requested reads = true
  end.

End Stop.

(** The longest prefix of [s] made of characters of the class [p], what
    follows it, and the character before what follows it. *)
Fixpoint take_while (p : ascii -> bool) (s : str) : str :=
  match s with
  | c :: s' => if p c then c :: take_while p s' else []
  | [] => []
  end.

Fixpoint drop_while (p : ascii -> bool) (s : str) : str :=
  match s with
  | c :: s' => if p c then drop_while p s' else s
  | [] => []
  end.

Fixpoint prev_after (p : ascii -> bool) (prev : option ascii) (s : str)
  : option ascii :=
  match s with
  | c :: s' => if p c then prev_after p (Some c) s' else prev
  | [] => prev
  end.

(** The patterns of the path sanitisers have one shape: a literal text, a
    name without the separator [x], and the separator. *)
Definition lit_home (lit : str) (x : ascii) : Re.regex :=
  Re.Cat [Re.Cat (map Re.Ch lit); Re.AtLeast (UserPaths.not_char x) 1;
          Re.Ch x].

(** [s] without its prefix [lit]. *)
Fixpoint strip (lit s : str) : option str :=
  match lit, s with
  | [], _ => Some s
  | a :: lit', b :: s' => if Ascii.eqb a b then strip lit' s' else None
  | _ :: _, [] => None
  end.

(** What follows a non-empty name and the separator that ends it. *)
Definition name_match (x : ascii) (s : str) : option str :=
  match take_while (UserPaths.not_char x) s,
        drop_while (UserPaths.not_char x) s with
  | _ :: _, _ :: rest => Some rest
  | _, _ => None
  end.

(** What follows a match of [lit_home lit x] at the start of [s]. *)
Definition lit_match (lit : str) (x : ascii) (s : str) : option str :=
  match strip lit s with
  | Some s' => name_match x s'
  | None => None
  end.

(** [x Users x], and the replacement [x Users x <user> x]. *)
Definition users_dir (x : ascii) : str := x :: L "Users" ++ [x].
Definition user_repl (x : ascii) : str := users_dir x ++ L "<user>" ++ [x].

(** [n] repetitions do not exceed the upper bound [hi]. *)
Definition allows (hi : option nat) (n : nat) : bool :=
  match hi with
  | Some h => n <=? h
  | None => true
  end.

(** A pattern without [\b]: whether it matches at a position depends on
    the text from that position on only. *)
Fixpoint boundary_free (r : Re.regex) : bool :=
  match r with
  | Re.Seq r1 r2 | Re.Alt r1 r2 => boundary_free r1 && boundary_free r2
  | Re.WordB => false
  | _ => true
  end.

(** Every character class of [r] lies within the class [q]. *)
Fixpoint within (q : ascii -> bool) (r : Re.regex) : Prop :=
  match r with
  | Re.Cls p | Re.Rep p _ _ => forall c : ascii, p c = true -> q c = true
  | Re.Seq r1 r2 | Re.Alt r1 r2 => within q r1 /\ within q r2
  | _ => True
  end.

(** The number of elements of [l] that satisfy [f]. *)
Definition count {A : Type} (f : A -> bool) (l : list A) : Z :=
  Z.of_nat (length (filter f l)).

(** The three confidence bands of the report. *)
Definition high_confidence (m : PANMatch) : bool :=
  PrimFloat.ltb 0.8 (confidence_score m).

Definition medium_confidence (m : PANMatch) : bool :=
  negb (high_confidence m) && PrimFloat.ltb 0.5 (confidence_score m).

Definition low_confidence (m : PANMatch) : bool :=
  negb (high_confidence m || medium_confidence m).

(** The match is of card type [t]. *)
Definition of_type (t : CardType) (m : PANMatch) : bool :=
  str_eqb (value (card_type m)) (value t).

(** The value the client returns on an answer: the body of an answer 200
    or 201, [{}] for an empty one; none when the body is the JSON [null] or
    is not JSON. *)
Definition accepted (r : SecureClient.response) : option json :=
  match r with
  | SecureClient.Status code body =>
      if (code =? 200) || (code =? 201) then
        match SecureClient.body_of body with
        | Some JNone => None
        | other => other
        end
      else None
  | SecureClient.Raises => None
  end.

(** The answer ends the attempts without a value: 401 or 403, or 200 or
    201 with the JSON [null] as body. *)
Definition denied (r : SecureClient.response) : bool :=
  match r with
  | SecureClient.Status code body =>
      (code =? 401) || (code =? 403)
      || (((code =? 200) || (code =? 201))
          && match body with
             | SecureClient.Json JNone => true
             | _ => false
             end)
  | SecureClient.Raises => false
  end.

(** The URL of a request: the base without its final slashes, a slash, the
    end point without its first slashes. *)
Definition url_of (base endpoint : str) : str :=
  SecureClient.rstrip "/" base ++ L "/" ++ SecureClient.lstrip "/" endpoint.

(** The regular files of a tree, at any depth. *)
Fixpoint files_of (n : FileScanner.node) : list str :=
  match n with
  | FileScanner.File p => [p]
  | FileScanner.Dir _ _ items => flat_map files_of items
  | _ => []
  end.

(** The regular files of a tree that lie in the root or in a directory at
    most [k] levels below it. *)
Fixpoint files_within (k : nat) (n : FileScanner.node) {struct n}
  : list str :=
  match n with
  | FileScanner.Dir _ _ items =>
      flat_map
        (fun item =>
           match item with
           | FileScanner.File p => [p]
           | FileScanner.Dir _ _ _ =>
               match k with
               | 0 => []
               | S k' => files_within k' item
               end
           | _ => []
           end)
        items
  | _ => []
  end.

(** What every progress event of [scan_directories] holds: a phase, the
    three counters, and no [files_completed]. *)
Definition progress_event (event : dict) : Prop :=
  (exists phase : str,
      get (L "phase") event = Some (JStr phase)
      /\ In phase [L "counting"; L "scanning"; L "complete"])
  /\ (exists files_scanned total_files matches_found : nat,
         get (L "files_scanned") event
         = Some (JInt (Z.of_nat files_scanned))
         /\ get (L "total_files") event = Some (JInt (Z.of_nat total_files))
         /\ get (L "matches_found") event
            = Some (JInt (Z.of_nat matches_found)))
  /\ get (L "files_completed") event = None.


End Spec.
Import Spec.

(** An interpretation of the library functions, to run the model on
    examples.  The digest is a stand-in: no property below depends on the
    interpretation. *)
Definition sample_extern : Extern :=
  {| sha256_hexdigest := fun s => L "sha256:" ++ s;
     float_repr := fun _ => L "0.0";
     round_ndigits := fun x _ => x;
     iso_date := fun s => Some (firstn 10 s);
     fnmatch := fun name pattern => str_eqb name pattern |}.

(** Inputs of the examples. *)

(** A line with a masked number and a Visa test number, scanned with the
    default configuration but with [exclude_masked] false. *)
Definition text_with_mask : str := L "card **** 4532015112830366".

Definition config_keep_masked : Config :=
  {| require_luhn := true;
     min_confidence := 0.7%float;
     context_window := 100;
     exclude_masked := false;
     show_last4_only := true;
     allow_full_pan_retention := false;
     redact_pan := true |}.

(** The same Visa test number twice on a line. *)
Definition text_twice : str := L "4532015112830366 4532015112830366".

(** One root with one file. *)
Definition one_root : list FileScanner.node :=
  [FileScanner.Dir (L "/data") true [FileScanner.File (L "/data/a.txt")]].

(** Two roots with one file each. *)
Definition two_roots : list FileScanner.node :=
  [FileScanner.Dir (L "/a") true [FileScanner.File (L "/a/one.txt")];
   FileScanner.Dir (L "/b") true [FileScanner.File (L "/b/two.txt")]].

(** The flag is set from the first read of the scanning pass on, after the
    one read of the counting pass over [one_root]. *)
Definition stop_after_counting (read : nat) : bool := 1 <=? read.

(** A report that passes the structural validation, with one finding whose
    context holds [number]. *)
Definition report_with_context (number : str) : dict :=
  [ (L "metadata",
     JDict [ (L "report_version", JStr (L "1.0"));
             (L "agent_id", JStr (L "pci-agent-0123456789abcdef"));
             (L "scan_id", JStr (L "scan-1"));
             (L "timestamp", JStr (L "today"));
             (L "operator", JStr (L "auditor"));
             (L "report_hash", JStr []) ]);
    (L "scan_parameters", JDict []);
    (L "scan_results",
     JDict [ (L "findings",
              JList [JDict [(L "context",
                             JDict [(L "before",
                                     JStr (L "ref " ++ number ++ L " ok"));
                                    (L "after", JStr [])])]]) ]);
    (L "compliance_notes", JDict []) ].

(** The same report without its last section, [compliance_notes]. *)
Definition report_without_notes (number : str) : dict :=
  removelast (report_with_context number).

(** A server that accepts every request. *)
Definition accepting_server (attempt : nat) (req : SecureClient.request)
  : SecureClient.response :=
  SecureClient.Status 200 SecureClient.Empty.


(** The default configuration without the Luhn requirement. *)
Definition config_without_luhn : Config :=
  {| require_luhn := false;
     min_confidence := 0.7%float;
     context_window := 100;
     exclude_masked := true;
     show_last4_only := true;
     allow_full_pan_retention := false;
     redact_pan := true |}.

(** A text of two lines with a Visa test number on the second. *)
Definition text_two_lines : str :=
  L "order 17" ++ [newline] ++ L "Visa card 4532015112830366 exp 12/27".

(** A server that fails twice and then accepts. *)
Definition flaky_server (attempt : nat) (req : SecureClient.request)
  : SecureClient.response :=
  if attempt <? 2 then SecureClient.Status 500 SecureClient.Empty
  else SecureClient.Status 200 SecureClient.Empty.

(** A root with one file, and a directory that holds a file and a
    directory with a file of its own. *)
Definition nested_root : FileScanner.node :=
  FileScanner.Dir (L "/data") true
    [ FileScanner.File (L "/data/top.txt");
      FileScanner.Dir (L "/data/a") true
        [ FileScanner.File (L "/data/a/mid.txt");
          FileScanner.Dir (L "/data/a/b") true
            [ FileScanner.File (L "/data/a/b/deep.txt") ] ] ].

(** Every file holds the two lines of [text_two_lines]. *)
Definition same_content (file_path : str) : option str := Some text_two_lines.

(** A configuration file with one scan directory. *)
Definition sample_config : dict :=
  [ (L "agent",
     JDict [ (L "scan_directories", JList [JStr (L "/data")]);
             (L "exclude_patterns", JList [JStr (L "*.log")]) ]);
    (L "reporting", JDict [(L "server_url", JStr (L "https://pci.example"))]);
    (L "privacy", JDict []);
    (L "detection", JDict []) ].

(** * Properties *)

(** ** Characters and strings *)

Lemma eqb_refl_ascii (c : ascii) : Ascii.eqb c c = true.
Proof. apply Ascii.eqb_refl. Qed.

Lemma str_eqb_refl (s : str) : str_eqb s s = true.
Proof.
  induction s as [|c s IH]; simpl; [reflexivity|].
  now rewrite eqb_refl_ascii, IH.
Qed.

Lemma str_eqb_eq (a b : str) : str_eqb a b = true <-> a = b.
Proof.
  split.
  - revert b; induction a as [|x a IH]; intros [|y b] H; simpl in H;
      try discriminate; [reflexivity|].
    apply andb_true_iff in H as [Hxy Hab].
    apply Ascii.eqb_eq in Hxy. subst. f_equal. now apply IH.
  - intros ->. apply str_eqb_refl.
Qed.

Lemma isdecimal_isword (c : ascii) : isdecimal c = true -> isword c = true.
Proof. intros H. unfold isword. now rewrite H. Qed.

Lemma star_not_digit (c : ascii) :
  isdecimal c = true -> Ascii.eqb c "*" = false.
Proof.
  intros H. destruct (Ascii.eqb c "*") eqn:Hc; [|reflexivity].
  apply Ascii.eqb_eq in Hc. subst. discriminate.
Qed.

Lemma length_stars (n : nat) : length (stars n) = n.
Proof. apply repeat_length. Qed.

(** ** The Luhn check *)

Lemma parity_test (i n : nat) :
  (i mod 2 =? n mod 2) = Bool.eqb (Nat.even i) (Nat.even n).
Proof.
  rewrite <- !Nat.bit0_mod, !Nat.bit0_odd, <- !Nat.negb_even.
  destruct (Nat.even i), (Nat.even n); reflexivity.
Qed.

Lemma luhn_loop_sum (n : nat) (digits : list Z) :
  forall (i : nat) (checksum : Z),
    luhn_loop (n mod 2) i digits checksum
    = (checksum + sum_from n i digits)%Z.
Proof.
  induction digits as [|digit rest IH]; intros i checksum;
    cbn [luhn_loop sum_from].
  - lia.
  - rewrite IH. unfold luhn_transform.
    rewrite parity_test.
    destruct (Bool.eqb (Nat.even i) (Nat.even n)); [|lia].
    rewrite Z.gtb_ltb.
    replace (digit * 2)%Z with (2 * digit)%Z by lia.
    destruct (9 <? 2 * digit)%Z; lia.
Qed.

Lemma filter_filter_same {A : Type} (p : A -> bool) (l : list A) :
  filter p (filter p l) = filter p l.
Proof.
  induction l as [|a l IH]; simpl; [reflexivity|].
  destruct (p a) eqn:Hp; simpl; [rewrite Hp, IH|]; auto.
Qed.

Lemma luhn_valid_digits_eq (x : str) :
  let digits := map int_of_digit (strip_nondigit x) in
  luhn_valid_digits x
  = ((13 <=? length digits) && (length digits <=? 19)
     && (luhn_sum digits mod 10 =? 0)%Z).
Proof.
  unfold luhn_valid_digits, strip_nondigit, luhn_sum. cbv zeta.
  set (digits := map int_of_digit (filter isdecimal x)).
  rewrite luhn_loop_sum, Z.add_0_l.
  destruct (Nat.ltb_spec (length digits) 13),
           (Nat.ltb_spec 19 (length digits)),
           (Nat.leb_spec 13 (length digits)),
           (Nat.leb_spec (length digits) 19);
    cbn [orb andb]; try lia; reflexivity.
Qed.

Lemma isdecimal_isdigit (c : ascii) : isdecimal c = true -> isdigit c = true.
Proof. intros H. unfold isdigit. now rewrite H. Qed.

(** [int] succeeds on every digit of a text without superscript digits,
    and fails on the first superscript digit of any other text. *)
Lemma digits_of_no_superscript (x : str) :
  no_superscript x = true ->
  digits_of x = Some (map int_of_digit (strip_nondigit x)).
Proof.
  unfold digits_of, strip_nondigit, no_superscript.
  induction x as [|c x IH]; intros Hx; [reflexivity|].
  cbn [forallb] in Hx. apply andb_true_iff in Hx as [Hc Hx].
  specialize (IH Hx). cbn [filter].
  destruct (isdigit c) eqn:Hdigit.
  - cbn [negb orb] in Hc. rewrite Hc. cbn [mapM map].
    rewrite IH. unfold int_of_char. rewrite Hc. reflexivity.
  - destruct (isdecimal c) eqn:Hdec; [|exact IH].
    now rewrite (isdecimal_isdigit _ Hdec) in Hdigit.
Qed.

Lemma digits_of_superscript (x : str) :
  no_superscript x = false -> digits_of x = None.
Proof.
  unfold digits_of, no_superscript.
  induction x as [|c x IH]; intros Hx; [discriminate|].
  cbn [forallb] in Hx. cbn [filter].
  destruct (isdigit c) eqn:Hdigit; cbn [negb orb] in Hx.
  - cbn [mapM]. unfold int_of_char at 1.
    destruct (isdecimal c); cbn [andb] in Hx; [|reflexivity].
    cbn [bind]. now rewrite (IH Hx).
  - cbn [andb] in Hx. exact (IH Hx).
Qed.

Lemma luhn_check_eq (x : str) :
  luhn_check x
  = if no_superscript x then Some (luhn_valid_digits x) else None.
Proof.
  unfold luhn_check. destruct (no_superscript x) eqn:Hx.
  - rewrite (digits_of_no_superscript _ Hx). cbn [bind].
    unfold luhn_valid_digits. cbv zeta.
    destruct (_ || _); reflexivity.
  - now rewrite (digits_of_superscript _ Hx).
Qed.

Lemma no_superscript_decimal (x : str) :
  forallb isdecimal x = true -> no_superscript x = true.
Proof.
  unfold no_superscript. rewrite !forallb_forall. intros H c Hc.
  rewrite (H c Hc). apply orb_true_r.
Qed.

Lemma no_superscript_strip (x : str) : no_superscript (strip_nondigit x) = true.
Proof.
  apply no_superscript_decimal. apply forallb_forall.
  intros c Hc. now apply filter_In in Hc.
Qed.

(** On what [re.sub(r'\D', '', ...)] leaves, [luhn_check] returns. *)
Lemma luhn_check_decimal (x : str) :
  forallb isdecimal x = true ->
  luhn_check x = Some (luhn_valid_digits x).
Proof.
  intros Hx. now rewrite luhn_check_eq, (no_superscript_decimal _ Hx).
Qed.

(** On a text without superscript digits [luhn_check] is the standard Luhn
    algorithm on the digit-only form of its input: with [n] digits,
    [13 <= n <= 19], it answers true exactly when the sum of the transformed
    digits (the digit at zero-based index [i] doubled when [i] has the
    parity of [n], minus 9 when the double exceeds 9) is a multiple of 10;
    it answers false for fewer than 13 or more than 19 digits; and it gives
    the same answer on the text and on its digit-only form. *)
Lemma luhn_check_standard (x : str) :
  no_superscript x = true ->
  let digits := map int_of_digit (strip_nondigit x) in
  let n := length digits in
  (13 <= n <= 19 ->
   (luhn_check x = Some true <-> (luhn_sum digits mod 10 = 0)%Z))
  /\ (n < 13 \/ 19 < n -> luhn_check x = Some false)
  /\ luhn_check x = luhn_check (strip_nondigit x).
Proof.
  intros Hx digits n. rewrite !luhn_check_eq, Hx, no_superscript_strip.
  split; [|split].
  - intros [Hlo Hhi]. rewrite luhn_valid_digits_eq. fold digits. fold n.
    apply Nat.leb_le in Hlo, Hhi. rewrite Hlo, Hhi. cbn [andb].
    rewrite <- Z.eqb_eq. split; [now intros [= ->]|now intros ->].
  - intros H. rewrite luhn_valid_digits_eq. fold digits. fold n.
    destruct H as [H|H].
    + destruct (Nat.leb_spec 13 n); [lia|reflexivity].
    + destruct (Nat.leb_spec n 19); [lia|]. now rewrite andb_false_r.
  - unfold luhn_valid_digits, strip_nondigit.
    now rewrite filter_filter_same.
Qed.

(** The Visa test number passes, a text with two digits does not. *)
Lemma luhn_check_standard_witness :
  luhn_check (L "4532-0151-1283-0366") = Some true
  /\ luhn_check (L "card 12") = Some false.
Proof.
  split.
  - apply (proj1 (luhn_check_standard (L "4532-0151-1283-0366") eq_refl)).
    + vm_compute. split; apply Nat.leb_le; reflexivity.
    + reflexivity.
  - apply (proj1 (proj2 (luhn_check_standard (L "card 12") eq_refl))).
    left. vm_compute. apply Nat.leb_le; reflexivity.
Defined.

(** C4. [luhn_check] does not return on every text: [str.isdigit] keeps the
    superscript digits (the characters 178, 179 and 185), on which [int]
    raises [ValueError].  It raises on the superscript two alone, where the
    claim has it return false for a text of fewer than 13 digits, and on
    the Visa test number followed by a superscript two, while it answers
    true on the digit-only form of that text; it raises exactly on the
    texts that hold a superscript digit. *)
Theorem luhn_check_raises_on_superscript_digit :
  luhn_check [ascii_of_nat 178] = None
  /\ luhn_check (L "4532015112830366" ++ [ascii_of_nat 178]) = None
  /\ luhn_check (strip_nondigit (L "4532015112830366" ++ [ascii_of_nat 178]))
     = Some true
  /\ forall x : str, luhn_check x = None <-> no_superscript x = false.
Proof.
  split; [reflexivity|]. split; [reflexivity|]. split; [reflexivity|].
  intros x. rewrite luhn_check_eq.
  destruct (no_superscript x); split; intros H; congruence.
Qed.

(** ** Masking *)

Lemma last_n_app (front tail : str) :
  last_n (length tail) (front ++ tail) = tail.
Proof.
  unfold last_n. rewrite length_app.
  replace (length front + length tail - length tail) with (length front)
    by lia.
  rewrite skipn_app, Nat.sub_diag, skipn_all. reflexivity.
Qed.

(** A run without stars that lies in [stars k ++ tail] lies in [tail]. *)
Lemma run_after_stars (k : nat) (tail pre run post : str) :
  stars k ++ tail = pre ++ run ++ post ->
  forallb isdecimal run = true ->
  length run <= length tail.
Proof.
  revert pre. induction k as [|k IH]; intros pre Heq Hrun.
  - simpl in Heq. rewrite Heq, !length_app. lia.
  - destruct pre as [|c pre].
    + destruct run as [|c run]; [simpl; lia|].
      simpl in Heq. injection Heq as Hc _. subst c.
      simpl in Hrun. discriminate.
    + simpl in Heq. injection Heq as _ Heq. now apply (IH pre).
Qed.

(** C5. For a string of length [n], [mask_pan] returns [n - 4] stars
    followed by the last 4 characters when [show_last4] is true and
    [n >= 4], [n] stars when [show_last4] is false, and [n] stars when
    [n < 4]; hence a masked rendering never shows more than 4 consecutive
    digits. *)
Theorem mask_pan_rendering (pan : str) (show_last4 : bool) :
  (forall front tail : str,
      pan = front ++ tail -> length tail = 4 ->
      mask_pan pan true = stars (length pan - 4) ++ tail)
  /\ mask_pan pan false = stars (length pan)
  /\ (length pan < 4 -> mask_pan pan show_last4 = stars (length pan))
  /\ (forall pre run post : str,
         mask_pan pan show_last4 = pre ++ run ++ post ->
         forallb isdecimal run = true ->
         length run <= 4).
Proof.
  assert (Hshort : length pan < 4 ->
                   mask_pan pan show_last4 = stars (length pan)).
  { intros H. unfold mask_pan.
    destruct (Nat.ltb_spec (length pan) 4); [reflexivity|lia]. }
  split; [|split; [|split]].
  - intros front tail -> Htail. unfold mask_pan.
    rewrite length_app, Htail.
    destruct (Nat.ltb_spec (length front + 4) 4); [lia|].
    f_equal. rewrite <- Htail. apply last_n_app.
  - unfold mask_pan. destruct (length pan <? 4); reflexivity.
  - exact Hshort.
  - intros pre run post Heq Hrun.
    unfold mask_pan in Heq.
    destruct (length pan <? 4).
    + rewrite <- (app_nil_r (stars _)) in Heq.
      apply run_after_stars in Heq; [simpl in Heq; lia|assumption].
    + destruct show_last4.
      * apply run_after_stars in Heq; [|assumption].
        unfold last_n in Heq. rewrite length_skipn in Heq. lia.
      * rewrite <- (app_nil_r (stars _)) in Heq.
        apply run_after_stars in Heq; [simpl in Heq; lia|assumption].
Qed.

(** Scenario S7 of the specification. *)
Lemma mask_pan_rendering_witness :
  mask_pan (L "4532015112830366") true = L "************0366"
  /\ mask_pan (L "123") true = L "***"
  /\ length (L "0366") <= 4.
Proof.
  pose proof (mask_pan_rendering (L "4532015112830366") true)
    as (Hlast & _ & _ & Hrun).
  pose proof (mask_pan_rendering (L "123") true) as (_ & _ & Hshort & _).
  split; [|split].
  - apply (Hlast (L "453201511283") (L "0366")); reflexivity.
  - apply Hshort. vm_compute. apply Nat.leb_le. reflexivity.
  - apply (Hrun (L "************") (L "0366") []); reflexivity.
Defined.

(** ** Dictionaries *)

Lemma get_set_same (k : str) (v : json) (d : dict) :
  get k (set k v d) = Some v.
Proof.
  induction d as [|[k' v'] d IH]; simpl.
  - now rewrite str_eqb_refl.
  - destruct (str_eqb k k') eqn:Hk; simpl; now rewrite Hk.
Qed.

Lemma set_set_same (k : str) (v v' : json) (d : dict) :
  set k v (set k v' d) = set k v d.
Proof.
  induction d as [|[k' w] d IH]; simpl.
  - now rewrite str_eqb_refl.
  - destruct (str_eqb k k') eqn:Hk; simpl; rewrite Hk; [reflexivity|].
    now rewrite IH.
Qed.

Lemma set_get_same (k : str) (v : json) (d : dict) :
  get k d = Some v -> set k v d = d.
Proof.
  induction d as [|[k' w] d IH]; simpl; [discriminate|].
  destruct (str_eqb k k') eqn:Hk.
  - intros [= ->]. reflexivity.
  - intros H. now rewrite IH.
Qed.

(** ** Replacement templates *)

Lemma sub_parsed (r : Re.regex) (template repl s : str) :
  Re.parse_template template = Some repl ->
  Re.sub r template s = Some (Re.sub_literal r repl s).
Proof. intros H. unfold Re.sub. now rewrite H. Qed.

Lemma sub_bad_template (r : Re.regex) (template s : str) :
  Re.parse_template template = None -> Re.sub r template s = None.
Proof. intros H. unfold Re.sub. now rewrite H. Qed.

Lemma report_sanitize_file_path_total (file_path : str) :
  ReportGenerator._sanitize_file_path file_path
  = Some (sanitized_path file_path).
Proof.
  unfold ReportGenerator._sanitize_file_path, sanitized_path.
  rewrite (@sub_parsed _ _ (L "/Users/<user>/")) by reflexivity.
  cbn [bind].
  rewrite (@sub_parsed _ _ (L "\Users\<user>\")) by reflexivity.
  cbn [bind].
  rewrite (@sub_parsed _ _ (L "C:\Users\<user>\")) by reflexivity.
  reflexivity.
Qed.

Lemma sanitize_context_total (context : str) :
  exists sanitized, ReportGenerator._sanitize_context context = Some sanitized.
Proof.
  unfold ReportGenerator._sanitize_context.
  destruct context as [|c context]; [now exists []|].
  rewrite (@sub_parsed _ _ (L "<email>")) by reflexivity.
  cbn [bind].
  rewrite (@sub_parsed _ _ (L "<ssn>")) by reflexivity.
  cbn [bind]. eexists. reflexivity.
Qed.

(** ** Findings *)

Section Findings.
Context {E : Extern}.
Variable config : Config.

Lemma process_finding_total (m : PANMatch) :
  exists finding,
    ReportGenerator.process_finding config m = Some finding
    /\ get (L "pan_data") finding
       = Some (JDict (ReportGenerator.pan_data config m)).
Proof.
  unfold ReportGenerator.process_finding.
  rewrite report_sanitize_file_path_total. cbn [bind].
  destruct (sanitize_context_total (context_before m)) as [before ->].
  destruct (sanitize_context_total (context_after m)) as [after ->].
  cbn [bind]. eexists. split; [reflexivity|].
  apply get_set_same.
Qed.

Lemma pan_data_spec (m : PANMatch) (finding : dict) :
  get (L "pan_data") finding
  = Some (JDict (ReportGenerator.pan_data config m)) ->
  pan_data_as_specified config m finding.
Proof.
  intros Hget. exists (ReportGenerator.pan_data config m).
  split; [exact Hget|].
  unfold ReportGenerator.pan_data, ReportGenerator.allow_full_pan,
    ReportGenerator.hash_or_none.
  destruct (allow_full_pan_retention config), (redact_pan config);
    cbn [andb negb]; (split; [reflexivity|]);
    (split; [|split]);
    try (destruct (raw_match m); split; intros H;
         first [discriminate | congruence | reflexivity]);
    try (intros ->; reflexivity);
    try (split; [intros H; first [discriminate | now split]
                |intros [H1 H2]; first [discriminate | reflexivity]]).
Qed.

End Findings.

(** [_process_findings] returns one finding for each match, in order, each
    with the [pan_data] of its match. *)
Lemma process_findings_total {E : Extern} (config : Config)
      (matches : list PANMatch) :
  exists findings : list dict,
    ReportGenerator._process_findings config matches = Some findings
    /\ Forall2 (fun m finding =>
                  get (L "pan_data") finding
                  = Some (JDict (ReportGenerator.pan_data config m)))
               matches findings.
Proof.
  unfold ReportGenerator._process_findings.
  induction matches as [|m matches (findings & Hsome & Hall)].
  - exists []. split; [reflexivity|constructor].
  - destruct (process_finding_total config m) as (finding & Hm & Hget).
    exists (finding :: findings). cbn [mapM]. rewrite Hm, Hsome.
    split; [reflexivity|]. now constructor.
Qed.

(** C3. Every finding of [_process_findings] has a [pan_data] that holds
    [masked_number]; whose [hash] is the SHA-256 of the raw digits exactly
    when the match has raw digits, and is [None] (never a digest of the empty
    string) when it has none; and that holds [full_number] only if
    [allow_full_pan_retention] is true and [redact_pan] is false.  The
    function returns one finding for each match, in order. *)
Theorem process_findings_pan_data {E : Extern} (config : Config)
        (matches : list PANMatch) :
  exists findings : list dict,
    ReportGenerator._process_findings config matches = Some findings
    /\ Forall2 (pan_data_as_specified config) matches findings.
Proof.
  destruct (process_findings_total config matches) as (findings & Hsome & Hall).
  exists findings. split; [exact Hsome|]. clear Hsome.
  induction Hall as [|m finding matches' findings' Hget _ IH]; constructor.
  - now apply pan_data_spec.
  - exact IH.
Qed.

(** ** The integrity hash *)

Section Integrity.
Context {E : Extern}.

(** Writing a hash into a report whose hash field is empty, and clearing it
    again, gives the report back. *)
Lemma set_report_hash_clear (h : str) (report metadata : dict) :
  get (L "metadata") report = Some (JDict metadata) ->
  get (L "report_hash") metadata = Some (JStr []) ->
  exists hashed,
    ReportGenerator.set_report_hash h report = Some hashed
    /\ stored_hash hashed = Some (JStr h)
    /\ ReportGenerator.set_report_hash [] hashed = Some report.
Proof.
  intros Hmeta Hhash. unfold ReportGenerator.set_report_hash at 1.
  rewrite Hmeta. eexists. split; [reflexivity|]. split.
  - unfold stored_hash. now rewrite !get_set_same.
  - unfold ReportGenerator.set_report_hash.
    rewrite get_set_same, !set_set_same.
    rewrite (set_get_same _ _ Hhash), (set_get_same _ _ Hmeta).
    reflexivity.
Qed.

Lemma build_report_total (config : Config)
      (timestamp agent_id scan_id operator : str) (matches : list PANMatch)
      (scan_stats config_summary : dict) :
  exists report metadata,
    ReportGenerator.build_report config timestamp agent_id scan_id operator
                                 matches scan_stats config_summary
    = Some report
    /\ get (L "metadata") report = Some (JDict metadata)
    /\ get (L "report_hash") metadata = Some (JStr []).
Proof.
  unfold ReportGenerator.build_report.
  destruct (process_findings_total config matches) as (findings & -> & _).
  cbn [bind]. do 2 eexists. split; [reflexivity|]. split; reflexivity.
Qed.

End Integrity.

(** C7. [create_report] always returns a report, and the SHA-256 of the
    canonical JSON text (sorted keys, [str] for values JSON does not know) of
    that report with [metadata.report_hash] set back to the empty string is
    the hash stored in [metadata.report_hash]. *)
Theorem report_hash_recomputes {E : Extern} (config : Config)
        (timestamp agent_id scan_id operator : str) (matches : list PANMatch)
        (scan_stats config_summary : dict) :
  exists (report cleared : dict) (h : str),
    ReportGenerator.create_report config timestamp agent_id scan_id operator
                                  matches scan_stats config_summary
    = Some report
    /\ stored_hash report = Some (JStr h)
    /\ ReportGenerator.set_report_hash [] report = Some cleared
    /\ ReportGenerator.report_digest cleared = h.
Proof.
  unfold ReportGenerator.create_report.
  destruct (build_report_total config timestamp agent_id scan_id operator
                               matches scan_stats config_summary)
    as (report0 & metadata & -> & Hmeta & Hhash).
  cbn [bind].
  destruct (set_report_hash_clear
              (sha256_hexdigest (dumps true (JDict report0))) _ Hmeta Hhash)
    as (hashed & Hset & Hstored & Hclear).
  exists hashed, report0, (sha256_hexdigest (dumps true (JDict report0))).
  repeat split; assumption || reflexivity.
Qed.

(** ** The matches of [scan_text] *)

Lemma enumerate_In {A : Type} (xs : list A) :
  forall (start i : nat) (x : A),
    In (i, x) (enumerate start xs) ->
    start <= i /\ nth_error xs (i - start) = Some x.
Proof.
  induction xs as [|y xs IH]; intros start i x Hin; simpl in Hin.
  - contradiction.
  - destruct Hin as [[= <- <-]|Hin].
    + rewrite Nat.sub_diag. auto.
    + apply IH in Hin as [Hle Hnth]. split; [lia|].
      replace (i - start) with (S (i - S start)) by lia. exact Hnth.
Qed.

(** Every match comes from one hit of one pattern on one line that the line
    filter let through. *)
Lemma scan_text_In (cfg : Config) (text file_path : str) (m : PANMatch) :
  In m (scan_text cfg text file_path) ->
  exists line_num line card_type pattern start end_,
    In (line_num, line) (enumerate 1 (split_lines text))
    /\ is_masked_number cfg line = false
    /\ In (card_type, pattern) compiled_patterns
    /\ In (start, end_) (Re.finditer pattern line)
    /\ scan_hit cfg file_path line_num line card_type start end_ = Some m.
Proof.
  unfold scan_text. intros Hin.
  apply in_flat_map in Hin as ([line_num line] & Hline & Hin).
  unfold scan_line in Hin.
  destruct (is_masked_number cfg line) eqn:Hmasked; [contradiction|].
  apply in_flat_map in Hin as ([card_type pattern] & Hpat & Hin).
  apply in_flat_map in Hin as ([start end_] & Hhit & Hin).
  exists line_num, line, card_type, pattern, start, end_.
  repeat (split; [assumption|]).
  destruct (scan_hit cfg file_path line_num line card_type start end_);
    simpl in Hin; [|contradiction].
  destruct Hin as [->|[]]. reflexivity.
Qed.

Lemma filter_isdecimal (s : str) : forallb isdecimal (filter isdecimal s) = true.
Proof.
  apply forallb_forall. intros c Hc. now apply filter_In in Hc.
Qed.

(** Opens [scan_hit] at the answer of [luhn_check] on the digits of the
    hit. *)
Ltac open_scan_hit :=
  unfold scan_hit;
  rewrite luhn_check_decimal by apply filter_isdecimal;
  cbv beta iota.

Ltac open_scan_hit_in H :=
  unfold scan_hit in H;
  rewrite luhn_check_decimal in H by apply filter_isdecimal;
  cbv beta iota in H.

(** What a hit records in the match it makes. *)
Lemma scan_hit_fields (cfg : Config) (file_path : str) (line_num : nat)
      (line : str) (t : CardType) (start end_ : nat) (m : PANMatch) :
  scan_hit cfg file_path line_num line t start end_ = Some m ->
  line_number m = line_num
  /\ column_start m = start
  /\ column_end m = end_
  /\ raw_match m = (if allow_full_pan_retention cfg
                    then slice start end_ line else [])
  /\ is_masked m = is_masked_number cfg (full_context cfg line start end_).
Proof.
  open_scan_hit. unfold full_context.
  destruct (_ || _); [discriminate|].
  destruct (_ && _); [discriminate|].
  destruct (PrimFloat.ltb _ _); [discriminate|].
  intros [= <-]. cbn. repeat split; reflexivity.
Qed.

(** Without retention, no match of [scan_text] keeps the raw digits. *)
Lemma scan_text_raw_match_empty (cfg : Config) (text file_path : str)
      (m : PANMatch) :
  allow_full_pan_retention cfg = false ->
  In m (scan_text cfg text file_path) ->
  raw_match m = [].
Proof.
  intros Hallow Hin.
  apply scan_text_In in Hin
    as (line_num & line & t & pattern & start & end_ & _ & _ & _ & _ & Hhit).
  apply scan_hit_fields in Hhit as (_ & _ & _ & Hraw & _).
  now rewrite Hallow in Hraw.
Qed.

(** Without retention, the [pan_data] of every finding is the masked number
    and an empty hash, whatever [redact_pan] says. *)
Lemma pan_data_without_retention {E : Extern} (cfg : Config) (m : PANMatch) :
  allow_full_pan_retention cfg = false ->
  raw_match m = [] ->
  ReportGenerator.pan_data cfg m
  = [(L "masked_number", JStr (masked_match m)); (L "hash", JNone)].
Proof.
  intros Hallow Hraw.
  unfold ReportGenerator.pan_data, ReportGenerator.allow_full_pan,
    ReportGenerator.hash_or_none.
  now rewrite Hallow, Hraw.
Qed.

(** What [scan_text] computes for [is_masked]: the result of
    [is_masked_number] on the window made of the context before the hit,
    the hit and the context after it, each context [context_window_chars]
    wide, which is false when [exclude_masked] is false. *)
Lemma is_masked_recorded (cfg : Config) (text file_path : str)
        (m : PANMatch) :
  In m (scan_text cfg text file_path) ->
  is_masked m
  = exclude_masked cfg
    && matches_masked_pattern
         (full_context cfg (line_of text m) (column_start m) (column_end m)).
Proof.
  intros Hin.
  apply scan_text_In in Hin
    as (line_num & line & t & pattern & start & end_ & Hline & _ & _ & _
        & Hhit).
  apply scan_hit_fields in Hhit as (Hnum & Hstart & Hend & _ & Hmasked).
  apply enumerate_In in Hline as [_ Hline].
  unfold line_of. rewrite Hnum, Hstart, Hend.
  rewrite (nth_error_nth _ _ _ Hline), Hmasked.
  unfold is_masked_number. destruct (exclude_masked cfg); reflexivity.
Qed.

Lemma is_masked_recorded_witness :
  exists m,
    scan_text config_keep_masked text_with_mask (L "notes.txt") = [m]
    /\ is_masked m
       = exclude_masked config_keep_masked
         && matches_masked_pattern
              (full_context config_keep_masked (line_of text_with_mask m)
                            (column_start m) (column_end m)).
Proof.
  eexists. split; [vm_compute; reflexivity|].
  apply (@is_masked_recorded config_keep_masked text_with_mask
                             (L "notes.txt")).
  vm_compute. left. reflexivity.
Defined.

(** C8. The code does not record the masked-pattern test of the window.
    On the line [card **** 4532015112830366] with [exclude_masked] false
    the match of the Visa test number is recorded as not masked although
    its window, the whole line, passes the test of the masked patterns;
    with [exclude_masked] true the same line is skipped and gives no match
    at all. *)
Lemma is_masked_not_independent_of_exclude_masked :
  (exists m,
      scan_text config_keep_masked text_with_mask (L "notes.txt") = [m]
      /\ context_before m
           ++ slice (column_start m) (column_end m) text_with_mask
           ++ context_after m = text_with_mask
      /\ matches_masked_pattern text_with_mask = true
      /\ is_masked m = false)
  /\ scan_text default_config text_with_mask (L "notes.txt") = [].
Proof.
  split; [|vm_compute; reflexivity].
  eexists. split; [vm_compute; reflexivity|].
  repeat split; vm_compute; reflexivity.
Qed.

(** ** The masked patterns on a part of a line *)

(** A match of a pattern without [\b] is still found when text is added
    after the text read, whatever the character before the position. *)
Lemma rep_extend (A B : Type) (p : ascii -> bool) (b : str)
      (k : Re.cont A) (k' : Re.cont B) :
  (forall q q' s, k q s <> None -> k' q' (s ++ b) <> None) ->
  forall s lo hi prev prev',
    Re.rep p lo hi prev s k <> None ->
    Re.rep p lo hi prev' (s ++ b) k' <> None.
Proof.
  intros Hk.
  assert (Hstop : forall s lo hi prev prev',
             (if lo =? 0 then k prev s else None) <> None ->
             Re.rep p lo hi prev' (s ++ b) k' <> None).
  { intros s lo hi prev prev' H.
    destruct (lo =? 0) eqn:Hlo; [|congruence].
    apply (Hk prev prev') in H.
    destruct (s ++ b) as [|c t]; cbn [Re.rep]; rewrite Hlo; [exact H|].
    destruct (p c && Re.can_take hi); [|exact H].
    destruct (Re.rep _ _ _ _ _ _); [discriminate|exact H]. }
  induction s as [|c s IH]; intros lo hi prev prev' H.
  - apply (Hstop [] lo hi prev prev'). exact H.
  - cbn [Re.rep] in H.
    destruct (p c && Re.can_take hi) eqn:Htake.
    + destruct (Re.rep p (pred lo) (option_map pred hi) (Some c) s k)
        eqn:Hrec.
      * assert (Hext : Re.rep p (pred lo) (option_map pred hi) (Some c)
                              (s ++ b) k' <> None)
          by (apply (IH _ _ (Some c)); congruence).
        change ((c :: s) ++ b) with (c :: (s ++ b)). cbn [Re.rep].
        rewrite Htake.
        destruct (Re.rep p (pred lo) (option_map pred hi) (Some c)
                         (s ++ b) k'); [discriminate|congruence].
      * apply (Hstop (c :: s) lo hi prev prev'). exact H.
    + apply (Hstop (c :: s) lo hi prev prev'). exact H.
Qed.

Lemma rmatch_extend (A B : Type) (r : Re.regex) (b : str) :
  boundary_free r = true ->
  forall (k : Re.cont A) (k' : Re.cont B) prev prev' s,
    (forall q q' s, k q s <> None -> k' q' (s ++ b) <> None) ->
    Re.rmatch r prev s k <> None ->
    Re.rmatch r prev' (s ++ b) k' <> None.
Proof.
  induction r as [|p|r1 IH1 r2 IH2|r1 IH1 r2 IH2|p lo hi|];
    cbn [boundary_free]; intros Hfree k k' prev prev' s Hk H;
    try discriminate.
  - cbn [Re.rmatch] in *. now apply (Hk prev prev').
  - destruct s as [|c s]; cbn [Re.rmatch] in H; [congruence|].
    change ((c :: s) ++ b) with (c :: (s ++ b)). cbn [Re.rmatch].
    destruct (p c); [|congruence]. now apply (Hk (Some c)).
  - apply andb_true_iff in Hfree as [H1 H2]. cbn [Re.rmatch] in *.
    refine (IH1 H1 _ _ prev prev' s _ H).
    intros q q' t. apply (IH2 H2 k k' q q' t Hk).
  - apply andb_true_iff in Hfree as [H1 H2]. cbn [Re.rmatch] in *.
    destruct (Re.rmatch r1 prev' (s ++ b) k') eqn:Hext; [discriminate|].
    destruct (Re.rmatch r1 prev s k) eqn:Horig.
    + exfalso. apply (IH1 H1 k k' prev prev' s Hk); [congruence|exact Hext].
    + apply (IH2 H2 k k' prev prev' s Hk H).
  - cbn [Re.rmatch] in *.
    now apply (@rep_extend _ _ p b k k' Hk s lo hi prev).
Qed.

Lemma match_at_extend (r : Re.regex) (prev prev' : option ascii)
      (s b : str) :
  boundary_free r = true ->
  Re.match_at r prev s <> None -> Re.match_at r prev' (s ++ b) <> None.
Proof.
  intros Hfree. unfold Re.match_at.
  apply (@rmatch_extend _ _ r b Hfree). intros; discriminate.
Qed.

Lemma search_from_extend (r : Re.regex) (s b : str) :
  boundary_free r = true ->
  forall prev prev',
    Re.search_from r prev s = true ->
    Re.search_from r prev' (s ++ b) = true.
Proof.
  intros Hfree. induction s as [|c s IH]; intros prev prev' H.
  - cbn [Re.search_from] in H.
    destruct (Re.match_at r prev []) eqn:Hm; [|discriminate].
    assert (Hext : Re.match_at r prev' ([] ++ b) <> None)
      by (apply (@match_at_extend r prev); [exact Hfree|congruence]).
    destruct ([] ++ b) as [|x t]; cbn [Re.search_from];
      destruct (Re.match_at r prev' _); congruence.
  - change ((c :: s) ++ b) with (c :: (s ++ b)).
    cbn [Re.search_from] in *.
    destruct (Re.match_at r prev (c :: s)) eqn:Hm.
    + assert (Hext : Re.match_at r prev' ((c :: s) ++ b) <> None)
        by (apply (@match_at_extend r prev); [exact Hfree|congruence]).
      change ((c :: s) ++ b) with (c :: (s ++ b)) in Hext.
      destruct (Re.match_at r prev' (c :: s ++ b)); congruence.
    + destruct (Re.match_at r prev' (c :: s ++ b)); [reflexivity|].
      now apply (IH (Some c)).
Qed.

Lemma search_from_behind (r : Re.regex) (a s : str) :
  boundary_free r = true ->
  forall prev prev',
    Re.search_from r prev s = true ->
    Re.search_from r prev' (a ++ s) = true.
Proof.
  intros Hfree. induction a as [|c a IH]; intros prev prev' H.
  - cbn [app]. rewrite <- (app_nil_r s).
    now apply (@search_from_extend r s [] Hfree prev).
  - change ((c :: a) ++ s) with (c :: (a ++ s)). cbn [Re.search_from].
    destruct (Re.match_at r prev' (c :: a ++ s)); [reflexivity|].
    now apply (IH prev).
Qed.

(** [search] on a part of a text: what a pattern without [\b] finds in the
    part, it finds in the whole. *)
Lemma search_part (r : Re.regex) (a s b : str) :
  boundary_free r = true ->
  Re.search r s = true -> Re.search r (a ++ s ++ b) = true.
Proof.
  intros Hfree H. unfold Re.search in *.
  apply (@search_from_behind r a (s ++ b) Hfree None).
  now apply (@search_from_extend r s b Hfree None).
Qed.

Lemma masked_regex_boundary_free (r : Re.regex) :
  In r masked_regex -> boundary_free r = true.
Proof.
  assert (H : forallb boundary_free masked_regex = true) by reflexivity.
  rewrite forallb_forall in H. apply H.
Qed.

Lemma matches_masked_pattern_part (a s b : str) :
  matches_masked_pattern s = true ->
  matches_masked_pattern (a ++ s ++ b) = true.
Proof.
  unfold matches_masked_pattern. rewrite !existsb_exists.
  intros (r & Hin & Hs). exists r. split; [exact Hin|].
  apply search_part; [now apply masked_regex_boundary_free|exact Hs].
Qed.

Lemma slice_skipn (a b : nat) (s : str) :
  a <= b -> slice a b s ++ skipn b s = skipn a s.
Proof.
  intros Hab. unfold slice.
  replace (skipn b s) with (skipn (b - a) (skipn a s)).
  - apply firstn_skipn.
  - rewrite skipn_skipn. f_equal. lia.
Qed.

(** The window of a hit is a part of its line. *)
Lemma full_context_part (cfg : Config) (line : str) (start end_ : nat) :
  start <= end_ ->
  exists a b, line = a ++ full_context cfg line start end_ ++ b.
Proof.
  intros Hse. unfold full_context, wide_context_before, wide_context_after.
  set (lo := start - context_window cfg).
  set (hi := Nat.min (length line) (end_ + context_window cfg)).
  exists (firstn lo line), (skipn (Nat.max end_ hi) line).
  rewrite <- !app_assoc.
  assert (Hafter : slice end_ hi line ++ skipn (Nat.max end_ hi) line
                   = skipn end_ line).
  { destruct (Nat.le_gt_cases end_ hi) as [Hle|Hgt].
    - rewrite Nat.max_r by exact Hle. now apply (@slice_skipn end_ hi).
    - rewrite Nat.max_l by lia. unfold slice.
      replace (hi - end_) with 0 by lia. reflexivity. }
  rewrite Hafter, (@slice_skipn start end_ line Hse).
  rewrite (@slice_skipn lo start line) by (subst lo; lia).
  symmetry. apply firstn_skipn.
Qed.

Lemma scan_hit_span (cfg : Config) (file_path : str) (line_num : nat)
      (line : str) (t : CardType) (start end_ : nat) (m : PANMatch) :
  scan_hit cfg file_path line_num line t start end_ = Some m ->
  start <= end_.
Proof.
  open_scan_hit. intros H.
  destruct (Nat.le_gt_cases start end_) as [Hle|Hgt]; [exact Hle|].
  unfold slice in H. replace (end_ - start) with 0 in H by lia.
  cbn in H. discriminate.
Qed.

(** X7. No match of [scan_text] is recorded as masked: with
    [exclude_masked] false [is_masked_number] answers false, and with
    [exclude_masked] true a line in which a masked pattern is found is
    skipped as a whole, window included. *)
Lemma scan_text_is_masked_false (cfg : Config) (text file_path : str)
      (m : PANMatch) :
  In m (scan_text cfg text file_path) -> is_masked m = false.
Proof.
  intros Hin.
  apply scan_text_In in Hin
    as (line_num & line & t & pattern & start & end_ & _ & Hline & _ & _
        & Hhit).
  assert (Hse : start <= end_) by (eapply scan_hit_span; exact Hhit).
  apply scan_hit_fields in Hhit as (_ & _ & _ & _ & ->).
  unfold is_masked_number in *.
  destruct (negb (exclude_masked cfg)); [reflexivity|].
  destruct (matches_masked_pattern (full_context cfg line start end_))
    eqn:Hwin; [|reflexivity].
  destruct (@full_context_part cfg line start end_ Hse) as (a & b & Heq).
  rewrite Heq in Hline.
  now rewrite (@matches_masked_pattern_part a _ b Hwin) in Hline.
Qed.

(** ** Raw digits in the context of a match *)

(** C1. With the default configuration ([allow_full_pan_retention] false)
    the two matches of this line have an empty [raw_match] and their
    findings have no [full_number], yet the first match stores the sixteen
    digits of the number in [context_after], and its finding carries them in
    [context.after]. *)
Theorem raw_digits_in_context (E : Extern) :
  let matches := scan_text default_config text_twice (L "cards.txt") in
  allow_full_pan_retention default_config = false
  /\ map raw_match matches = [[]; []]
  /\ map context_after matches = [L " 4532015112830366"; []]
  /\ exists f1 f2 : dict,
       ReportGenerator._process_findings default_config matches
       = Some [f1; f2]
       /\ get (L "pan_data") f1
          = Some (JDict [(L "masked_number", JStr (L "************0366"));
                         (L "hash", JNone)])
       /\ get (L "context") f1
          = Some (JDict [(L "before", JStr []);
                         (L "after", JStr (L " 4532015112830366"))]).
Proof.
  repeat split; try (vm_compute; reflexivity).
  do 2 eexists. split; [vm_compute; reflexivity|].
  split; vm_compute; reflexivity.
Qed.

(** ** The two passes of [scan_directories] *)

Section Scanner.
Import FileScanner.
Context {E : Extern}.
Variable config : Config.
Variables max_files max_depth : limit.
Variable concurrency : positive.
Variable exclude_patterns : list str.
Variable files_scanned0 : nat.
Variable stop_requested : nat -> bool.
Variable content_of : str -> option str.
Variable first_completed : nat -> list str -> nat.

Let counting := counting_pass max_files max_depth exclude_patterns
                              files_scanned0 stop_requested.
Let scanning := scan_directories config max_files max_depth concurrency
                                 exclude_patterns files_scanned0
                                 stop_requested content_of first_completed.

Lemma initial_batch_not_empty (file_path : str) (rest : list str) :
  exists batch,
    firstn (Nat.min (Pos.to_nat concurrency * 2)
                    (length (file_path :: rest)))
           (file_path :: rest)
    = file_path :: batch.
Proof.
  pose proof (Pos2Nat.is_pos concurrency) as Hpos.
  destruct (Nat.min _ _) eqn:Hmin; [simpl in Hmin; lia|].
  simpl. eexists. reflexivity.
Qed.

(** C6, as amended. If the stop flag is seen before the scanning pass does
    any work, [scan_directories] returns no match; and when the counting
    pass had run to its end and found files, the progress events end with
    the opening event of the scanning pass followed by the completion event,
    whose phase is [complete], whose [completed] is true and which counts no
    file scanned. *)
Theorem stop_before_scanning_returns_nothing (directories : list node) :
  stop_seen_before_scanning max_files max_depth exclude_patterns
                            files_scanned0 stop_requested directories ->
  fst (scanning directories) = []
  /\ forall (all_files : list str) (events : list dict) (reads : nat),
       counting directories = Counted all_files events reads ->
       all_files <> [] ->
       snd (scanning directories)
       = events ++
         [phase_event (L "scanning") (L "Scanning files...") 0
                      (length all_files) 0;
          complete_event 0 (length all_files) 0].
Proof.
  unfold stop_seen_before_scanning, scanning, scan_directories.
  fold counting.
  destruct (counting directories) as [events|all_files events reads].
  - intros _. split; [reflexivity|]. intros ? ? ? [=].
  - intros Hstop.
    destruct all_files as [|file_path rest].
    + split; [reflexivity|]. intros ? ? ? [= <- <- <-] Hne. now elim Hne.
    + destruct (initial_batch_not_empty file_path rest) as [batch Hbatch].
      change (length (file_path :: rest) =? 0) with false. cbv iota.
      rewrite Hbatch. cbn [scanning_loop length futures FileScanner.reads].
      rewrite Hstop. cbn [all_matches FileScanner.events files_completed fst snd length].
      split; [reflexivity|].
      intros ? ? ? [= <- <- <-] _.
      rewrite <- app_assoc. reflexivity.
Qed.

End Scanner.

Import FileScanner.

Lemma stop_before_scanning_returns_nothing_witness :
  let run :=
    scan_directories (E := sample_extern) default_config (Finite 100)
                     (Finite 8) 4 [] 0 stop_after_counting
                     (fun _ => None) (fun _ _ => 0) one_root in
  fst run = []
  /\ snd run
     = [phase_event (L "counting") (L "Counting files...") 0 0 0;
        phase_event (L "scanning") (L "Scanning files...") 0 1 0;
        complete_event 0 1 0].
Proof.
  pose proof (@stop_before_scanning_returns_nothing
                sample_extern default_config (Finite 100) (Finite 8) 4 []
                0 stop_after_counting (fun _ => None) (fun _ _ => 0)
                one_root) as H.
  destruct H as [Hfst Hsnd]; [vm_compute; reflexivity|].
  split; [exact Hfst|].
  apply (Hsnd [L "/data/a.txt"]
              [phase_event (L "counting") (L "Counting files...") 0 0 0] 1);
    [vm_compute; reflexivity|discriminate].
Defined.

(** C6, as stated, fails.  When the flag is seen by the counting pass, the
    function returns at once and the last event is the one that opened the
    counting pass; when it is seen at the start of the scanning pass, the
    last event is a completion event that says [completed] and has no
    status. *)
Lemma stop_gives_no_stopped_completion_event :
  let while_counting :=
    scan_directories (E := sample_extern) default_config (Finite 100)
                     (Finite 8) 4 [] 0 (fun _ => true)
                     (fun _ => None) (fun _ _ => 0) one_root in
  let before_scanning :=
    scan_directories (E := sample_extern) default_config (Finite 100)
                     (Finite 8) 4 [] 0 stop_after_counting
                     (fun _ => None) (fun _ _ => 0) one_root in
  (fst while_counting = []
   /\ snd while_counting
      = [phase_event (L "counting") (L "Counting files...") 0 0 0])
  /\ (fst before_scanning = []
      /\ exists event,
           last (snd before_scanning) [] = event
           /\ get (L "phase") event = Some (JStr (L "complete"))
           /\ get (L "completed") event = Some (JBool true)
           /\ get (L "status") event = None
           /\ existsb (fun kv => match snd kv with
                                 | JStr v => contains (L "stopped") v
                                 | _ => false
                                 end) event = false).
Proof.
  split; [split; vm_compute; reflexivity|].
  split; [vm_compute; reflexivity|].
  eexists. split; [vm_compute; reflexivity|].
  repeat split; vm_compute; reflexivity.
Qed.

(** What the counting pass does guarantee: each root after the first can
    add one file beyond the limit. *)
Section CountingBound.
Context {E : Extern}.
Variable n : nat.
Variable max_depth : limit.
Variable exclude_patterns : list str.
Variable files_scanned0 : nat.
Variable stop_requested : nat -> bool.

Lemma count_files_bound (yielded : list str) :
  forall (all_files : list str) (events : list dict) (reads : nat)
         (all_files' : list str) (events' : list dict) (reads' : nat),
    count_files (Finite n) stop_requested yielded all_files events reads
    = inr (all_files', events', reads') ->
    length all_files' <= Nat.max (length all_files) (n - 1) + 1.
Proof.
  induction yielded as [|file_path rest IH];
    intros all_files events reads all_files' events' reads' Hcount;
    cbn [count_files] in Hcount.
  - injection Hcount as <- _ _. lia.
  - destruct (stop_requested reads); [discriminate|].
    cbn [reaches] in Hcount. rewrite length_app in Hcount.
    cbn [length] in Hcount.
    destruct (Nat.leb_spec n (length all_files + 1)) as [Hn|Hn].
    + injection Hcount as <- _ _. rewrite length_app. cbn [length]. lia.
    + apply IH in Hcount. rewrite length_app in Hcount.
      cbn [length] in Hcount. lia.
Qed.

Lemma count_directories_bound (directories : list node) :
  forall (all_files : list str) (events : list dict) (reads : nat)
         (all_files' : list str) (events' : list dict) (reads' : nat),
    count_directories (Finite n) max_depth exclude_patterns files_scanned0
                      stop_requested directories all_files events reads
    = Counted all_files' events' reads' ->
    length all_files'
    <= Nat.max (length all_files) (n - 1) + length directories.
Proof.
  induction directories as [|directory rest IH];
    intros all_files events reads all_files' events' reads' Hcount;
    cbn [count_directories] in Hcount.
  - injection Hcount as <- _ _. cbn [length]. lia.
  - destruct (count_files _ _ _ _ _ _) as [|[[all1 events1] reads1]] eqn:Hdir;
      [discriminate|].
    apply count_files_bound in Hdir. apply IH in Hcount.
    cbn [length]. lia.
Qed.

(** Against a finite limit [n] the counting pass lists at most [n - 1]
    files plus one for each root: the limit is tested after a file is
    added, and reaching it ends the walk of the current root only. *)
Lemma counting_pass_bound (directories : list node) (all_files : list str)
      (events : list dict) (reads : nat) :
  counting_pass (Finite n) max_depth exclude_patterns files_scanned0
                stop_requested directories
  = Counted all_files events reads ->
  length all_files <= n - 1 + length directories.
Proof.
  intros Hcount. apply count_directories_bound in Hcount.
  cbn [length] in Hcount. lia.
Qed.

End CountingBound.

(** C9. With [max_files = 1] and two roots that hold one file each, the
    counting pass lists two files: the [break] that follows the test of the
    limit leaves the loop over the files of one root only, so each further
    root adds its first file.  Both files are then submitted and scanned. *)
Theorem counting_pass_exceeds_max_files (E : Extern) :
  counting_pass (Finite 1) (Finite 8) [] 0 (fun _ => false) two_roots
  = Counted [L "/a/one.txt"; L "/b/two.txt"]
            [phase_event (L "counting") (L "Counting files...") 0 0 0] 2
  /\ last (snd (scan_directories default_config (Finite 1) (Finite 8) 4 [] 0
                                 (fun _ => false) (fun _ => None)
                                 (fun _ _ => 0) two_roots)) []
     = complete_event 2 2 0.
Proof.
  split; vm_compute; reflexivity.
Qed.

(** ** The digit runs the transmission gate finds *)

Section ClassRuns.
Variable A : Type.
Variable p : ascii -> bool.
Variable k : Re.cont A.

(** The continuation refuses every position inside a run of the class. *)
Hypothesis k_inside :
  forall (d c : ascii) (s : str),
    p d = true -> p c = true -> k (Some d) (c :: s) = None.

(** A greedy repetition followed by such a continuation takes the whole run
    or fails. *)
Lemma rep_whole_run (s : str) :
  forall (lo : nat) (hi : option nat) (prev : option ascii),
    (lo = 0 -> exists d, prev = Some d /\ p d = true) ->
    Re.rep p lo hi prev s k
    = if (lo <=? length (take_while p s))
         && allows hi (length (take_while p s))
      then k (prev_after p prev s) (drop_while p s)
      else None.
Proof.
  induction s as [|c s IH]; intros lo hi prev Hprev;
    cbn [Re.rep take_while drop_while prev_after length].
  - destruct lo; cbn [Nat.eqb Nat.leb andb]; [|reflexivity].
    destruct hi; reflexivity.
  - destruct (p c) eqn:Hc; cbn [andb length].
    + assert (Hstop : (if lo =? 0 then k prev (c :: s) else None) = None).
      { destruct lo; [|reflexivity].
        destruct (Hprev eq_refl) as (d & -> & Hd). now apply k_inside. }
      rewrite Hstop.
      destruct (Re.can_take hi) eqn:Htake.
      * rewrite IH by (intros _; now exists c).
        assert (Hlo : (Nat.pred lo <=? length (take_while p s))
                      = (lo <=? S (length (take_while p s))))
          by (destruct lo; reflexivity).
        assert (Hhi : allows (option_map Nat.pred hi)
                             (length (take_while p s))
                      = allows hi (S (length (take_while p s))))
          by (destruct hi as [[|h]|]; [discriminate|reflexivity|reflexivity]).
        rewrite Hlo, Hhi.
        destruct (_ && _); [|reflexivity].
        destruct (k (prev_after p (Some c) s) (drop_while p s)); reflexivity.
      * destruct hi as [[|h]|]; try discriminate.
        cbn [allows Nat.leb]. now rewrite andb_false_r.
    + destruct lo; cbn [Nat.eqb Nat.leb andb]; [|reflexivity].
      destruct hi; reflexivity.
Qed.

End ClassRuns.

Lemma take_drop_length (p : ascii -> bool) (s : str) :
  length (take_while p s) + length (drop_while p s) = length s.
Proof.
  induction s as [|c s IH]; simpl; [reflexivity|].
  destruct (p c); simpl; lia.
Qed.

Lemma prev_after_class (p : ascii -> bool) (s : str) :
  forall prev,
    take_while p s <> [] ->
    exists d, prev_after p prev s = Some d /\ p d = true.
Proof.
  induction s as [|c s IH]; intros prev Hne; simpl in *; [congruence|].
  destruct (p c) eqn:Hc; [|congruence].
  destruct (take_while p s) eqn:Hs.
  - exists c. split; [|assumption].
    destruct s as [|c' s]; [reflexivity|].
    simpl in *. destruct (p c'); [discriminate|reflexivity].
  - apply IH. congruence.
Qed.

Lemma take_while_head (p : ascii -> bool) (s : str) :
  take_while p s <> [] -> exists c, hd_error s = Some c /\ p c = true.
Proof.
  destruct s as [|c s]; simpl; [congruence|].
  destruct (p c) eqn:Hc; [|congruence]. intros _. now exists c.
Qed.

(** A run of the class between [pre] and a [post] that does not continue
    it. *)
Lemma take_drop_run (p : ascii -> bool) (run post : str) :
  forallb p run = true ->
  (forall c, hd_error post = Some c -> p c = false) ->
  take_while p (run ++ post) = run /\ drop_while p (run ++ post) = post.
Proof.
  intros Hrun Hpost. induction run as [|c run IH]; simpl in *.
  - destruct post as [|c post]; [auto|].
    simpl. now rewrite (Hpost c eq_refl).
  - apply andb_true_iff in Hrun as [Hc Hrun]. rewrite Hc.
    destruct (IH Hrun) as [-> ->]. auto.
Qed.

Lemma take_while_stops (p : ascii -> bool) (pre x : str) :
  forall prev,
    pre <> [] ->
    (forall c, last_char prev pre = Some c -> p c = false) ->
    length (take_while p (pre ++ x)) < length pre.
Proof.
  induction pre as [|c pre IH]; intros prev Hne Hlast; [congruence|].
  simpl in *. destruct (p c) eqn:Hc; simpl; [|lia].
  destruct pre as [|c' pre].
  - simpl in Hlast. rewrite (Hlast c eq_refl) in Hc. discriminate.
  - apply -> Nat.succ_lt_mono. apply (IH (Some c)); [discriminate|exact Hlast].
Qed.

Lemma not_word_not_digit (o : option ascii) :
  not_word o -> forall c, o = Some c -> isdecimal c = false.
Proof.
  intros Hw c ->. unfold not_word in Hw. simpl in Hw.
  destruct (isdecimal c) eqn:Hd; [|reflexivity].
  now rewrite (isdecimal_isword _ Hd) in Hw.
Qed.

(** A match of [\b[0-9]{13,19}\b] is a whole run of 13 to 19 digits that
    touches no word character. *)
Lemma match_at_pan_pattern (prev : option ascii) (s : str) :
  Re.match_at SecureClient.pan_pattern prev s
  = if negb (Re.is_word_opt prev)
       && (13 <=? length (take_while isdecimal s))
       && (length (take_while isdecimal s) <=? 19)
       && negb (Re.is_word_opt (hd_error (drop_while isdecimal s)))
    then Some (drop_while isdecimal s)
    else None.
Proof.
  unfold Re.match_at, SecureClient.pan_pattern, Re.Cat.
  cbn [fold_right Re.rmatch].
  rewrite rep_whole_run; [| |discriminate].
  2:{ intros d c s' Hd Hc. cbn [Re.is_word_opt hd_error].
      now rewrite (isdecimal_isword _ Hd), (isdecimal_isword _ Hc). }
  cbn [allows].
  destruct (Nat.leb_spec 13 (length (take_while isdecimal s))) as [Hlen|Hlen];
    cbn [andb].
  - assert (Hne : take_while isdecimal s <> [])
      by (intros Heq; rewrite Heq in Hlen; simpl in Hlen; lia).
    destruct (take_while_head _ _ Hne) as (c & Hhd & Hc).
    destruct (prev_after_class _ _ prev Hne) as (d & Hd & Hpd).
    rewrite Hhd, Hd. cbn [Re.is_word_opt].
    rewrite (isdecimal_isword _ Hc), (isdecimal_isword _ Hpd).
    rewrite !xorb_true_r.
    destruct (Re.is_word_opt prev); cbn [negb andb]; [reflexivity|].
    destruct (_ <=? 19); reflexivity.
  - rewrite andb_false_r. cbn [andb].
    destruct (xorb _ _); reflexivity.
Qed.

Lemma finditer_from_ready (r : Re.regex) (prev : option ascii) (s : str)
      (pos : nat) :
  Re.finditer_from r prev s pos 0
  = match Re.match_at r prev s with
    | Some rest =>
        (pos, pos + Re.match_len s rest) ::
        match s with
        | c :: s' =>
            Re.finditer_from r (Some c) s' (S pos)
                             (Nat.pred (Re.match_len s rest))
        | [] => []
        end
    | None =>
        match s with
        | c :: s' => Re.finditer_from r (Some c) s' (S pos) 0
        | [] => []
        end
    end.
Proof. destruct s; reflexivity. Qed.

(** The scan reaches every bare run: an earlier match ends before it. *)
Lemma finditer_finds_run (run post : str) :
  forallb isdecimal run = true ->
  13 <= length run <= 19 ->
  not_word (hd_error post) ->
  forall (pre : str) (prev : option ascii) (pos skip : nat),
    skip <= length pre ->
    not_word (last_char prev pre) ->
    In (pos + length pre, pos + length pre + length run)
       (Re.finditer_from SecureClient.pan_pattern prev (pre ++ run ++ post)
                         pos skip).
Proof.
  intros Hrun Hlen Hpost.
  destruct (take_drop_run isdecimal run post Hrun (not_word_not_digit Hpost))
    as [Htake Hdrop].
  induction pre as [|c pre IH]; intros prev pos skip Hskip Hprev.
  - simpl in Hskip. assert (skip = 0) as -> by lia.
    cbn [app last_char] in *.
    rewrite finditer_from_ready, match_at_pan_pattern, Htake, Hdrop.
    unfold not_word in Hprev, Hpost. rewrite Hprev, Hpost.
    destruct Hlen as [Hlo Hhi].
    apply Nat.leb_le in Hlo, Hhi. rewrite Hlo, Hhi. cbn [negb andb].
    left. unfold Re.match_len. rewrite length_app, !Nat.add_0_r.
    f_equal. lia.
  - cbn [app length last_char] in *.
    replace (pos + S (length pre)) with (S pos + length pre) by lia.
    destruct skip as [|skip]; [rewrite finditer_from_ready|];
      cbn [Re.finditer_from].
    + destruct (Re.match_at _ _ _) as [rest|] eqn:Hm.
      * right. apply IH; [|exact Hprev].
        rewrite match_at_pan_pattern in Hm.
        destruct (_ && _) in Hm; [|discriminate].
        injection Hm as <-.
        pose proof (take_drop_length isdecimal (c :: pre ++ run ++ post))
          as Htd.
        pose proof (@take_while_stops isdecimal (c :: pre) (run ++ post) prev
                      ltac:(discriminate)
                      (not_word_not_digit Hprev)) as Hstop.
        change ((c :: pre) ++ run ++ post) with (c :: pre ++ run ++ post)
          in Hstop.
        change (length (c :: pre)) with (S (length pre)) in Hstop.
        unfold Re.match_len.
        change (if isdecimal c then drop_while isdecimal (pre ++ run ++ post)
                else c :: pre ++ run ++ post)
          with (drop_while isdecimal (c :: pre ++ run ++ post)).
        lia.
      * apply IH; [lia|exact Hprev].
    + apply IH; [lia|exact Hprev].
Qed.

Lemma findall_finds_run (s pre run post : str) :
  bare_digit_run s pre run post ->
  In run (Re.findall SecureClient.pan_pattern s).
Proof.
  intros (-> & Hrun & Hlen & Hpre & Hpost).
  unfold Re.findall, Re.finditer.
  apply in_map_iff. exists (length pre, length pre + length run).
  split.
  - unfold slice.
    replace (length pre + length run - length pre) with (length run) by lia.
    rewrite skipn_app, Nat.sub_diag, skipn_all. cbn [skipn app].
    rewrite firstn_app, Nat.sub_diag, firstn_all. cbn [firstn].
    apply app_nil_r.
  - apply (@finditer_finds_run run post Hrun Hlen Hpost pre None 0 0);
      [lia|exact Hpre].
Qed.

(** [str.lower] moves neither digits nor word boundaries. *)
Lemma lower_char_isword (c : ascii) : isword (lower_char c) = isword c.
Proof. destruct c as [[] [] [] [] [] [] [] []]; reflexivity. Qed.

Lemma lower_char_digit (c : ascii) : isdecimal c = true -> lower_char c = c.
Proof. destruct c as [[] [] [] [] [] [] [] []]; intros H; (reflexivity || discriminate). Qed.

Lemma lower_digits (run : str) : forallb isdecimal run = true -> lower run = run.
Proof.
  induction run as [|c run IH]; simpl; [reflexivity|].
  intros H. apply andb_true_iff in H as [Hc Hrun].
  now rewrite (lower_char_digit _ Hc), (IH Hrun).
Qed.

Lemma last_char_lower (pre : str) :
  forall prev,
    Re.is_word_opt (last_char (option_map lower_char prev) (lower pre))
    = Re.is_word_opt (last_char prev pre).
Proof.
  induction pre as [|c pre IH]; intros prev; simpl.
  - destruct prev; simpl; [apply lower_char_isword|reflexivity].
  - apply (IH (Some c)).
Qed.

Lemma bare_digit_run_lower (s pre run post : str) :
  bare_digit_run s pre run post ->
  bare_digit_run (lower s) (lower pre) run (lower post).
Proof.
  intros (-> & Hrun & Hlen & Hpre & Hpost).
  split; [|split; [assumption|split; [assumption|split]]].
  - unfold lower. rewrite !map_app. fold (lower run).
    now rewrite (lower_digits _ Hrun).
  - unfold not_word in *.
    now rewrite <- (last_char_lower pre None) in Hpre.
  - unfold not_word in *. destruct post as [|c post]; [reflexivity|].
    simpl in *. now rewrite lower_char_isword.
Qed.

Lemma looks_like_pan_run (run : str) :
  13 <= length run ->
  passes_luhn run ->
  startswith (L "201") run = false ->
  startswith (L "202") run = false ->
  SecureClient.looks_like_pan run = true.
Proof.
  intros Hlen Hluhn H201 H202. unfold SecureClient.looks_like_pan.
  apply Nat.leb_le in Hlen. rewrite Hlen, H201, H202. cbn [orb negb andb].
  rewrite luhn_loop_sum, Z.add_0_l. apply Z.eqb_eq. exact Hluhn.
Qed.

Section Gate.
Context {E : Extern}.
Variable server_url : option str.
Variable max_retries : nat.
Variable session : nat -> SecureClient.request -> SecureClient.response.

Lemma contains_sensitive_data_run (report : dict) (pre run post : str) :
  bare_digit_run (dumps false (JDict report)) pre run post ->
  passes_luhn run ->
  startswith (L "201") run = false ->
  startswith (L "202") run = false ->
  SecureClient._contains_sensitive_data report = true.
Proof.
  intros Hbare Hluhn H201 H202. unfold SecureClient._contains_sensitive_data.
  apply existsb_exists. exists run. split.
  - apply bare_digit_run_lower in Hbare.
    exact (findall_finds_run Hbare).
  - destruct Hbare as (_ & _ & [Hlen _] & _).
    now apply looks_like_pan_run.
Qed.

Lemma send_report_refuses (report : dict) :
  SecureClient._contains_sensitive_data report = true ->
  SecureClient.send_report server_url max_retries session report
  = (false, []).
Proof.
  intros Hgate. unfold SecureClient.send_report.
  destruct (SecureClient.scan_id_of report); [|reflexivity].
  unfold SecureClient._validate_report.
  destruct (negb (forallb _ SecureClient.required_fields)); [reflexivity|].
  cbv zeta. destruct (mapM _ _) as [present|]; [|reflexivity].
  cbn [bind]. destruct (negb _); [reflexivity|].
  rewrite Hgate. reflexivity.
Qed.

Lemma existsb_find {A : Type} (f : A -> bool) (l : list A) :
  existsb f l = true -> exists x : A, find f l = Some x.
Proof.
  induction l as [|a l IH]; cbn [existsb find]; [discriminate|].
  destruct (f a); [now exists a|exact IH].
Qed.

(** A report with the required fields that the gate refuses is reported as
    holding sensitive data. *)
Lemma send_report_log_sensitive (report : dict) :
  has_required_fields report = true ->
  SecureClient._contains_sensitive_data report = true ->
  exists warning : str,
    SecureClient.send_report_log report
    = [ SecureClient.Logged SecureClient.WARNING warning;
        SecureClient.Logged SecureClient.ERROR
          (L "Report contains prohibited sensitive data");
        SecureClient.Logged SecureClient.ERROR
          (L "Report validation failed") ].
Proof.
  intros Hfields Hgate. unfold has_required_fields in Hfields.
  apply andb_true_iff in Hfields as [Hsections Hmeta].
  destruct (get (L "metadata") report) as [[| | | | | |metadata|]|] eqn:Hget;
    try discriminate.
  assert (Hdefault : get_default (L "metadata") (JDict []) report
                     = JDict metadata)
    by (unfold get_default; now rewrite Hget).
  assert (Hfound : exists pan,
             find SecureClient.looks_like_pan
                  (Re.findall SecureClient.pan_pattern
                              (lower (dumps false (JDict report))))
             = Some pan)
    by (apply existsb_find; exact Hgate).
  destruct Hfound as (pan & Hpan).
  exists (L "Potential unmasked PAN detected in report: "
          ++ firstn 4 pan ++ L "****" ++ last_n 4 pan).
  unfold SecureClient.send_report_log, SecureClient.scan_id_of,
    SecureClient._validate_report_log, SecureClient._validate_report,
    SecureClient._contains_sensitive_data_log.
  cbv zeta. rewrite Hget, Hdefault, Hsections, Hpan, Hgate.
  unfold SecureClient.required_fields, SecureClient.required_metadata in *.
  cbn [forallb] in Hsections, Hmeta. cbn [find mapM SecureClient.field_in].
  repeat match type of Hsections with
         | _ && _ = true =>
             let H := fresh "H" in
             apply andb_true_iff in Hsections as [H Hsections]; rewrite H
         end.
  repeat match type of Hmeta with
         | _ && _ = true =>
             let H := fresh "H" in
             apply andb_true_iff in Hmeta as [H Hmeta]; rewrite H
         end.
  unfold mem in *. destruct (get (L "scan_id") metadata); [|discriminate].
  reflexivity.
Qed.

(** C2, as amended. If the JSON text of a report contains a bare digit run
    of 13 to 19 digits that passes the Luhn check and does not begin with
    201 or 202, [send_report] sends nothing to the server and returns
    false; when the report has the required fields, it reports the failure
    with the sensitive-data error: the log ends with the errors that the
    report holds prohibited sensitive data and that its validation
    failed. *)
Theorem send_report_refuses_digit_run (report : dict) (pre run post : str) :
  bare_digit_run (dumps false (JDict report)) pre run post ->
  passes_luhn run ->
  startswith (L "201") run = false ->
  startswith (L "202") run = false ->
  SecureClient.send_report server_url max_retries session report
  = (false, [])
  /\ (has_required_fields report = true ->
      exists warning : str,
        SecureClient.send_report_log report
        = [ SecureClient.Logged SecureClient.WARNING warning;
            SecureClient.Logged SecureClient.ERROR
              (L "Report contains prohibited sensitive data");
            SecureClient.Logged SecureClient.ERROR
              (L "Report validation failed") ]).
Proof.
  intros Hbare Hluhn H201 H202.
  pose proof (contains_sensitive_data_run Hbare Hluhn H201 H202) as Hgate.
  split.
  - now apply send_report_refuses.
  - intros Hfields. now apply send_report_log_sensitive.
Qed.

End Gate.

(** The Visa test number in the context of a finding stops the report. *)
Lemma send_report_refuses_digit_run_witness :
  exists pre post : str,
    bare_digit_run
      (dumps (E := sample_extern) false
             (JDict (report_with_context (L "4532015112830366"))))
      pre (L "4532015112830366") post
    /\ SecureClient.send_report (E := sample_extern)
         (Some (L "https://pci.example")) 3 accepting_server
         (report_with_context (L "4532015112830366"))
       = (false, [])
    /\ SecureClient.send_report_log
         (E := sample_extern) (report_with_context (L "4532015112830366"))
       = [ SecureClient.Logged
             SecureClient.WARNING
             (L "Potential unmasked PAN detected in report: 4532****0366");
           SecureClient.Logged SecureClient.ERROR
             (L "Report contains prohibited sensitive data");
           SecureClient.Logged SecureClient.ERROR
             (L "Report validation failed") ].
Proof.
  set (text := dumps (E := sample_extern) false
                     (JDict (report_with_context (L "4532015112830366")))).
  assert (Hbare : bare_digit_run text (firstn 248 text)
                                 (L "4532015112830366") (skipn 264 text)).
  { repeat split; try (vm_compute; reflexivity).
    - apply Nat.leb_le. vm_compute. reflexivity.
    - apply Nat.leb_le. vm_compute. reflexivity. }
  exists (firstn 248 text), (skipn 264 text). split; [exact Hbare|].
  destruct (@send_report_refuses_digit_run
              sample_extern (Some (L "https://pci.example")) 3
              accepting_server _ _ _ _ Hbare)
    as [Hrefused Hlog]; try (vm_compute; reflexivity).
  split; [exact Hrefused|].
  destruct (Hlog eq_refl) as (warning & _). vm_compute. reflexivity.
Defined.

(** C2, as stated, fails twice.  A bare run of sixteen digits that passes
    the Luhn check but begins with 201 goes through the gate, and the
    report is posted.  And a report that holds the Visa test number but
    lacks a required section is refused at the first check: the error
    reported is the missing field, not the sensitive data. *)
Lemma digit_run_201_is_posted :
  (exists (pre post : str) (sent : SecureClient.request),
      bare_digit_run
        (dumps (E := sample_extern) false
               (JDict (report_with_context (L "2010000000000004"))))
        pre (L "2010000000000004") post
      /\ passes_luhn (L "2010000000000004")
      /\ SecureClient.send_report (E := sample_extern)
           (Some (L "https://pci.example")) 3 accepting_server
           (report_with_context (L "2010000000000004"))
         = (true, [sent]))
  /\ (exists pre post : str,
         bare_digit_run
           (dumps (E := sample_extern) false
                  (JDict (report_without_notes (L "4532015112830366"))))
           pre (L "4532015112830366") post
         /\ passes_luhn (L "4532015112830366")
         /\ SecureClient.send_report (E := sample_extern)
              (Some (L "https://pci.example")) 3 accepting_server
              (report_without_notes (L "4532015112830366"))
            = (false, [])
         /\ SecureClient.send_report_log
              (E := sample_extern)
              (report_without_notes (L "4532015112830366"))
            = [ SecureClient.Logged
                  SecureClient.ERROR
                  (L "Missing required field in report: compliance_notes");
                SecureClient.Logged SecureClient.ERROR
                  (L "Report validation failed") ]).
Proof.
  split.
  - set (text := dumps (E := sample_extern) false
                       (JDict (report_with_context (L "2010000000000004")))).
    exists (firstn 248 text), (skipn 264 text). eexists.
    split; [|split]; [| vm_compute; reflexivity | vm_compute; reflexivity].
    repeat split; try (vm_compute; reflexivity).
    + apply Nat.leb_le. vm_compute. reflexivity.
    + apply Nat.leb_le. vm_compute. reflexivity.
  - set (text := dumps (E := sample_extern) false
                       (JDict (report_without_notes (L "4532015112830366")))).
    exists (firstn 248 text), (skipn 264 text).
    split; [|split; [|split]]; try (vm_compute; reflexivity).
    repeat split; try (vm_compute; reflexivity).
    + apply Nat.leb_le. vm_compute. reflexivity.
    + apply Nat.leb_le. vm_compute. reflexivity.
Qed.

(** ** The substitutions of the path sanitiser *)

Lemma rmatch_literal (A : Type) (k : Re.cont A) (lit : str) :
  forall (prev : option ascii) (s : str),
    Re.rmatch (Re.Cat (map Re.Ch lit)) prev s k
    = match strip lit s with
      | Some s' => k (last_char prev lit) s'
      | None => None
      end.
Proof.
  induction lit as [|a lit IH]; intros prev s; [reflexivity|].
  cbn [map Re.Cat fold_right Re.rmatch Re.Ch strip last_char].
  destruct s as [|b s]; [reflexivity|].
  destruct (Ascii.eqb a b) eqn:Hab; [|reflexivity].
  apply Ascii.eqb_eq in Hab. subst b. apply IH.
Qed.

Lemma drop_while_head (p : ascii -> bool) (s : str) (a : ascii) (rest : str) :
  drop_while p s = a :: rest -> p a = false.
Proof.
  induction s as [|c s IH]; simpl; [discriminate|].
  destruct (p c) eqn:Hc; [exact IH|]. now intros [= <- _].
Qed.

Lemma not_char_false (x a : ascii) :
  UserPaths.not_char x a = false -> a = x.
Proof.
  unfold UserPaths.not_char. intros H. apply negb_false_iff in H.
  now apply Ascii.eqb_eq in H.
Qed.

Lemma not_char_same (x : ascii) : UserPaths.not_char x x = false.
Proof. unfold UserPaths.not_char. now rewrite Ascii.eqb_refl. Qed.

Lemma take_drop_app (p : ascii -> bool) (s : str) :
  s = take_while p s ++ drop_while p s.
Proof.
  induction s as [|c s IH]; simpl; [reflexivity|].
  destruct (p c); simpl; [now f_equal|reflexivity].
Qed.

Lemma take_while_all (p : ascii -> bool) (s : str) :
  forallb p (take_while p s) = true.
Proof.
  induction s as [|c s IH]; simpl; [reflexivity|].
  destruct (p c) eqn:Hc; simpl; [now rewrite Hc|reflexivity].
Qed.

Lemma strip_app (lit s : str) : strip lit (lit ++ s) = Some s.
Proof.
  induction lit as [|a lit IH]; simpl; [reflexivity|].
  now rewrite Ascii.eqb_refl.
Qed.

Lemma strip_inv (lit s s' : str) : strip lit s = Some s' -> s = lit ++ s'.
Proof.
  revert s. induction lit as [|a lit IH]; intros s H; simpl in *.
  - now injection H as ->.
  - destruct s as [|b s]; [discriminate|].
    destruct (Ascii.eqb a b) eqn:Hab; [|discriminate].
    apply Ascii.eqb_eq in Hab. subst b. f_equal. now apply IH.
Qed.

Section LitHome.
Variable lit : str.
Variable x : ascii.
Variable repl : str.

Let r : Re.regex := lit_home lit x.

(** A match does not depend on the character before it. *)
Lemma match_at_lit_home (prev : option ascii) (s : str) :
  Re.match_at r prev s = lit_match lit x s.
Proof.
  unfold Re.match_at, r, lit_home, lit_match.
  cbn [Re.Cat fold_right Re.rmatch]. fold (Re.Cat (map Re.Ch lit)).
  rewrite rmatch_literal.
  destruct (strip lit s) as [s'|]; [|reflexivity].
  unfold Re.AtLeast. cbn [Re.rmatch].
  rewrite rep_whole_run; [| |discriminate].
  2:{ intros d c s0 _ Hc. unfold Re.Ch. cbn [Re.rmatch].
      unfold UserPaths.not_char in Hc. apply negb_true_iff in Hc.
      rewrite Ascii.eqb_sym. now rewrite Hc. }
  cbn [allows]. rewrite andb_true_r. unfold name_match.
  destruct (take_while (UserPaths.not_char x) s') as [|c name];
    cbn [length Nat.leb]; [reflexivity|].
  destruct (drop_while (UserPaths.not_char x) s') as [|a rest] eqn:Hdrop;
    unfold Re.Ch; cbn [Re.rmatch]; [reflexivity|].
  apply drop_while_head, not_char_false in Hdrop. subst a.
  now rewrite Ascii.eqb_refl.
Qed.

Lemma name_match_inv (s rest : str) :
  name_match x s = Some rest <->
  exists name,
    name <> [] /\ forallb (UserPaths.not_char x) name = true
    /\ s = name ++ x :: rest.
Proof.
  unfold name_match. split.
  - intros H.
    destruct (take_while (UserPaths.not_char x) s) as [|c name] eqn:Htake;
      [discriminate|].
    destruct (drop_while (UserPaths.not_char x) s) as [|a rest'] eqn:Hdrop;
      [discriminate|].
    injection H as ->.
    pose proof (drop_while_head _ _ Hdrop) as Ha.
    apply not_char_false in Ha. subst a.
    exists (c :: name). split; [discriminate|]. split.
    + rewrite <- Htake. apply take_while_all.
    + rewrite <- Htake, <- Hdrop. apply take_drop_app.
  - intros (name & Hne & Hall & ->).
    assert (Hpost : forall c, hd_error (x :: rest) = Some c ->
                              UserPaths.not_char x c = false)
      by (intros c [= <-]; apply not_char_same).
    destruct (take_drop_run _ name (x :: rest) Hall Hpost) as [-> ->].
    destruct name; [congruence|reflexivity].
Qed.

Lemma lit_match_inv (s rest : str) :
  lit_match lit x s = Some rest <->
  exists name,
    name <> [] /\ forallb (UserPaths.not_char x) name = true
    /\ s = lit ++ name ++ x :: rest.
Proof.
  unfold lit_match. split.
  - destruct (strip lit s) as [s'|] eqn:Hstrip; [|discriminate].
    intros H. apply name_match_inv in H as (name & Hne & Hall & ->).
    apply strip_inv in Hstrip. now exists name.
  - intros (name & Hne & Hall & ->). rewrite strip_app.
    apply name_match_inv. now exists name.
Qed.

(** The substitution, from a position where no match is in progress. *)
Definition subst (s : str) : str := Re.sub_from r repl None s 0.

Lemma sub_from_prev (s : str) :
  forall (prev : option ascii) (skip : nat),
    Re.sub_from r repl prev s skip = Re.sub_from r repl None s skip.
Proof.
  induction s as [|c s IH]; intros prev skip.
  - destruct skip; cbn [Re.sub_from]; [|reflexivity].
    now rewrite !match_at_lit_home.
  - destruct skip; cbn [Re.sub_from]; [|reflexivity].
    now rewrite !match_at_lit_home.
Qed.

Lemma sub_from_skip (m rest : str) :
  forall prev,
    Re.sub_from r repl prev (m ++ rest) (length m) = subst rest.
Proof.
  induction m as [|c m IH]; intros prev; cbn [app length].
  - apply sub_from_prev.
  - cbn [Re.sub_from]. apply IH.
Qed.

Lemma subst_nil : lit <> [] -> subst [] = [].
Proof.
  intros Hlit. unfold subst. cbn [Re.sub_from].
  rewrite match_at_lit_home. unfold lit_match.
  destruct lit; [congruence|reflexivity].
Qed.

Lemma subst_match (s rest : str) :
  lit_match lit x s = Some rest -> subst s = repl ++ subst rest.
Proof.
  intros Hm. pose proof Hm as Hinv.
  apply lit_match_inv in Hinv as (name & Hne & _ & Hs).
  unfold subst.
  assert (Hunfold :
            Re.sub_from r repl None s 0
            = repl ++
              match s with
              | c :: s' =>
                  (if Re.match_len s rest =? 0 then [c] else []) ++
                  Re.sub_from r repl (Some c) s'
                              (Nat.pred (Re.match_len s rest))
              | [] => []
              end).
  { destruct s; cbn [Re.sub_from]; now rewrite match_at_lit_home, Hm. }
  rewrite Hunfold. f_equal.
  assert (Hlen : Re.match_len s rest = length (lit ++ name) + 1).
  { unfold Re.match_len. rewrite Hs. repeat rewrite length_app.
    cbn [length]. lia. }
  rewrite Hlen.
  destruct (lit ++ name) as [|c m] eqn:Hm'.
  { destruct lit; [destruct name; [congruence|discriminate]|discriminate]. }
  rewrite app_assoc in Hs. rewrite Hm' in Hs. subst s.
  cbn [app length Nat.add Nat.eqb Nat.pred].
  replace (length m + 1) with (length (m ++ [x])) by (rewrite length_app; reflexivity).
  replace (m ++ x :: rest) with ((m ++ [x]) ++ rest)
    by (rewrite <- app_assoc; reflexivity).
  apply sub_from_skip.
Qed.

Lemma subst_no_match (c : ascii) (s : str) :
  lit_match lit x (c :: s) = None -> subst (c :: s) = c :: subst s.
Proof.
  intros Hm. unfold subst. cbn [Re.sub_from].
  rewrite match_at_lit_home, Hm. f_equal. apply sub_from_prev.
Qed.

End LitHome.

Unset Implicit Arguments.

(** Two texts cut at the first separator are cut at the same place. *)
Lemma split_unique (x : ascii) (a : str) :
  forall (b u v : str),
    forallb (UserPaths.not_char x) a = true ->
    forallb (UserPaths.not_char x) b = true ->
    a ++ x :: u = b ++ x :: v ->
    a = b /\ u = v.
Proof.
  induction a as [|c a IH]; intros [|d b] u v Ha Hb Heq; simpl in *.
  - injection Heq as ->. auto.
  - injection Heq as <- _. apply andb_true_iff in Hb as [Hd _].
    now rewrite not_char_same in Hd.
  - injection Heq as -> _. apply andb_true_iff in Ha as [Hc _].
    now rewrite not_char_same in Hc.
  - injection Heq as -> Heq.
    apply andb_true_iff in Ha as [_ Ha], Hb as [_ Hb].
    destruct (IH b u v Ha Hb Heq) as [-> ->]. auto.
Qed.

Section Home.
Variable x : ascii.

Let xfree (w : str) : Prop := forallb (UserPaths.not_char x) w = true.

Hypothesis users_free : xfree (L "Users").
Hypothesis user_free : xfree (L "<user>").

Let M : str -> option str := lit_match (users_dir x) x.
Let S : str -> str := subst (users_dir x) x (user_repl x).

Lemma home_match_inv (s rest : str) :
  M s = Some rest <->
  exists name,
    name <> [] /\ xfree name /\ s = x :: L "Users" ++ x :: name ++ x :: rest.
Proof.
  unfold M. rewrite lit_match_inv. unfold users_dir.
  split; intros (name & Hne & Hall & ->); exists name;
    (split; [assumption|split; [assumption|]]);
    cbn [app]; now rewrite <- app_assoc.
Qed.

Lemma home_match_shorter (s rest : str) :
  M s = Some rest -> length rest < length s.
Proof.
  intros H. apply home_match_inv in H as (name & _ & _ & ->).
  cbn [length]. rewrite length_app. cbn [length]. rewrite length_app.
  cbn [length]. lia.
Qed.

Lemma home_subst_nil : S [] = [].
Proof. apply subst_nil. discriminate. Qed.

Lemma home_subst_match (s rest : str) :
  M s = Some rest -> S s = user_repl x ++ S rest.
Proof. apply subst_match. Qed.

Lemma home_subst_no_match (c : ascii) (s : str) :
  M (c :: s) = None -> S (c :: s) = c :: S s.
Proof. apply subst_no_match. Qed.

(** The replacement is itself a match, whatever follows it. *)
Lemma home_match_repl (rest : str) : M (user_repl x ++ rest) = Some rest.
Proof.
  apply home_match_inv. exists (L "<user>").
  split; [discriminate|]. split; [exact user_free|].
  unfold user_repl, users_dir. cbn [app].
  now rewrite <- !app_assoc.
Qed.

(** A match starts with the separator. *)
Lemma home_match_other (c : ascii) (s : str) :
  UserPaths.not_char x c = true -> M (c :: s) = None.
Proof.
  intros Hc. destruct (M (c :: s)) as [rest|] eqn:Hm; [|reflexivity].
  apply home_match_inv in Hm as (name & _ & _ & [= -> _]).
  now rewrite not_char_same in Hc.
Qed.

Lemma home_subst_free (w rest : str) :
  xfree w -> S (w ++ rest) = w ++ S rest.
Proof.
  induction w as [|c w IH]; intros Hw; [reflexivity|].
  apply andb_true_iff in Hw as [Hc Hw]. cbn [app].
  rewrite home_subst_no_match by now apply home_match_other.
  now rewrite IH.
Qed.

(** A text without separator at the head of the result was copied. *)
Lemma home_subst_copied (w : str) :
  forall (s rest : str),
    xfree w -> S s = w ++ rest ->
    exists s0, s = w ++ s0 /\ S s0 = rest.
Proof.
  induction w as [|c w IH]; intros s rest Hw Heq.
  - now exists s.
  - apply andb_true_iff in Hw as [Hc Hw].
    destruct s as [|a s]; [rewrite home_subst_nil in Heq; discriminate|].
    destruct (M (a :: s)) as [rest0|] eqn:Hm.
    + rewrite (home_subst_match _ _ Hm) in Heq.
      injection Heq as <- _. now rewrite not_char_same in Hc.
    + rewrite (home_subst_no_match _ _ Hm) in Heq.
      injection Heq as -> Heq.
      destruct (IH s rest Hw Heq) as (s0 & -> & Hs0). now exists s0.
Qed.

Lemma home_subst_separator (s rest : str) :
  S s = x :: rest -> exists s', s = x :: s'.
Proof.
  intros Heq.
  destruct s as [|a s]; [rewrite home_subst_nil in Heq; discriminate|].
  destruct (M (a :: s)) as [rest0|] eqn:Hm.
  - apply home_match_inv in Hm as (name & _ & _ & [= -> _]). now exists s.
  - rewrite (home_subst_no_match _ _ Hm) in Heq.
    injection Heq as -> _. now exists s.
Qed.

(** The substitution creates no match at a place it copied. *)
Lemma home_subst_no_new_match (c : ascii) (s : str) :
  M (c :: s) = None -> M (c :: S s) = None.
Proof.
  intros Hnone. destruct (M (c :: S s)) as [rest|] eqn:Hm; [|reflexivity].
  exfalso.
  apply home_match_inv in Hm as (name & Hne & Hname & [= -> Hs]).
  destruct (home_subst_copied _ _ _ users_free Hs) as (s0 & -> & Hs0).
  destruct (home_subst_separator _ _ Hs0) as (s1 & ->).
  assert (Hsome : exists rest', M (x :: L "Users" ++ x :: s1) = Some rest').
  { destruct (M (x :: s1)) as [rest1|] eqn:Hm1.
    - apply home_match_inv in Hm1 as (name1 & _ & _ & [= ->]).
      exists (name1 ++ x :: rest1). apply home_match_inv.
      exists (L "Users"). split; [discriminate|]. split; [exact users_free|].
      reflexivity.
    - rewrite (home_subst_no_match _ _ Hm1) in Hs0.
      injection Hs0 as Hs0.
      destruct (home_subst_copied _ _ _ Hname Hs0) as (s2 & -> & Hs2).
      destruct (home_subst_separator _ _ Hs2) as (s3 & ->).
      exists s3. apply home_match_inv. now exists name. }
  destruct Hsome as [rest' Hsome]. congruence.
Qed.

(** One substitution is idempotent. *)
Lemma home_subst_idempotent (s : str) : S (S s) = S s.
Proof.
  remember (length s) as n eqn:Hn.
  revert s Hn. induction n as [n IH] using lt_wf_ind. intros s Hn.
  destruct s as [|c s]; [now rewrite !home_subst_nil|].
  destruct (M (c :: s)) as [rest|] eqn:Hm.
  - rewrite (home_subst_match _ _ Hm).
    rewrite (home_subst_match _ _ (home_match_repl _)).
    f_equal. apply (IH (length rest)); [|reflexivity].
    subst n. now apply home_match_shorter.
  - rewrite (home_subst_no_match _ _ Hm).
    rewrite (home_subst_no_match _ _ (home_subst_no_new_match _ _ Hm)).
    f_equal. apply (IH (length s)); [|reflexivity].
    subst n. cbn [length]. lia.
Qed.

(** In a text the substitution leaves alone, every match the scan meets is
    the replacement. *)
Lemma home_fixed_match (s rest : str) :
  S s = s -> M s = Some rest ->
  s = user_repl x ++ rest /\ S rest = rest.
Proof.
  intros Hfix Hm. pose proof Hm as Hinv.
  apply home_match_inv in Hinv as (name & _ & Hname & Hs).
  rewrite (home_subst_match _ _ Hm) in Hfix.
  rewrite Hs in Hfix.
  unfold user_repl, users_dir in Hfix. cbn [app] in Hfix.
  rewrite <- !app_assoc in Hfix. cbn [app] in Hfix.
  injection Hfix as Hfix.
  change (L "<user>" ++ x :: S rest = name ++ x :: rest) in Hfix.
  destruct (split_unique x _ _ _ _ user_free Hname Hfix) as [<- Hrest].
  split; [|exact Hrest].
  rewrite Hs. unfold user_repl, users_dir. cbn [app].
  now rewrite <- !app_assoc.
Qed.

Lemma home_fixed_tail (c : ascii) (s : str) :
  S (c :: s) = c :: s -> M (c :: s) = None -> S s = s.
Proof.
  intros Hfix Hm. rewrite (home_subst_no_match _ _ Hm) in Hfix.
  now injection Hfix.
Qed.

End Home.

Lemma free_not_In (x : ascii) (w : str) :
  forallb (UserPaths.not_char x) w = true -> ~ In x w.
Proof.
  intros Hw Hin. rewrite forallb_forall in Hw.
  apply Hw in Hin. now rewrite not_char_same in Hin.
Qed.

Lemma not_In_free (x : ascii) (w : str) :
  ~ In x w -> forallb (UserPaths.not_char x) w = true.
Proof.
  intros Hin. apply forallb_forall. intros c Hc.
  unfold UserPaths.not_char. apply negb_true_iff.
  destruct (Ascii.eqb c x) eqn:Heq; [|reflexivity].
  apply Ascii.eqb_eq in Heq. subst c. contradiction.
Qed.

(** A text without [y] at the head of [a ++ y :: rest] lies in [a]. *)
Lemma prefix_free (y : ascii) (w : str) :
  forall (a tail rest : str),
    forallb (UserPaths.not_char y) w = true ->
    w ++ tail = a ++ y :: rest ->
    exists a', a = w ++ a' /\ tail = a' ++ y :: rest.
Proof.
  induction w as [|c w IH]; intros a tail rest Hw Heq.
  - now exists a.
  - apply andb_true_iff in Hw as [Hc Hw].
    destruct a as [|d a]; cbn [app] in Heq.
    + injection Heq as -> _. now rewrite not_char_same in Hc.
    + injection Heq as -> Heq.
      destruct (IH a tail rest Hw Heq) as (a' & -> & ->). now exists a'.
Qed.

Section Cross.
Variables x y : ascii.

Hypothesis x_not_y : UserPaths.not_char x y = true.
Hypothesis y_not_x : UserPaths.not_char y x = true.
Hypothesis users_free_x : forallb (UserPaths.not_char x) (L "Users") = true.
Hypothesis user_free_x : forallb (UserPaths.not_char x) (L "<user>") = true.
Hypothesis users_free_y : forallb (UserPaths.not_char y) (L "Users") = true.
Hypothesis user_free_y : forallb (UserPaths.not_char y) (L "<user>") = true.

Local Notation "'Mx'" := (lit_match (users_dir x) x).
Local Notation "'Sx'" := (subst (users_dir x) x (user_repl x)).
Local Notation "'My'" := (lit_match (users_dir y) y).
Local Notation "'Sy'" := (subst (users_dir y) y (user_repl y)).

Lemma repl_y_free_x : forallb (UserPaths.not_char x) (user_repl y) = true.
Proof.
  unfold user_repl, users_dir. cbn [app].
  rewrite <- !app_assoc.
  cbn [forallb]. rewrite x_not_y. cbn [andb].
  rewrite !forallb_app. cbn [forallb].
  now rewrite users_free_x, user_free_x, x_not_y.
Qed.

Lemma repl_x_free_y : forallb (UserPaths.not_char y) (user_repl x) = true.
Proof.
  unfold user_repl, users_dir. cbn [app].
  rewrite <- !app_assoc.
  cbn [forallb]. rewrite y_not_x. cbn [andb].
  rewrite !forallb_app. cbn [forallb].
  now rewrite users_free_y, user_free_y, y_not_x.
Qed.

(** The substitution for [y] brings in no [x]. *)
Lemma subst_y_no_new_x (s : str) : In x (Sy s) -> In x s.
Proof.
  remember (length s) as n eqn:Hn.
  revert s Hn. induction n as [n IH] using lt_wf_ind. intros s Hn Hin.
  destruct s as [|c s];
    [now rewrite (home_subst_nil y) in Hin|].
  destruct (My (c :: s)) as [rest|] eqn:Hm.
  - rewrite (home_subst_match y _ _ Hm) in Hin.
    apply in_app_or in Hin as [Hin|Hin];
      [now apply (free_not_In _ _ repl_y_free_x) in Hin|].
    apply (IH (length rest)) in Hin;
      [|subst n; now apply (home_match_shorter y)|reflexivity].
    apply (home_match_inv y) in Hm as (name & _ & _ & ->).
    right. apply in_or_app. right. right. apply in_or_app. right.
    now right.
  - rewrite (home_subst_no_match y _ _ Hm) in Hin.
    destruct Hin as [->|Hin]; [now left|]. right.
    apply (IH (length s)); [subst n; cbn [length]; lia|reflexivity|exact Hin].
Qed.

(** The substitution for [y] creates no match for [x]. *)
Lemma subst_y_no_new_match_x (s : str) :
  Mx (x :: s) = None -> Mx (x :: Sy s) = None.
Proof.
  intros Hnone. destruct (Mx (x :: Sy s)) as [rest|] eqn:Hm; [|reflexivity].
  exfalso.
  apply (home_match_inv x) in Hm as (name & Hne & Hname & [= Hs]).
  destruct (home_subst_copied y _ _ _ users_free_y Hs)
    as (s0 & -> & Hs0).
  assert (Hx : forallb (UserPaths.not_char y) [x] = true)
    by (cbn [forallb]; now rewrite y_not_x).
  destruct (home_subst_copied y [x] _ _ Hx Hs0)
    as (s1 & -> & Hs1).
  assert (Hin : In x s1).
  { apply subst_y_no_new_x. rewrite Hs1.
    apply in_or_app. right. now left. }
  assert (Hhead : take_while (UserPaths.not_char x) s1 <> []).
  { destruct s1 as [|a s1]; [destruct Hin|].
    cbn [take_while].
    destruct (UserPaths.not_char x a) eqn:Ha; [discriminate|].
    apply not_char_false in Ha. subst a.
    rewrite (home_subst_no_match y) in Hs1
      by (apply (home_match_other y); exact y_not_x).
    destruct name as [|d name]; [congruence|].
    injection Hs1 as <- _. cbn [forallb] in Hname.
    now rewrite not_char_same in Hname. }
  destruct (drop_while (UserPaths.not_char x) s1) as [|a rest'] eqn:Hdrop.
  { apply (free_not_In x s1); [|exact Hin].
    rewrite (take_drop_app (UserPaths.not_char x) s1), Hdrop, app_nil_r.
    apply take_while_all. }
  pose proof (drop_while_head _ _ Hdrop) as Ha.
  apply not_char_false in Ha. subst a.
  assert (Hsome : Mx (x :: L "Users" ++ [x] ++ s1) = Some rest').
  { apply (home_match_inv x).
    exists (take_while (UserPaths.not_char x) s1).
    split; [exact Hhead|]. split; [apply take_while_all|].
    rewrite <- Hdrop, <- take_drop_app. reflexivity. }
  cbn [app] in Hsome, Hnone. congruence.
Qed.

(** In a text the substitution for [x] leaves alone, what follows a [y] is
    left alone as well. *)
Lemma fixed_after_y (a : str) :
  forall rest, Sx (a ++ y :: rest) = a ++ y :: rest -> Sx rest = rest.
Proof.
  remember (length a) as n eqn:Hn.
  revert a Hn. induction n as [n IH] using lt_wf_ind. intros a Hn rest Hfix.
  destruct a as [|c a]; cbn [app] in Hfix.
  - apply (home_fixed_tail x _ _ Hfix).
    apply (home_match_other x). exact x_not_y.
  - destruct (Mx (c :: a ++ y :: rest)) as [rest0|] eqn:Hm.
    + destruct (home_fixed_match x user_free_x _ _ Hfix Hm) as [Heq Hrest0].
      change (c :: a ++ y :: rest) with ((c :: a) ++ y :: rest) in Heq.
      symmetry in Heq.
      destruct (prefix_free y _ _ _ _ repl_x_free_y Heq) as (a' & Ha & ->).
      apply (IH (length a')) with (a := a'); [|reflexivity|exact Hrest0].
      subst n. rewrite Ha, length_app. unfold user_repl, users_dir.
      cbn [length app]. lia.
    + apply (home_fixed_tail x _ _ Hfix) in Hm.
      apply (IH (length a)) with (a := a); [|reflexivity|exact Hm].
      subst n. cbn [length]. lia.
Qed.

(** The substitution for [y] keeps a text that the substitution for [x]
    leaves alone in that state. *)
Lemma subst_y_keeps_fixed_x (s : str) : Sx s = s -> Sx (Sy s) = Sy s.
Proof.
  remember (length s) as n eqn:Hn.
  revert s Hn. induction n as [n IH] using lt_wf_ind. intros s Hn Hfix.
  destruct s as [|c s].
  { rewrite (home_subst_nil y). apply (home_subst_nil x). }
  destruct (My (c :: s)) as [rest|] eqn:Hmy.
  - rewrite (home_subst_match y _ _ Hmy). rewrite (home_subst_free x _ _ repl_y_free_x).
    f_equal. apply (IH (length rest));
      [subst n; now apply (home_match_shorter y)|reflexivity|].
    apply (home_match_inv y) in Hmy as (name & _ & _ & Hs).
    rewrite Hs in Hfix.
    change (y :: L "Users" ++ y :: name ++ y :: rest)
      with ((y :: L "Users") ++ y :: name ++ y :: rest) in Hfix.
    rewrite app_comm_cons, app_assoc in Hfix.
    exact (fixed_after_y _ _ Hfix).
  - destruct (Mx (c :: s)) as [rest0|] eqn:Hmx.
    + destruct (home_fixed_match x user_free_x _ _ Hfix Hmx) as [Heq Hrest0].
      rewrite Heq.
      rewrite (home_subst_free y _ _ repl_x_free_y).
      rewrite (home_subst_match x _ _ (home_match_repl x user_free_x _)). f_equal.
      apply (IH (length rest0));
        [subst n; now apply (home_match_shorter x)|reflexivity|exact Hrest0].
    + rewrite (home_subst_no_match y _ _ Hmy).
      assert (Hnone : Mx (c :: Sy s) = None).
      { destruct (UserPaths.not_char x c) eqn:Hc.
        - now apply (home_match_other x).
        - apply not_char_false in Hc. subst c.
          now apply subst_y_no_new_match_x. } rewrite (home_subst_no_match x _ _ Hnone).
      f_equal. apply (IH (length s));
        [subst n; cbn [length]; lia|reflexivity|].
      exact (home_fixed_tail x _ _ Hfix Hmx).
Qed.

End Cross.

Section Drive.
Variable y : ascii.

Hypothesis y_not_C : UserPaths.not_char "C" y = true.
Hypothesis colon_free : UserPaths.not_char y ":" = true.
Hypothesis users_free_y : forallb (UserPaths.not_char y) (L "Users") = true.
Hypothesis user_free_y : forallb (UserPaths.not_char y) (L "<user>") = true.

Local Notation "'My'" := (lit_match (users_dir y) y).
Local Notation "'Sy'" := (subst (users_dir y) y (user_repl y)).
Local Notation "'Md'" := (lit_match (L "C:" ++ users_dir y) y).
Local Notation "'Sd'" :=
  (subst (L "C:" ++ users_dir y) y (L "C:" ++ user_repl y)).

Lemma drive_match_inv (s rest : str) :
  Md s = Some rest <->
  exists s0, s = "C"%char :: ":"%char :: s0 /\ My s0 = Some rest.
Proof.
  rewrite lit_match_inv. split.
  - intros (name & Hne & Hname & ->).
    exists (users_dir y ++ name ++ y :: rest). split; [reflexivity|].
    apply lit_match_inv. now exists name.
  - intros (s0 & -> & Hm).
    apply lit_match_inv in Hm as (name & Hne & Hname & ->).
    now exists name.
Qed.

Lemma drive_match_other (c : ascii) (s : str) :
  UserPaths.not_char "C" c = true -> Md (c :: s) = None.
Proof.
  intros Hc. destruct (Md (c :: s)) as [rest|] eqn:Hm; [|reflexivity].
  apply drive_match_inv in Hm as (s0 & [= -> _] & _).
  now rewrite not_char_same in Hc.
Qed.

Lemma drive_subst_free (w rest : str) :
  forallb (UserPaths.not_char "C") w = true -> Sd (w ++ rest) = w ++ Sd rest.
Proof.
  induction w as [|c w IH]; intros Hw; [reflexivity|].
  apply andb_true_iff in Hw as [Hc Hw]. cbn [app].
  rewrite subst_no_match by now apply drive_match_other.
  now rewrite IH.
Qed.

Lemma repl_free_C : forallb (UserPaths.not_char "C") (user_repl y) = true.
Proof.
  unfold user_repl, users_dir. cbn [app].
  rewrite <- !app_assoc.
  cbn [forallb]. rewrite y_not_C. cbn [andb].
  rewrite !forallb_app. cbn [forallb]. rewrite y_not_C. reflexivity.
Qed.

(** After the substitution for [y], the substitution behind the drive letter
    finds only what is already replaced. *)
Lemma drive_subst_after_home (s : str) : Sd (Sy s) = Sy s.
Proof.
  remember (length s) as n eqn:Hn.
  revert s Hn. induction n as [n IH] using lt_wf_ind. intros s Hn.
  destruct s as [|c s].
  { rewrite (home_subst_nil y). apply subst_nil. discriminate. }
  destruct (My (c :: s)) as [rest|] eqn:Hmy.
  - rewrite (home_subst_match y _ _ Hmy).
    rewrite (drive_subst_free _ _ repl_free_C). f_equal.
    apply (IH (length rest)); [|reflexivity].
    subst n. now apply (home_match_shorter y).
  - rewrite (home_subst_no_match y _ _ Hmy).
    destruct (Md (c :: Sy s)) as [rest'|] eqn:Hmd.
    + pose proof Hmd as Hinv.
      apply drive_match_inv in Hinv as (z & [= -> Hz] & Hmz).
      assert (Hcolon : forallb (UserPaths.not_char y) [":"%char] = true)
        by (cbn [forallb]; now rewrite colon_free).
      destruct (home_subst_copied y [":"%char] s z Hcolon Hz)
        as (s1 & -> & Hs1).
      rewrite (home_subst_free y _ _ Hcolon) in Hmd |- *.
      destruct s1 as [|b s1].
      { rewrite (home_subst_nil y) in Hs1. subst z. discriminate. }
      destruct (My (b :: s1)) as [rest2|] eqn:Hm1.
      * rewrite (home_subst_match y _ _ Hm1) in Hs1. subst z.
        rewrite (home_match_repl y user_free_y) in Hmz.
        injection Hmz as <-.
        rewrite (subst_match _ _ _ _ Hmd).
        rewrite (home_subst_match y _ _ Hm1).
        change ((L "C:" ++ user_repl y) ++ Sd (Sy rest2)
                = (L "C:" ++ user_repl y) ++ Sy rest2).
        f_equal.
        apply (IH (length rest2)); [|reflexivity].
        subst n. pose proof (home_match_shorter y _ _ Hm1) as Hlt.
        cbn [length app] in *. lia.
      * rewrite (home_subst_no_match y _ _ Hm1) in Hs1. subst z.
        rewrite (home_subst_no_new_match y users_free_y _ _ Hm1) in Hmz.
        discriminate.
    + rewrite (subst_no_match _ _ _ _ _ Hmd). f_equal.
      apply (IH (length s)); [|reflexivity].
      subst n. cbn [length]. lia.
Qed.

End Drive.

(** [ReportGenerator._sanitize_file_path] changes nothing in a path it has
    sanitised. *)
Lemma sanitized_path_idempotent (file_path : str) :
  sanitized_path (sanitized_path file_path) = sanitized_path file_path.
Proof.
  assert (Hshape :
            forall s,
              sanitized_path s
              = subst (L "C:" ++ users_dir "\") "\" (L "C:" ++ user_repl "\")
                  (subst (users_dir "\") "\" (user_repl "\")
                     (subst (users_dir "/") "/" (user_repl "/") s)))
    by reflexivity.
  rewrite !Hshape.
  set (unix := subst (users_dir "/") "/" (user_repl "/")).
  set (windows := subst (users_dir "\") "\" (user_repl "\")).
  set (drive := subst (L "C:" ++ users_dir "\") "\" (L "C:" ++ user_repl "\")).
  assert (Hdrive : forall s, drive (windows s) = windows s).
  { intros s. apply drive_subst_after_home; reflexivity. }
  assert (Hunix : unix (windows (unix file_path)) = windows (unix file_path)).
  { apply subst_y_keeps_fixed_x; try reflexivity.
    apply home_subst_idempotent; reflexivity. }
  assert (Hwindows : forall s, windows (windows s) = windows s).
  { intros s. apply home_subst_idempotent; reflexivity. }
  now rewrite !Hdrive, Hunix, Hwindows.
Qed.

Lemma report_sanitize_file_path_idempotent (file_path : str) :
  bind (ReportGenerator._sanitize_file_path file_path)
       ReportGenerator._sanitize_file_path
  = ReportGenerator._sanitize_file_path file_path.
Proof.
  rewrite report_sanitize_file_path_total. cbn [bind].
  rewrite report_sanitize_file_path_total.
  now rewrite sanitized_path_idempotent.
Qed.

(** ** Path sanitisation *)

(** C10. [AuditLogger._sanitize_file_path] returns for no path: its second
    replacement template, written without the raw-string prefix, is the
    text [\Users\<user>\], which [re.sub] rejects as a bad escape before it
    looks at the path.  [ReportGenerator._sanitize_file_path], whose
    templates are raw strings, returns for every path and leaves its own
    result unchanged. *)
Theorem audit_sanitize_file_path_raises (file_path : str) :
  AuditLogger._sanitize_file_path file_path = None
  /\ exists sanitized : str,
       ReportGenerator._sanitize_file_path file_path = Some sanitized
       /\ ReportGenerator._sanitize_file_path sanitized = Some sanitized.
Proof.
  split.
  - unfold AuditLogger._sanitize_file_path.
    rewrite (@sub_parsed _ _ (L "/Users/<user>/")) by reflexivity.
    cbn [bind].
    rewrite sub_bad_template by reflexivity.
    reflexivity.
  - exists (sanitized_path file_path).
    rewrite !report_sanitize_file_path_total.
    now rewrite sanitized_path_idempotent.
Qed.

(** * Further properties of the code *)

From Stdlib Require Import Permutation.

(** ** Single-digit errors and the Luhn check *)

Lemma sum_from_app (n : nat) (xs ys : list Z) :
  forall i : nat,
    sum_from n i (xs ++ ys)
    = (sum_from n i xs + sum_from n (i + length xs) ys)%Z.
Proof.
  induction xs as [|x xs IH]; intros i; cbn [app sum_from length].
  - now rewrite Nat.add_0_r.
  - rewrite IH. replace (S i + length xs) with (i + S (length xs)) by lia.
    lia.
Qed.

Lemma int_of_digit_range (c : ascii) :
  isdecimal c = true -> (0 <= int_of_digit c <= 9)%Z.
Proof.
  unfold isdecimal, in_range, int_of_digit. intros H.
  apply andb_true_iff in H as [Hlo Hhi].
  apply Nat.leb_le in Hlo, Hhi. lia.
Qed.

Lemma int_of_digit_inj (a b : ascii) :
  int_of_digit a = int_of_digit b -> a = b.
Proof.
  unfold int_of_digit, code. intros H.
  rewrite <- (ascii_nat_embedding a), <- (ascii_nat_embedding b).
  f_equal. lia.
Qed.

(** On the digits 0 to 9 the Luhn transform is one-to-one. *)
Lemma luhn_transform_inj (n i : nat) (x y : Z) :
  (0 <= x <= 9)%Z -> (0 <= y <= 9)%Z ->
  luhn_transform n i x = luhn_transform n i y -> x = y.
Proof.
  unfold luhn_transform. intros Hx Hy.
  destruct (Bool.eqb _ _); [|auto].
  destruct (Z.ltb_spec 9 (2 * x)), (Z.ltb_spec 9 (2 * y)); lia.
Qed.

Lemma luhn_transform_range (n i : nat) (x : Z) :
  (0 <= x <= 9)%Z -> (0 <= luhn_transform n i x <= 9)%Z.
Proof.
  unfold luhn_transform. intros Hx.
  destruct (Bool.eqb _ _); [|auto].
  destruct (Z.ltb_spec 9 (2 * x)); lia.
Qed.

Lemma digits_of_split (pre post : str) (a : ascii) :
  isdecimal a = true ->
  map int_of_digit (strip_nondigit (pre ++ a :: post))
  = map int_of_digit (strip_nondigit pre)
    ++ int_of_digit a :: map int_of_digit (strip_nondigit post).
Proof.
  intros Ha. unfold strip_nondigit.
  rewrite filter_app. cbn [filter]. rewrite Ha.
  now rewrite map_app.
Qed.

Lemma luhn_valid_digits_single_digit_error (pre post : str) (a b : ascii) :
  isdecimal a = true -> isdecimal b = true -> a <> b ->
  luhn_valid_digits (pre ++ a :: post) = true ->
  luhn_valid_digits (pre ++ b :: post) = false.
Proof.
  intros Ha Hb Hab. rewrite !luhn_valid_digits_eq. cbv zeta.
  rewrite (digits_of_split pre post a Ha), (digits_of_split pre post b Hb).
  set (dp := map int_of_digit (strip_nondigit pre)).
  set (dq := map int_of_digit (strip_nondigit post)).
  unfold luhn_sum. rewrite !length_app. cbn [length].
  set (n := length dp + S (length dq)).
  rewrite !sum_from_app. cbn [sum_from].
  set (sp := sum_from n 0 dp).
  set (sq := sum_from n (S (0 + length dp)) dq).
  pose proof (luhn_transform_range n (0 + length dp) (int_of_digit a)
                (int_of_digit_range a Ha)) as Hta.
  pose proof (luhn_transform_range n (0 + length dp) (int_of_digit b)
                (int_of_digit_range b Hb)) as Htb.
  assert (Hne : luhn_transform n (0 + length dp) (int_of_digit a)
                <> luhn_transform n (0 + length dp) (int_of_digit b)).
  { intros Heq. apply Hab, int_of_digit_inj.
    apply (luhn_transform_inj n (0 + length dp));
      auto using int_of_digit_range. }
  intros H. apply andb_true_iff in H as [Hrange Hsum].
  rewrite Hrange. cbn [andb]. apply Z.eqb_eq in Hsum.
  apply Z.eqb_neq. intros Hsum'.
  set (ta := luhn_transform n (0 + length dp) (int_of_digit a)) in *.
  set (tb := luhn_transform n (0 + length dp) (int_of_digit b)) in *.
  clearbody ta tb sp sq.
  apply Z.mod_divide in Hsum, Hsum'; try lia.
  destruct Hsum as [q Hq], Hsum' as [q' Hq']. lia.
Qed.

Lemma no_superscript_replace (pre post : str) (a b : ascii) :
  isdecimal b = true ->
  no_superscript (pre ++ a :: post) = true ->
  no_superscript (pre ++ b :: post) = true.
Proof.
  unfold no_superscript. rewrite !forallb_app. cbn [forallb].
  intros Hb H. apply andb_true_iff in H as [Hpre H].
  apply andb_true_iff in H as [_ Hpost].
  now rewrite Hpre, Hpost, Hb, orb_true_r.
Qed.

(** X1. [luhn_check] detects every error in a single digit: if a text
    passes the check, the text with one of its digits replaced by another
    digit does not. *)
Theorem luhn_check_detects_single_digit_error (pre post : str) (a b : ascii) :
  isdecimal a = true -> isdecimal b = true -> a <> b ->
  luhn_check (pre ++ a :: post) = Some true ->
  luhn_check (pre ++ b :: post) = Some false.
Proof.
  intros Ha Hb Hab. rewrite !luhn_check_eq.
  destruct (no_superscript (pre ++ a :: post)) eqn:Hclean; [|discriminate].
  rewrite (no_superscript_replace pre post a b Hb Hclean).
  intros [= Hvalid]. f_equal.
  exact (luhn_valid_digits_single_digit_error pre post a b Ha Hb Hab Hvalid).
Qed.

Lemma luhn_check_detects_single_digit_error_witness :
  luhn_check (L "4532-0151-1283-0367") = Some false.
Proof.
  apply (luhn_check_detects_single_digit_error
           (L "4532-0151-1283-036") [] "6" "7");
    [reflexivity|reflexivity|discriminate|reflexivity].
Defined.

(** ** The confidence score *)

Lemma keyword_matches_bound (context : str) :
  length (filter (fun keyword => contains keyword (lower context))
                 payment_keywords) <= 14.
Proof.
  etransitivity; [apply filter_length_le|]. apply Nat.eq_le_incl. reflexivity.
Qed.

(** Every property of the score that holds for each number of keywords from
    0 to 14, each card type and each pair of flags holds for every call. *)
Ltac confidence_cases :=
  intros; unfold calculate_confidence; cbv zeta;
  match goal with
  | |- context [length (filter ?f payment_keywords)] =>
      let k := fresh "k" in
      let Hk := fresh "Hk" in
      pose proof (keyword_matches_bound
                    ltac:(match f with
                          | (fun keyword => contains keyword (lower ?c)) =>
                              exact c
                          end)) as Hk;
      set (k := length (filter f payment_keywords)) in *;
      clearbody k;
      do 15 (destruct k as [|k];
             [repeat match goal with
                     | b : bool |- _ => destruct b
                     | t : CardType |- _ => destruct t
                     end; vm_compute; try reflexivity; try discriminate|]);
      exfalso; lia
  end.

Lemma confidence_without_luhn (match_ : str) (card_type : CardType)
      (context : str) (is_masked : bool) :
  PrimFloat.ltb
    (calculate_confidence match_ card_type false context is_masked)
    0.7%float = true.
Proof. confidence_cases. Qed.

Lemma confidence_with_luhn (match_ : str) (card_type : CardType)
      (context : str) :
  PrimFloat.ltb (calculate_confidence match_ card_type true context false)
                0.7%float = false.
Proof. confidence_cases. Qed.

(** X2. The confidence score lies between 0 and 1; a candidate
    that fails the Luhn check scores less than 0.7, and a candidate that
    passes it and is not masked scores at least 0.7, whatever the card type
    and the keywords around it. *)
Theorem calculate_confidence_range (match_ : str) (card_type : CardType)
        (luhn_valid : bool) (context : str) (is_masked : bool) :
  let confidence :=
    calculate_confidence match_ card_type luhn_valid context is_masked in
  PrimFloat.leb 0%float confidence = true
  /\ PrimFloat.leb confidence 1%float = true
  /\ (luhn_valid = false -> PrimFloat.ltb confidence 0.7%float = true)
  /\ (luhn_valid = true -> is_masked = false ->
      PrimFloat.ltb confidence 0.7%float = false).
Proof.
  cbv zeta. split; [|split; [|split]].
  - confidence_cases.
  - confidence_cases.
  - intros ->. apply confidence_without_luhn.
  - intros -> ->. apply confidence_with_luhn.
Qed.

(** At the default threshold a hit that fails the Luhn check makes no
    match, whatever [require_luhn_validation] says. *)
Lemma scan_hit_luhn_at_default (cfg : Config) (file_path : str)
      (line_num : nat) (line : str) (card_type : CardType)
      (start end_ : nat) (m : PANMatch) :
  min_confidence cfg = 0.7%float ->
  scan_hit cfg file_path line_num line card_type start end_ = Some m ->
  luhn_valid m = true.
Proof.
  intros Hmin Hhit. open_scan_hit_in Hhit. cbv zeta in Hhit.
  destruct (_ || _); [discriminate|].
  destruct (luhn_valid_digits (filter isdecimal (slice start end_ line)))
    eqn:Hluhn.
  - destruct (_ && _); [discriminate|].
    destruct (PrimFloat.ltb _ _); [discriminate|].
    injection Hhit as <-. reflexivity.
  - destruct (_ && _); [discriminate|].
    rewrite Hmin, confidence_without_luhn in Hhit. discriminate.
Qed.

(** ** What a pattern reads *)

Lemma rep_sound (A : Type) (p : ascii -> bool) (k : Re.cont A) (v : A) :
  forall (s : str) (lo : nat) (hi : option nat) (prev : option ascii),
    Re.rep p lo hi prev s k = Some v ->
    exists (u rest : str) (prev' : option ascii),
      s = u ++ rest /\ forallb p u = true /\ k prev' rest = Some v.
Proof.
  assert (Hstop : forall (s : str) (lo : nat) (prev : option ascii),
             (if lo =? 0 then k prev s else None) = Some v ->
             exists (u rest : str) (prev' : option ascii),
               s = u ++ rest /\ forallb p u = true /\ k prev' rest = Some v).
  { intros s lo prev H. destruct (lo =? 0); [|discriminate].
    exists [], s, prev. auto. }
  induction s as [|c s IH]; intros lo hi prev H; cbn [Re.rep] in H.
  - exact (Hstop _ _ _ H).
  - destruct (p c && Re.can_take hi) eqn:Htake; [|exact (Hstop _ _ _ H)].
    destruct (Re.rep p (Nat.pred lo) (option_map Nat.pred hi) (Some c) s k)
      eqn:Hrec; [|exact (Hstop _ _ _ H)].
    injection H as ->.
    apply IH in Hrec as (u & rest & prev' & -> & Hu & Hk).
    apply andb_true_iff in Htake as [Hc _].
    exists (c :: u), rest, prev'. cbn [forallb app]. rewrite Hc, Hu. auto.
Qed.

Lemma rmatch_sound (A : Type) (q : ascii -> bool) (r : Re.regex) :
  within q r ->
  forall (k : Re.cont A) (v : A) (prev : option ascii) (s : str),
    Re.rmatch r prev s k = Some v ->
    exists (u rest : str) (prev' : option ascii),
      s = u ++ rest /\ forallb q u = true /\ k prev' rest = Some v.
Proof.
  induction r as [|p|r1 IH1 r2 IH2|r1 IH1 r2 IH2|p lo hi|];
    cbn [within Re.rmatch]; intros Hq k v prev s H.
  - exists [], s, prev. auto.
  - destruct s as [|c s]; [discriminate|].
    destruct (p c) eqn:Hc; [|discriminate].
    exists [c], s, (Some c). cbn [forallb app]. rewrite (Hq c Hc). auto.
  - destruct Hq as [Hq1 Hq2].
    apply (IH1 Hq1) in H as (u1 & rest1 & prev1 & -> & Hu1 & H).
    apply (IH2 Hq2) in H as (u2 & rest2 & prev2 & -> & Hu2 & H).
    exists (u1 ++ u2), rest2, prev2.
    rewrite forallb_app, Hu1, Hu2, app_assoc. auto.
  - destruct Hq as [Hq1 Hq2].
    destruct (Re.rmatch r1 prev s k) eqn:H1.
    + injection H as ->. exact (IH1 Hq1 _ _ _ _ H1).
    + exact (IH2 Hq2 _ _ _ _ H).
  - apply rep_sound in H as (u & rest & prev' & -> & Hu & H).
    exists u, rest, prev'. repeat split; auto.
    rewrite forallb_forall in *. auto.
  - destruct (xorb _ _); [|discriminate]. exists [], s, prev. auto.
Qed.

Lemma match_at_sound (q : ascii -> bool) (r : Re.regex)
      (prev : option ascii) (s rest : str) :
  within q r ->
  Re.match_at r prev s = Some rest ->
  exists u : str, s = u ++ rest /\ forallb q u = true.
Proof.
  intros Hq H. unfold Re.match_at in H.
  apply (rmatch_sound _ q r Hq) in H as (u & rest' & _ & -> & Hu & [= ->]).
  exists u. auto.
Qed.

(** The spans of [finditer] lie in the text, and the text of each span is
    made of characters of the classes of the pattern. *)
Lemma finditer_from_spans (q : ascii -> bool) (r : Re.regex) (a b : nat) :
  within q r ->
  forall (s : str) (prev : option ascii) (pos skip : nat),
    In (a, b) (Re.finditer_from r prev s pos skip) ->
    exists u v w : str,
      s = u ++ v ++ w /\ a = pos + length u /\ b = a + length v
      /\ forallb q v = true.
Proof.
  intros Hq.
  assert (Hhead : forall (s rest : str) (prev : option ascii) (pos : nat),
             Re.match_at r prev s = Some rest ->
             (a, b) = (pos, pos + Re.match_len s rest) ->
             exists u v w : str,
               s = u ++ v ++ w /\ a = pos + length u /\ b = a + length v
               /\ forallb q v = true).
  { intros s rest prev pos Hm [= -> ->].
    apply (match_at_sound q r prev s rest Hq) in Hm as (v & -> & Hv).
    exists [], v, rest. unfold Re.match_len. rewrite length_app.
    cbn [length app]. repeat split; auto; lia. }
  assert (Hshift : forall (c : ascii) (s : str) (pos : nat),
             (exists u v w : str,
                 s = u ++ v ++ w /\ a = S pos + length u /\ b = a + length v
                 /\ forallb q v = true) ->
             exists u v w : str,
               c :: s = u ++ v ++ w /\ a = pos + length u /\ b = a + length v
               /\ forallb q v = true).
  { intros c s pos (u & v & w & -> & Ha & Hb & Hv).
    exists (c :: u), v, w. cbn [length app]. repeat split; auto; lia. }
  induction s as [|c s IH]; intros prev pos skip Hin.
  - destruct skip; [|contradiction].
    rewrite finditer_from_ready in Hin.
    destruct (Re.match_at r prev []) eqn:Hm; [|contradiction].
    destruct Hin as [Hin|[]]. exact (Hhead _ _ _ _ Hm (eq_sym Hin)).
  - destruct skip as [|skip].
    + rewrite finditer_from_ready in Hin.
      destruct (Re.match_at r prev (c :: s)) eqn:Hm.
      * destruct Hin as [Hin|Hin]; [exact (Hhead _ _ _ _ Hm (eq_sym Hin))|].
        apply Hshift. exact (IH _ _ _ Hin).
      * apply Hshift. exact (IH _ _ _ Hin).
    + cbn [Re.finditer_from] in Hin. apply Hshift. exact (IH _ _ _ Hin).
Qed.

Lemma finditer_spans (q : ascii -> bool) (r : Re.regex) (s : str)
      (a b : nat) :
  within q r ->
  In (a, b) (Re.finditer r s) ->
  exists u v w : str,
    s = u ++ v ++ w /\ a = length u /\ b = length u + length v
    /\ forallb q v = true.
Proof.
  intros Hq Hin. unfold Re.finditer in Hin.
  apply (finditer_from_spans q r a b Hq) in Hin
    as (u & v & w & -> & -> & -> & Hv).
  exists u, v, w. auto.
Qed.

Lemma slice_middle (u v w : str) :
  slice (length u) (length u + length v) (u ++ v ++ w) = v.
Proof.
  unfold slice. rewrite skipn_app, skipn_all, Nat.sub_diag. cbn [skipn app].
  replace (length u + length v - length u) with (length v) by lia.
  rewrite firstn_app, firstn_all, Nat.sub_diag. cbn [firstn].
  apply app_nil_r.
Qed.

Lemma class_char_digit (x : ascii) :
  isdecimal x = true -> forall c : ascii, Ascii.eqb x c = true -> isdecimal c = true.
Proof. intros Hx c Hc. apply Ascii.eqb_eq in Hc. now subst. Qed.

Lemma class_rng_digit (x y : ascii) :
  isdecimal x = true -> isdecimal y = true ->
  forall c : ascii, rng x y c = true -> isdecimal c = true.
Proof.
  unfold rng, isdecimal, in_range. intros Hx Hy c Hc.
  apply andb_true_iff in Hx as [Hx _], Hy as [_ Hy], Hc as [Hlo Hhi].
  apply Nat.leb_le in Hx, Hy, Hlo, Hhi.
  apply andb_true_iff. split; apply Nat.leb_le; lia.
Qed.

(** The card patterns read digits only. *)
Lemma compiled_patterns_digits (card_type : CardType) (pattern : Re.regex) :
  In (card_type, pattern) compiled_patterns -> within isdecimal pattern.
Proof.
  intros Hin. unfold compiled_patterns in Hin. cbn [In] in Hin.
  repeat (destruct Hin as [[= <- <-]|Hin];
          [cbn [within Re.Cat Re.Lit Re.Opt Re.Exactly Re.AtLeast Re.Ch
                fold_right map L list_ascii_of_string];
           repeat split;
           first [ exact (fun c H => H)
                 | apply class_char_digit; reflexivity
                 | apply class_rng_digit; reflexivity
                 | intros c H; apply orb_true_iff in H as [H|H];
                   apply Ascii.eqb_eq in H; subst; reflexivity ]|]).
  contradiction.
Qed.
(** ** The anatomy of a match *)

(** Every match of [scan_text] comes from a run of digits [hit] on a line
    that passed the line filter. *)
Lemma scan_text_hit (cfg : Config) (text file_path : str) (m : PANMatch) :
  In m (scan_text cfg text file_path) ->
  exists (line_num : nat) (card_type : CardType) (before hit after : str),
    1 <= line_num
    /\ nth_error (split_lines text) (line_num - 1)
       = Some (before ++ hit ++ after)
    /\ is_masked_number cfg (before ++ hit ++ after) = false
    /\ forallb isdecimal hit = true
    /\ scan_hit cfg file_path line_num (before ++ hit ++ after) card_type
                (length before) (length before + length hit) = Some m.
Proof.
  intros Hin.
  apply scan_text_In in Hin
    as (line_num & line & t & pattern & start & end_ & Hline & Hmask & Hpat
        & Hspan & Hhit).
  apply enumerate_In in Hline as [Hnum Hline].
  apply compiled_patterns_digits in Hpat.
  apply (finditer_spans isdecimal pattern line start end_ Hpat) in Hspan
    as (before & hit & after & -> & -> & -> & Hdigits).
  exists line_num, t, before, hit, after. auto.
Qed.

Lemma filter_all {A : Type} (p : A -> bool) (l : list A) :
  forallb p l = true -> filter p l = l.
Proof.
  induction l as [|a l IH]; cbn [forallb filter]; [reflexivity|].
  intros H. apply andb_true_iff in H as [Ha Hl]. rewrite Ha. f_equal. auto.
Qed.

Lemma skipn_prefix (n : nat) (b rest : str) :
  n <= length b -> skipn n (b ++ rest) = skipn n b ++ rest.
Proof.
  intros Hn. rewrite skipn_app. replace (n - length b) with 0 by lia.
  reflexivity.
Qed.

Lemma firstn_exact (b rest : str) : firstn (length b) (b ++ rest) = b.
Proof.
  rewrite firstn_app, Nat.sub_diag, firstn_all. cbn [firstn].
  apply app_nil_r.
Qed.

Lemma firstn_min_length (n : nat) (s : str) :
  firstn (Nat.min (length s) n) s = firstn n s.
Proof.
  destruct (Nat.le_gt_cases (length s) n).
  - rewrite Nat.min_l by assumption.
    now rewrite firstn_all, firstn_all2 by assumption.
  - f_equal. lia.
Qed.

(** The context before a hit, at its full width: the last
    [context_window] characters before the hit. *)
Lemma wide_context_before_eq (cfg : Config) (before rest : str) :
  wide_context_before cfg (before ++ rest) (length before)
  = last_n (context_window cfg) before.
Proof.
  unfold wide_context_before, slice, last_n.
  set (n := length before - context_window cfg).
  rewrite skipn_prefix by lia.
  replace (length before - n) with (length (skipn n before))
    by (rewrite length_skipn; reflexivity).
  apply firstn_exact.
Qed.

(** The context after a hit, at its full width: the first
    [context_window] characters after the hit. *)
Lemma wide_context_after_eq (cfg : Config) (pre after : str) :
  wide_context_after cfg (pre ++ after) (length pre)
  = firstn (context_window cfg) after.
Proof.
  unfold wide_context_after, slice.
  rewrite skipn_app, skipn_all, Nat.sub_diag. cbn [skipn app].
  rewrite length_app.
  replace (Nat.min (length pre + length after)
                   (length pre + context_window cfg) - length pre)
    with (Nat.min (length after) (context_window cfg)) by lia.
  apply firstn_min_length.
Qed.

Lemma last_n_twice (n w : nat) (s : str) :
  (if n <? length (last_n w s) then last_n n (last_n w s) else last_n w s)
  = last_n (Nat.min n w) s.
Proof.
  unfold last_n. rewrite length_skipn.
  destruct (Nat.ltb_spec n (length s - (length s - w))).
  - rewrite skipn_skipn. f_equal. lia.
  - f_equal. lia.
Qed.

Lemma firstn_twice (n w : nat) (s : str) :
  (if n <? length (firstn w s) then firstn n (firstn w s) else firstn w s)
  = firstn (Nat.min n w) s.
Proof.
  rewrite length_firstn.
  destruct (Nat.ltb_spec n (Nat.min w (length s))).
  - now rewrite firstn_firstn.
  - destruct (Nat.le_gt_cases w n).
    + f_equal. lia.
    + rewrite !firstn_all2 by lia. reflexivity.
Qed.

(** What [scan_hit] stores for a run of digits. *)
Lemma scan_hit_digits (cfg : Config) (file_path : str) (line_num : nat)
      (card_type : CardType) (before hit after : str) (m : PANMatch) :
  forallb isdecimal hit = true ->
  scan_hit cfg file_path line_num (before ++ hit ++ after) card_type
           (length before) (length before + length hit) = Some m ->
  13 <= length hit <= 19
  /\ m = {| file_path := file_path;
            line_number := line_num;
            column_start := length before;
            column_end := length before + length hit;
            raw_match := if allow_full_pan_retention cfg then hit else [];
            masked_match := mask_pan hit (show_last4_only cfg);
            card_type := card_type;
            luhn_valid := luhn_valid_digits hit;
            confidence_score := confidence_score m;
            context_before :=
              last_n (Nat.min 50 (context_window cfg)) before;
            context_after :=
              firstn (Nat.min 50 (context_window cfg)) after;
            is_masked := is_masked m |}.
Proof.
  intros Hdigits. open_scan_hit. cbv zeta.
  rewrite slice_middle, (filter_all isdecimal hit Hdigits).
  destruct (Nat.ltb_spec (length hit) 13); [discriminate|].
  destruct (Nat.ltb_spec 19 (length hit)); [discriminate|].
  cbn [orb].
  destruct (_ && _); [discriminate|].
  destruct (PrimFloat.ltb _ _); [discriminate|].
  intros [= <-]. split; [lia|]. cbn [confidence_score is_masked].
  rewrite wide_context_before_eq.
  replace (length before + length hit) with (length (before ++ hit))
    by apply length_app.
  rewrite (app_assoc before hit after), wide_context_after_eq.
  rewrite last_n_twice, firstn_twice. reflexivity.
Qed.
(** Closes a statement of the form [exists m, scan_text ... = [m] /\ P m]
    with the theorem that gives [P] for every match. *)
Ltac by_scan thm :=
  eexists; split;
  [ vm_compute; reflexivity
  | apply thm; [reflexivity.. | vm_compute; left; reflexivity] ].

(** X3. With the default minimum confidence of 0.7 every match
    of [scan_text] passes the Luhn check, also when
    [require_luhn_validation] is false: a candidate that fails the check
    never reaches the threshold. *)
Theorem scan_text_luhn_valid_at_default_threshold (cfg : Config)
        (text file_path : str) (m : PANMatch) :
  min_confidence cfg = 0.7%float ->
  In m (scan_text cfg text file_path) ->
  luhn_valid m = true.
Proof.
  intros Hmin Hin.
  apply scan_text_In in Hin
    as (line_num & line & t & pattern & start & end_ & _ & _ & _ & _ & Hhit).
  exact (scan_hit_luhn_at_default _ _ _ _ _ _ _ _ Hmin Hhit).
Qed.

Lemma scan_text_luhn_valid_at_default_threshold_witness :
  exists m : PANMatch,
    scan_text config_without_luhn text_two_lines (L "orders.txt") = [m]
    /\ luhn_valid m = true.
Proof.
  by_scan (scan_text_luhn_valid_at_default_threshold
             config_without_luhn text_two_lines (L "orders.txt")).
Defined.

(** X4. Every match of [scan_text] points at a run of 13 to 19
    digits of the text: [line_number] counts the lines from 1,
    [column_start] and [column_end] are the zero-based bounds of the run on
    that line, end excluded, and [file_path] is the path given. *)
Theorem scan_text_match_position (cfg : Config) (text file_path : str)
        (m : PANMatch) :
  In m (scan_text cfg text file_path) ->
  exists before hit after : str,
    1 <= line_number m
    /\ nth_error (split_lines text) (line_number m - 1)
       = Some (before ++ hit ++ after)
    /\ column_start m = length before
    /\ column_end m = length before + length hit
    /\ forallb isdecimal hit = true
    /\ 13 <= length hit <= 19
    /\ DetectionEngine.file_path m = file_path.
Proof.
  intros Hin.
  apply scan_text_hit in Hin
    as (line_num & t & before & hit & after & Hnum & Hline & _ & Hdigits
        & Hhit).
  apply (scan_hit_digits _ _ _ _ _ _ _ _ Hdigits) in Hhit as [Hlen ->].
  exists before, hit, after.
  cbn [DetectionEngine.file_path line_number column_start column_end raw_match
        masked_match luhn_valid context_before context_after].
  repeat split; auto; lia.
Qed.

Lemma scan_text_match_position_witness :
  exists m : PANMatch,
    scan_text default_config text_two_lines (L "orders.txt") = [m]
    /\ exists before hit after : str,
         1 <= line_number m
         /\ nth_error (split_lines text_two_lines) (line_number m - 1)
            = Some (before ++ hit ++ after)
         /\ column_start m = length before
         /\ column_end m = length before + length hit
         /\ forallb isdecimal hit = true
         /\ 13 <= length hit <= 19
         /\ DetectionEngine.file_path m = L "orders.txt".
Proof.
  by_scan (scan_text_match_position default_config text_two_lines
                                    (L "orders.txt")).
Defined.

(** X5. What a match of [scan_text] keeps of the number it
    found: [masked_match] has the length of the run of digits and shows its
    last four digits after stars when [show_last4_only] is set, stars only
    otherwise; [raw_match] is the run when [allow_full_pan_retention] is
    set and empty otherwise; [luhn_valid] is the Luhn check of the run. *)
Theorem scan_text_stored_number (cfg : Config) (text file_path : str)
        (m : PANMatch) :
  In m (scan_text cfg text file_path) ->
  exists before hit after : str,
    nth_error (split_lines text) (line_number m - 1)
    = Some (before ++ hit ++ after)
    /\ column_start m = length before
    /\ column_end m = length before + length hit
    /\ masked_match m
       = (if show_last4_only cfg
          then stars (length hit - 4) ++ last_n 4 hit
          else stars (length hit))
    /\ length (masked_match m) = length hit
    /\ raw_match m = (if allow_full_pan_retention cfg then hit else [])
    /\ luhn_check hit = Some (luhn_valid m).
Proof.
  intros Hin.
  apply scan_text_hit in Hin
    as (line_num & t & before & hit & after & Hnum & Hline & _ & Hdigits
        & Hhit).
  apply (scan_hit_digits _ _ _ _ _ _ _ _ Hdigits) in Hhit as [Hlen ->].
  exists before, hit, after.
  cbn [DetectionEngine.file_path line_number column_start column_end raw_match
        masked_match luhn_valid context_before context_after].
  assert (Hmask : mask_pan hit (show_last4_only cfg)
                  = if show_last4_only cfg
                    then stars (length hit - 4) ++ last_n 4 hit
                    else stars (length hit)).
  { unfold mask_pan. destruct (Nat.ltb_spec (length hit) 4); [lia|].
    reflexivity. }
  repeat split; auto using luhn_check_decimal.
  rewrite Hmask. destruct (show_last4_only cfg).
  - unfold last_n. rewrite length_app, length_stars, length_skipn. lia.
  - apply length_stars.
Qed.

Lemma scan_text_stored_number_witness :
  exists m : PANMatch,
    scan_text default_config text_two_lines (L "orders.txt") = [m]
    /\ exists before hit after : str,
         nth_error (split_lines text_two_lines) (line_number m - 1)
         = Some (before ++ hit ++ after)
         /\ column_start m = length before
         /\ column_end m = length before + length hit
         /\ masked_match m
            = (if show_last4_only default_config
               then stars (length hit - 4) ++ last_n 4 hit
               else stars (length hit))
         /\ length (masked_match m) = length hit
         /\ raw_match m
            = (if allow_full_pan_retention default_config then hit else [])
         /\ luhn_check hit = Some (luhn_valid m).
Proof.
  by_scan (scan_text_stored_number default_config text_two_lines
                                   (L "orders.txt")).
Defined.

(** X6. The context a match of [scan_text] keeps: [context_before]
    is made of the last characters of the line before the run of digits and
    [context_after] of the first characters after it, at most 50 and at
    most [context_window_chars] of them on each side. *)
Theorem scan_text_stored_context (cfg : Config) (text file_path : str)
        (m : PANMatch) :
  In m (scan_text cfg text file_path) ->
  exists before hit after : str,
    nth_error (split_lines text) (line_number m - 1)
    = Some (before ++ hit ++ after)
    /\ column_start m = length before
    /\ column_end m = length before + length hit
    /\ context_before m = last_n (Nat.min 50 (context_window cfg)) before
    /\ context_after m = firstn (Nat.min 50 (context_window cfg)) after
    /\ length (context_before m) <= 50
    /\ length (context_after m) <= 50.
Proof.
  intros Hin.
  apply scan_text_hit in Hin
    as (line_num & t & before & hit & after & Hnum & Hline & _ & Hdigits
        & Hhit).
  apply (scan_hit_digits _ _ _ _ _ _ _ _ Hdigits) in Hhit as [Hlen ->].
  exists before, hit, after.
  cbn [DetectionEngine.file_path line_number column_start column_end raw_match
        masked_match luhn_valid context_before context_after].
  repeat split; auto.
  - unfold last_n. rewrite length_skipn. lia.
  - rewrite length_firstn. lia.
Qed.

Lemma scan_text_stored_context_witness :
  exists m : PANMatch,
    scan_text default_config text_two_lines (L "orders.txt") = [m]
    /\ exists before hit after : str,
         nth_error (split_lines text_two_lines) (line_number m - 1)
         = Some (before ++ hit ++ after)
         /\ column_start m = length before
         /\ column_end m = length before + length hit
         /\ context_before m
            = last_n (Nat.min 50 (context_window default_config)) before
         /\ context_after m
            = firstn (Nat.min 50 (context_window default_config)) after
         /\ length (context_before m) <= 50
         /\ length (context_after m) <= 50.
Proof.
  by_scan (scan_text_stored_context default_config text_two_lines
                                    (L "orders.txt")).
Defined.
Lemma scan_text_is_masked_false_witness :
  exists m : PANMatch,
    scan_text default_config text_two_lines (L "orders.txt") = [m]
    /\ is_masked m = false.
Proof.
  by_scan (scan_text_is_masked_false default_config text_two_lines
                                     (L "orders.txt")).
Defined.

(** ** Findings made from the matches of a scan *)

(** A hit on a line that passed the line filter is not recorded as
    masked. *)
Lemma scan_hit_not_masked (cfg : Config) (file_path : str) (line_num : nat)
      (line : str) (card_type : CardType) (start end_ : nat) (m : PANMatch) :
  is_masked_number cfg line = false ->
  scan_hit cfg file_path line_num line card_type start end_ = Some m ->
  is_masked m = false.
Proof.
  intros Hline Hhit.
  assert (Hse : start <= end_) by (eapply scan_hit_span; exact Hhit).
  apply scan_hit_fields in Hhit as (_ & _ & _ & _ & ->).
  unfold is_masked_number in *.
  destruct (negb (exclude_masked cfg)); [reflexivity|].
  destruct (matches_masked_pattern (full_context cfg line start end_))
    eqn:Hwin; [|reflexivity].
  destruct (@full_context_part cfg line start end_ Hse) as (a & b & Heq).
  rewrite Heq in Hline.
  now rewrite (@matches_masked_pattern_part a _ b Hwin) in Hline.
Qed.

(** The flags of a match of a scan at the default threshold. *)
Lemma scan_text_flags (cfg : Config) (text file_path : str) (m : PANMatch) :
  min_confidence cfg = 0.7%float ->
  In m (scan_text cfg text file_path) ->
  luhn_valid m = true /\ is_masked m = false.
Proof.
  intros Hmin Hin.
  apply scan_text_In in Hin
    as (line_num & line & t & pattern & start & end_ & _ & Hline & _ & _
        & Hhit).
  split.
  - exact (scan_hit_luhn_at_default _ _ _ _ _ _ _ _ Hmin Hhit).
  - exact (scan_hit_not_masked _ _ _ _ _ _ _ _ Hline Hhit).
Qed.

(** X9. A match that passes the Luhn check and is not masked gets
    the remediation priority critical, with the urgent suggestion first;
    such are all the matches of [scan_text] at the default minimum
    confidence of 0.7. *)
Theorem scan_findings_are_critical (cfg : Config) (text file_path : str)
        (m : PANMatch) :
  min_confidence cfg = 0.7%float ->
  In m (scan_text cfg text file_path) ->
  ReportGenerator._calculate_priority m = L "critical"
  /\ hd_error (ReportGenerator._get_remediation_suggestions m)
     = Some (L "URGENT: Unmasked valid PAN detected - secure immediately").
Proof.
  intros Hmin Hin.
  destruct (scan_text_flags cfg text file_path m Hmin Hin) as [Hluhn Hmask].
  unfold ReportGenerator._calculate_priority,
    ReportGenerator._get_remediation_suggestions.
  rewrite Hluhn, Hmask. cbn [negb andb]. cbv zeta. split.
  - destruct (PrimFloat.ltb _ _), (is_major _); reflexivity.
  - destruct (PrimFloat.ltb _ _); reflexivity.
Qed.

Lemma scan_findings_are_critical_witness :
  exists m : PANMatch,
    scan_text default_config text_two_lines (L "orders.txt") = [m]
    /\ ReportGenerator._calculate_priority m = L "critical"
    /\ hd_error (ReportGenerator._get_remediation_suggestions m)
       = Some (L "URGENT: Unmasked valid PAN detected - secure immediately").
Proof.
  by_scan (scan_findings_are_critical default_config text_two_lines
                                      (L "orders.txt")).
Defined.
(** ** The breakdowns of the report *)

Lemma get_set_other (k k' : str) (v : json) (d : dict) :
  str_eqb k k' = false -> get k (set k' v d) = get k d.
Proof.
  intros Hk. induction d as [|[k'' v''] d IH]; cbn [set get].
  - now rewrite Hk.
  - destruct (str_eqb k' k'') eqn:Hk'; cbn [get].
    + apply str_eqb_eq in Hk'. subst k''. now rewrite Hk.
    + now rewrite IH.
Qed.

Lemma count_cons {A : Type} (f : A -> bool) (a : A) (l : list A) :
  count f (a :: l) = ((if f a then 1 else 0) + count f l)%Z.
Proof.
  unfold count. cbn [filter]. destruct (f a); cbn [length]; lia.
Qed.

Lemma count_nonneg {A : Type} (f : A -> bool) (l : list A) :
  (0 <= count f l)%Z.
Proof. unfold count. lia. Qed.

Lemma count_split {A : Type} (f : A -> bool) (l : list A) :
  (count f l + count (fun a => negb (f a)) l = Z.of_nat (length l))%Z.
Proof.
  induction l as [|a l IH]; [reflexivity|].
  rewrite !count_cons. cbn [length]. destruct (f a); cbn [negb]; lia.
Qed.

Lemma confidence_bands (matches : list PANMatch) :
  (count high_confidence matches + count medium_confidence matches
   + count low_confidence matches = Z.of_nat (length matches))%Z.
Proof.
  induction matches as [|m matches IH]; [reflexivity|].
  rewrite !count_cons. cbn [length].
  assert (Hm : ((if high_confidence m then 1 else 0)
                + (if medium_confidence m then 1 else 0)
                + (if low_confidence m then 1 else 0) = 1)%Z).
  { unfold low_confidence, medium_confidence.
    destruct (high_confidence m), (PrimFloat.ltb 0.5 (confidence_score m));
      reflexivity. }
  lia.
Qed.

(** The counters after the loop of [_categorize_findings]. *)
Lemma categorize_fold (matches : list PANMatch) :
  forall c : ReportGenerator.Categories,
    let c' := fold_left ReportGenerator.categorize_step matches c in
    (ReportGenerator.n_luhn_valid c'
     = ReportGenerator.n_luhn_valid c + count luhn_valid matches
     /\ ReportGenerator.n_luhn_invalid c'
        = ReportGenerator.n_luhn_invalid c
          + count (fun m => negb (luhn_valid m)) matches
     /\ ReportGenerator.n_high c'
        = ReportGenerator.n_high c + count high_confidence matches
     /\ ReportGenerator.n_medium c'
        = ReportGenerator.n_medium c + count medium_confidence matches
     /\ ReportGenerator.n_low c'
        = ReportGenerator.n_low c + count low_confidence matches
     /\ ReportGenerator.n_masked c'
        = ReportGenerator.n_masked c + count is_masked matches
     /\ ReportGenerator.n_unmasked c'
        = ReportGenerator.n_unmasked c
          + count (fun m => negb (is_masked m)) matches)%Z.
Proof.
  induction matches as [|m matches IH]; intros c; cbv zeta.
  - unfold count. cbn. repeat split; lia.
  - cbn [fold_left]. specialize (IH (ReportGenerator.categorize_step c m)).
    cbv zeta in IH. destruct IH as (H1 & H2 & H3 & H4 & H5 & H6 & H7).
    rewrite H1, H2, H3, H4, H5, H6, H7, !count_cons.
    unfold ReportGenerator.categorize_step. cbv zeta.
    cbn [ReportGenerator.n_luhn_valid ReportGenerator.n_luhn_invalid
         ReportGenerator.n_high ReportGenerator.n_medium
         ReportGenerator.n_low ReportGenerator.n_masked
         ReportGenerator.n_unmasked].
    change (PrimFloat.ltb 0.8 (confidence_score m))
      with (high_confidence m).
    change (negb (high_confidence m)
            && PrimFloat.ltb 0.5 (confidence_score m))
      with (medium_confidence m).
    assert (Hlow : low_confidence m
                   = negb (high_confidence m || medium_confidence m))
      by reflexivity.
    destruct (luhn_valid m), (is_masked m), (high_confidence m),
             (medium_confidence m), (low_confidence m);
      cbn [negb andb orb] in *; try discriminate; repeat split; lia.
Qed.

(** The entry of one card type in [by_card_type] after the loop. *)
Lemma by_card_type_fold (t : CardType) (matches : list PANMatch) :
  forall (c : ReportGenerator.Categories) (z : Z),
    (0 <= z)%Z ->
    get (value t) (ReportGenerator.by_card_type c)
    = (if (z =? 0)%Z then None else Some (JInt z)) ->
    get (value t)
        (ReportGenerator.by_card_type
           (fold_left ReportGenerator.categorize_step matches c))
    = (if (z + count (of_type t) matches =? 0)%Z then None
       else Some (JInt (z + count (of_type t) matches))).
Proof.
  induction matches as [|m matches IH]; intros c z Hz Hget.
  - unfold count. cbn [fold_left filter length]. now rewrite Z.add_0_r.
  - cbn [fold_left]. rewrite count_cons.
    rewrite Z.add_assoc. apply IH.
    + destruct (of_type t m); lia.
    + unfold ReportGenerator.categorize_step. cbv zeta.
      cbn [ReportGenerator.by_card_type]. unfold of_type.
      destruct (str_eqb (value (card_type m)) (value t)) eqn:Ht.
      * apply str_eqb_eq in Ht. rewrite Ht, get_set_same.
        unfold get_default. rewrite Hget.
        destruct (Z.eqb_spec z 0) as [->|Hz0]; cbn [ReportGenerator.incr].
        -- reflexivity.
        -- destruct (Z.eqb_spec (z + 1) 0); [lia|reflexivity].
      * rewrite get_set_other, Z.add_0_r; [exact Hget|].
        destruct (str_eqb (value t) (value (card_type m))) eqn:Ht';
          [|reflexivity].
        apply str_eqb_eq in Ht'. rewrite Ht', str_eqb_refl in Ht.
        discriminate.
Qed.

(** X10. In the breakdowns of [_categorize_findings] every match
    is counted once: the two validation counters, the three confidence
    bands and the two masking counters each add up to the number of
    matches, and [by_card_type] holds, for each card type that occurs, the
    number of matches of that type and no entry for the others. *)
Theorem categorize_findings_counts (matches : list PANMatch) :
  exists by_type : dict,
    ReportGenerator._categorize_findings matches
    = [ (L "by_card_type", JDict by_type);
        (L "by_validation_status",
         JDict [(L "luhn_valid", JInt (count luhn_valid matches));
                (L "luhn_invalid",
                 JInt (count (fun m => negb (luhn_valid m)) matches))]);
        (L "by_confidence",
         JDict [(L "high", JInt (count high_confidence matches));
                (L "medium", JInt (count medium_confidence matches));
                (L "low", JInt (count low_confidence matches))]);
        (L "by_masking_status",
         JDict [(L "masked", JInt (count is_masked matches));
                (L "unmasked",
                 JInt (count (fun m => negb (is_masked m)) matches))]) ]
    /\ (forall t : CardType,
           get (value t) by_type
           = if (count (of_type t) matches =? 0)%Z then None
             else Some (JInt (count (of_type t) matches)))
    /\ (count luhn_valid matches
        + count (fun m => negb (luhn_valid m)) matches
        = Z.of_nat (length matches))%Z
    /\ (count high_confidence matches + count medium_confidence matches
        + count low_confidence matches = Z.of_nat (length matches))%Z
    /\ (count is_masked matches
        + count (fun m => negb (is_masked m)) matches
        = Z.of_nat (length matches))%Z.
Proof.
  unfold ReportGenerator._categorize_findings. cbv zeta.
  set (c0 := ReportGenerator.mkCategories [] 0 0 0 0 0 0 0).
  destruct (categorize_fold matches c0) as (H1 & H2 & H3 & H4 & H5 & H6 & H7).
  rewrite H1, H2, H3, H4, H5, H6, H7.
  cbn [c0 ReportGenerator.n_luhn_valid ReportGenerator.n_luhn_invalid
       ReportGenerator.n_high ReportGenerator.n_medium
       ReportGenerator.n_low ReportGenerator.n_masked
       ReportGenerator.n_unmasked Z.add].
  eexists. split; [reflexivity|]. split; [|split; [|split]].
  - intros t.
    exact (by_card_type_fold t matches c0 0%Z (Z.le_refl 0) eq_refl).
  - apply count_split.
  - apply confidence_bands.
  - apply count_split.
Qed.
(** ** The risk assessment *)

Lemma assess_risk_nonempty (m : PANMatch) (matches : list PANMatch) :
  let risky := filter ReportGenerator.high_risk (m :: matches) in
  ReportGenerator._assess_risk (m :: matches)
  = [ (L "overall_risk",
       JStr (if 0 <? length risky then L "critical"
             else if 10 <? length (m :: matches) then L "high"
                  else L "medium"));
      (L "risk_factors",
       JList (firstn 10
                (map (fun m => JStr (L "Unmasked valid PAN in "
                                       ++ DetectionEngine.file_path m))
                     risky)));
      (L "compliance_status",
       JStr (if 0 <? length risky then L "non-compliant"
             else L "review-required"));
      (L "total_high_risk_findings", JInt (Z.of_nat (length risky))) ].
Proof.
  cbv zeta. unfold ReportGenerator._assess_risk.
  destruct (0 <? length (filter ReportGenerator.high_risk (m :: matches)));
    [reflexivity|].
  destruct (10 <? length (m :: matches)); reflexivity.
Qed.

(** X11. [_assess_risk] reports the overall risk low and the
    status compliant for an empty list of matches only, and only then
    leaves out [total_high_risk_findings]; the risk is critical exactly
    when some match passes the Luhn check and is not masked;
    [total_high_risk_findings] counts all such matches, while
    [risk_factors] names at most ten of them. *)
Theorem assess_risk_summary (matches : list PANMatch) :
  let assessment := ReportGenerator._assess_risk matches in
  let risky := filter ReportGenerator.high_risk matches in
  (get (L "overall_risk") assessment = Some (JStr (L "low"))
   <-> matches = [])
  /\ (get (L "compliance_status") assessment = Some (JStr (L "compliant"))
      <-> matches = [])
  /\ (get (L "total_high_risk_findings") assessment = None
      <-> matches = [])
  /\ (matches <> [] ->
      get (L "total_high_risk_findings") assessment
      = Some (JInt (Z.of_nat (length risky))))
  /\ (get (L "overall_risk") assessment = Some (JStr (L "critical"))
      <-> risky <> [])
  /\ exists factors : list json,
       get (L "risk_factors") assessment = Some (JList factors)
       /\ length factors = Nat.min 10 (length risky).
Proof.
  cbv zeta. destruct matches as [|m matches].
  - split; [|split; [|split; [|split; [|split]]]].
    + split; reflexivity.
    + split; reflexivity.
    + split; reflexivity.
    + intros H. now contradiction H.
    + split; [discriminate|]. intros H. now contradiction H.
    + exists []. split; reflexivity.
  - rewrite assess_risk_nonempty. cbv zeta.
    set (risky := filter ReportGenerator.high_risk (m :: matches)).
    change (get (L "overall_risk") ?d) with
      (Some (JStr (if 0 <? length risky then L "critical"
                   else if 10 <? length (m :: matches) then L "high"
                        else L "medium"))).
    change (get (L "compliance_status") ?d) with
      (Some (JStr (if 0 <? length risky then L "non-compliant"
                   else L "review-required"))).
    change (get (L "total_high_risk_findings") ?d) with
      (Some (JInt (Z.of_nat (length risky)))).
    change (get (L "risk_factors") ?d) with
      (Some (JList (firstn 10
                      (map (fun m => JStr (L "Unmasked valid PAN in "
                                             ++ DetectionEngine.file_path m))
                           risky)))).
    assert (Hrisky : (0 <? length risky) = negb (length risky =? 0))
      by (destruct (length risky); reflexivity).
    assert (Hnil : risky <> [] <-> (length risky =? 0) = false).
    { destruct risky; cbn [length Nat.eqb]; split; congruence. }
    rewrite Hnil, Hrisky.
    split; [|split; [|split; [|split; [|split]]]].
    + split; [|discriminate].
      destruct (length risky =? 0), (10 <? length (m :: matches));
        discriminate.
    + split; [|discriminate]. destruct (length risky =? 0); discriminate.
    + split; discriminate.
    + reflexivity.
    + destruct (length risky =? 0); cbn [negb]; [|tauto].
      split; [|discriminate].
      destruct (10 <? length (m :: matches)); discriminate.
    + eexists. split; [reflexivity|].
      now rewrite length_firstn, length_map.
Qed.
(** ** The report as a whole *)

Section CreatedReport.
Context {E : Extern}.
Variable config : Config.
Variables timestamp agent_id scan_id operator : str.
Variable matches : list PANMatch.
Variables scan_stats config_summary : dict.

(** The report of [create_report], written out. *)
Lemma create_report_eq :
  exists (findings : list dict) (built : dict) (h : str),
    ReportGenerator._process_findings config matches = Some findings
    /\ length findings = length matches
    /\ ReportGenerator.build_report config timestamp agent_id scan_id
                                    operator matches scan_stats
                                    config_summary = Some built
    /\ h = ReportGenerator.report_digest built
    /\ ReportGenerator.create_report config timestamp agent_id scan_id
                                     operator matches scan_stats
                                     config_summary
       = Some (set (L "metadata")
                   (JDict [ (L "report_version", JStr (L "1.0"));
                            (L "agent_id", JStr agent_id);
                            (L "scan_id", JStr scan_id);
                            (L "timestamp", JStr timestamp);
                            (L "operator", JStr operator);
                            (L "report_hash", JStr h) ])
                   built).
Proof.
  destruct (process_findings_total config matches) as (findings & Hf & Hall).
  unfold ReportGenerator.create_report, ReportGenerator.build_report.
  rewrite Hf. cbn [bind].
  eexists findings, _, _. split; [reflexivity|].
  split; [symmetry; exact (Forall2_length Hall)|].
  split; [reflexivity|]. split; [reflexivity|].
  reflexivity.
Qed.

(** X12. In the report of [create_report] the list of
    findings has one entry for each match and [total_matches_found] is the
    number of matches. *)
Theorem create_report_counts :
  exists (report results summary : dict) (findings : list json),
    ReportGenerator.create_report config timestamp agent_id scan_id operator
                                  matches scan_stats config_summary
    = Some report
    /\ get (L "scan_results") report = Some (JDict results)
    /\ get (L "summary") results = Some (JDict summary)
    /\ get (L "total_matches_found") summary
       = Some (JInt (Z.of_nat (length matches)))
    /\ get (L "findings") results = Some (JList findings)
    /\ length findings = length matches.
Proof.
  destruct create_report_eq as (findings & built & h & Hf & Hlen & Hbuilt
                                & _ & Hreport).
  unfold ReportGenerator.build_report in Hbuilt.
  rewrite Hf in Hbuilt. cbn [bind] in Hbuilt.
  injection Hbuilt as Hbuilt.
  eexists _, _, _, (map JDict findings).
  split; [exact Hreport|].
  rewrite get_set_other by reflexivity. rewrite <- Hbuilt.
  split; [reflexivity|]. split; [reflexivity|]. split; [reflexivity|].
  split; [reflexivity|]. now rewrite length_map.
Qed.

(** X13. A report of [create_report] has every field
    [SecureClient._validate_report] requires: the validation refuses it
    only when it finds sensitive data in it. *)
Theorem create_report_validates :
  exists report : dict,
    ReportGenerator.create_report config timestamp agent_id scan_id operator
                                  matches scan_stats config_summary
    = Some report
    /\ SecureClient._validate_report report
       = Some (negb (SecureClient._contains_sensitive_data report)).
Proof.
  destruct create_report_eq as (findings & built & h & Hf & Hlen & Hbuilt
                                & _ & Hreport).
  unfold ReportGenerator.build_report in Hbuilt.
  rewrite Hf in Hbuilt. cbn [bind] in Hbuilt.
  injection Hbuilt as Hbuilt.
  eexists. split; [exact Hreport|].
  set (report := set _ _ built).
  unfold SecureClient._validate_report.
  assert (Hfields :
            forallb (fun field => mem field report)
                    SecureClient.required_fields = true).
  { unfold report. rewrite <- Hbuilt. reflexivity. }
  rewrite Hfields. cbn [negb].
  assert (Hmeta :
            get_default (L "metadata") (JDict []) report
            = JDict [ (L "report_version", JStr (L "1.0"));
                      (L "agent_id", JStr agent_id);
                      (L "scan_id", JStr scan_id);
                      (L "timestamp", JStr timestamp);
                      (L "operator", JStr operator);
                      (L "report_hash", JStr h) ]).
  { unfold get_default, report. now rewrite get_set_same. }
  cbv zeta. rewrite Hmeta.
  change (mapM _ SecureClient.required_metadata)
    with (Some [true; true; true; true]).
  cbn [bind forallb andb negb].
  destruct (SecureClient._contains_sensitive_data report); reflexivity.
Qed.

End CreatedReport.
(** ** What the path sanitiser replaces *)

Lemma sanitized_path_shape (s : str) :
  sanitized_path s
  = subst (L "C:" ++ users_dir "\") "\" (L "C:" ++ user_repl "\")
      (subst (users_dir "\") "\" (user_repl "\")
         (subst (users_dir "/") "/" (user_repl "/") s)).
Proof. reflexivity. Qed.

(** The two substitutions that do the work. *)
Lemma sanitized_path_two (s : str) :
  sanitized_path s
  = subst (users_dir "\") "\" (user_repl "\")
      (subst (users_dir "/") "/" (user_repl "/") s).
Proof.
  rewrite sanitized_path_shape. apply drive_subst_after_home; reflexivity.
Qed.

(** X14. The third substitution of
    [ReportGenerator._sanitize_file_path], for [C:\Users\<name>\], never
    changes anything: the second has already replaced the name, so the
    result is that of the first two substitutions. *)
Theorem report_sanitize_third_substitution_redundant (file_path : str) :
  ReportGenerator._sanitize_file_path file_path
  = Some (Re.sub_literal UserPaths.windows_home (L "\Users\<user>\")
            (Re.sub_literal UserPaths.unix_home (L "/Users/<user>/")
               file_path)).
Proof.
  rewrite report_sanitize_file_path_total. f_equal.
  exact (sanitized_path_two file_path).
Qed.

(** X15. [ReportGenerator._sanitize_file_path] replaces the
    name that follows [/Users/] at the head of a path by [<user>], and the
    name that follows [C:\Users\] likewise; what follows the name is
    sanitised on its own. *)
Theorem report_sanitize_redacts_home (name rest : str) :
  name <> [] ->
  forallb (UserPaths.not_char "/") name = true ->
  ReportGenerator._sanitize_file_path (L "/Users/" ++ name ++ L "/" ++ rest)
  = option_map (app (L "/Users/<user>/"))
               (ReportGenerator._sanitize_file_path rest)
  /\ (forallb (UserPaths.not_char "\") name = true ->
      ReportGenerator._sanitize_file_path
        (L "C:\Users\" ++ name ++ L "\" ++ rest)
      = option_map (app (L "C:\Users\<user>\"))
                   (ReportGenerator._sanitize_file_path rest)).
Proof.
  intros Hne Hslash.
  rewrite !report_sanitize_file_path_total. cbn [option_map].
  rewrite !sanitized_path_two.
  set (unix := subst (users_dir "/") "/" (user_repl "/")).
  set (windows := subst (users_dir "\") "\" (user_repl "\")).
  split.
  - f_equal.
    assert (Hm : lit_match (users_dir "/") "/"
                           (L "/Users/" ++ name ++ L "/" ++ rest)
                 = Some rest).
    { apply home_match_inv. now exists name. }
    unfold unix at 1. rewrite (home_subst_match "/" _ _ Hm).
    fold unix. unfold windows at 1.
    now rewrite (home_subst_free "\" (user_repl "/") (unix rest)).
  - intros Hback. f_equal.
    assert (Hfree : forallb (UserPaths.not_char "/")
                            (L "C:\Users\" ++ name ++ L "\") = true).
    { rewrite !forallb_app, Hslash. reflexivity. }
    replace (L "C:\Users\" ++ name ++ L "\" ++ rest)
      with ((L "C:\Users\" ++ name ++ L "\") ++ rest)
      by now rewrite <- !app_assoc.
    unfold unix at 1.
    rewrite (home_subst_free "/" _ rest Hfree). fold unix.
    replace ((L "C:\Users\" ++ name ++ L "\") ++ unix rest)
      with (L "C:" ++ (L "\Users\" ++ name ++ L "\" ++ unix rest))
      by (cbn [app L list_ascii_of_string]; now rewrite <- !app_assoc).
    unfold windows at 1.
    rewrite (home_subst_free "\" (L "C:") _ eq_refl).
    assert (Hm : lit_match (users_dir "\") "\"
                           (L "\Users\" ++ name ++ L "\" ++ unix rest)
                 = Some (unix rest)).
    { apply home_match_inv. now exists name. }
    rewrite (home_subst_match "\" _ _ Hm). reflexivity.
Qed.

Lemma report_sanitize_redacts_home_witness :
  ReportGenerator._sanitize_file_path (L "/Users/alice/cards/2024.csv")
  = Some (L "/Users/<user>/cards/2024.csv")
  /\ ReportGenerator._sanitize_file_path (L "C:\Users\alice\cards.csv")
     = Some (L "C:\Users\<user>\cards.csv").
Proof.
  pose proof (report_sanitize_redacts_home (L "alice") (L "cards/2024.csv"))
    as Hunix.
  pose proof (report_sanitize_redacts_home (L "alice") (L "cards.csv"))
    as Hwin.
  split.
  - apply Hunix; [discriminate|reflexivity].
  - apply Hwin; [discriminate|reflexivity|reflexivity].
Defined.

Lemma strip_startswith (lit s rest : str) :
  strip lit s = Some rest -> startswith lit s = true.
Proof.
  revert s. induction lit as [|a lit IH]; intros s H; [reflexivity|].
  destruct s as [|b s]; cbn [strip startswith] in *; [discriminate|].
  destruct (Ascii.eqb a b); [|discriminate]. exact (IH s H).
Qed.

Lemma subst_without_lit (lit : str) (x : ascii) (repl s : str) :
  lit <> [] -> contains lit s = false -> subst lit x repl s = s.
Proof.
  intros Hlit. induction s as [|c s IH]; intros Hs.
  - now apply subst_nil.
  - cbn [contains] in Hs. apply orb_false_iff in Hs as [Hhead Htail].
    rewrite subst_no_match.
    + now rewrite IH.
    + unfold lit_match.
      destruct (strip lit (c :: s)) as [rest|] eqn:Hstrip; [|reflexivity].
      apply strip_startswith in Hstrip. congruence.
Qed.

(** X16. [ReportGenerator._sanitize_file_path] returns
    unchanged every path that contains neither [/Users/] nor [\Users\]: a
    home directory under another root, such as [/home/<name>/], keeps its
    name. *)
Theorem report_sanitize_keeps_other_paths (file_path : str) :
  contains (L "/Users/") file_path = false ->
  contains (L "\Users\") file_path = false ->
  ReportGenerator._sanitize_file_path file_path = Some file_path.
Proof.
  intros Hunix Hwin.
  rewrite report_sanitize_file_path_total, sanitized_path_two. f_equal.
  rewrite (subst_without_lit (users_dir "/") "/" _ file_path)
    by (discriminate || exact Hunix).
  apply subst_without_lit; [discriminate|exact Hwin].
Qed.

Lemma report_sanitize_keeps_other_paths_witness :
  ReportGenerator._sanitize_file_path (L "/home/alice/cards.csv")
  = Some (L "/home/alice/cards.csv").
Proof.
  apply report_sanitize_keeps_other_paths; reflexivity.
Defined.
(** ** Requests and retries *)

Section Requests.
Context {E : Extern}.
Variable server_url : option str.
Variable max_retries : nat.
Variable session : nat -> SecureClient.request -> SecureClient.response.

Let attempts := SecureClient.attempts max_retries session.

Lemma snd_again (r : option json * list SecureClient.request)
      (sent : list SecureClient.request) :
  snd (let '(response, more) := r in (response, sent ++ more))
  = sent ++ snd r.
Proof. now destruct r. Qed.

Lemma fst_again (r : option json * list SecureClient.request)
      (sent : list SecureClient.request) :
  fst (let '(response, more) := r in (response, sent ++ more)) = fst r.
Proof. now destruct r. Qed.

(** A method that is neither POST nor GET: every attempt raises before
    anything is sent. *)
Lemma attempts_unsupported (method url : str) (data : option json)
      (fuel : nat) :
  SecureClient.request_of method url data = None ->
  forall attempt : nat, attempts fuel attempt method url data = (None, []).
Proof.
  intros Hreq. induction fuel as [|fuel IH]; intros attempt; [reflexivity|].
  unfold attempts in *. cbn [SecureClient.attempts]. rewrite Hreq.
  rewrite IH. destruct (attempt =? max_retries); reflexivity.
Qed.

Lemma attempts_sent (method url : str) (data : option json)
      (req : SecureClient.request) (fuel : nat) :
  SecureClient.request_of method url data = Some req ->
  forall attempt : nat,
    length (snd (attempts fuel attempt method url data)) <= fuel
    /\ forall sent : SecureClient.request,
         In sent (snd (attempts fuel attempt method url data)) -> sent = req.
Proof.
  intros Hreq. induction fuel as [|fuel IH]; intros attempt.
  - cbn. split; [lia|contradiction].
  - specialize (IH (S attempt)). destruct IH as [Hlen Hsame].
    unfold attempts in *. cbn [SecureClient.attempts]. rewrite Hreq.
    set (rest := SecureClient.attempts max_retries session fuel (S attempt)
                                       method url data) in *.
    assert (Hagain :
              length (snd (let '(r, more) := rest in (r, [req] ++ more)))
              <= S fuel
              /\ forall x,
                   In x (snd (let '(r, more) := rest in (r, [req] ++ more))) ->
                   x = req).
    { rewrite snd_again. split; [cbn [length app]; lia|].
      intros x [<-|Hx]; [reflexivity|auto]. }
    assert (Hone : length [req] <= S fuel
                   /\ forall x, In x [req] -> x = req).
    { split; [cbn [length]; lia|]. intros x [<-|[]]. reflexivity. }
    destruct (session attempt req) as [code body|].
    + destruct ((code =? 200) || (code =? 201)).
      { destruct (SecureClient.body_of body) as [[]|]; try exact Hone.
        destruct (attempt =? max_retries); [exact Hone|exact Hagain]. }
      destruct ((code =? 401) || (code =? 403)); [exact Hone|].
      destruct (code =? 429); [exact Hagain|].
      destruct (attempt <? max_retries); [exact Hagain|exact Hone].
    + destruct (attempt =? max_retries); [exact Hone|exact Hagain].
Qed.

(** X17. [_make_request] sends at most [max_retries + 1] requests, all of
    them the same, to the URL made of the server URL and the end point
    joined by one slash: a POST with the body given when the method is POST
    in any case of the letters, else a GET without body when the method is
    GET.  For any other method, and without a server URL, it sends nothing
    and returns [None]. *)
Theorem make_request_sends_bounded (method endpoint : str)
        (data : option json) :
  let result :=
    SecureClient._make_request server_url max_retries session method
                               endpoint data in
  length (snd result) <= max_retries + 1
  /\ (forall (base : str) (sent : SecureClient.request),
         server_url = Some base -> In sent (snd result) ->
         (upper_is (L "POST") method = true
          /\ sent = (L "POST", url_of base endpoint, data))
         \/ (upper_is (L "POST") method = false
             /\ upper_is (L "GET") method = true
             /\ sent = (L "GET", url_of base endpoint, None)))
  /\ (upper_is (L "POST") method = false ->
      upper_is (L "GET") method = false ->
      result = (None, []))
  /\ (server_url = None \/ server_url = Some [] -> result = (None, [])).
Proof.
  cbv zeta. unfold SecureClient._make_request.
  destruct server_url as [[|c base]|].
  - cbn; repeat split; auto; try lia; intros; try contradiction.
  - cbv beta iota. fold (url_of (c :: base) endpoint).
    change (SecureClient.attempts max_retries session) with attempts.
    destruct (SecureClient.request_of method (url_of (c :: base) endpoint)
                                      data) as [req|] eqn:Hreq.
    + destruct (attempts_sent method (url_of (c :: base) endpoint) data
                              req (S max_retries) Hreq 0) as [Hlen Hsame].
      unfold SecureClient.request_of in Hreq.
      split; [|split; [|split]].
      * rewrite Nat.add_1_r. exact Hlen.
      * intros base' sent [= <-] Hin. rewrite (Hsame sent Hin).
        destruct (upper_is (L "POST") method); [left; split; congruence|].
        destruct (upper_is (L "GET") method); [|discriminate].
        right. repeat split; congruence.
      * intros Hpost Hget. rewrite Hpost, Hget in Hreq. discriminate.
      * intros [H|H]; discriminate.
    + rewrite (attempts_unsupported method _ data (S max_retries) Hreq 0).
      cbn [snd length]. split; [lia|].
      split; [intros base' sent _ []|].
      split; [reflexivity|]. intros [H|H]; discriminate.
  - cbn; repeat split; auto; try lia; intros; try contradiction;
      try discriminate.
Qed.

Lemma attempts_outcome (method url : str) (data : option json)
      (req : SecureClient.request) (v : json) (fuel : nat) :
  SecureClient.request_of method url data = Some req ->
  forall attempt : nat,
    attempt + fuel = S max_retries ->
    (fst (attempts fuel attempt method url data) = Some v
     <-> exists k : nat,
           attempt <= k <= max_retries
           /\ accepted (session k req) = Some v
           /\ forall j : nat,
                attempt <= j < k ->
                accepted (session j req) = None
                /\ denied (session j req) = false).
Proof.
  intros Hreq. induction fuel as [|fuel IH]; intros attempt Hfuel.
  - cbn. split; [discriminate|]. intros (k & Hk & _). lia.
  - specialize (IH (S attempt) ltac:(lia)).
    unfold attempts in *. cbn [SecureClient.attempts]. rewrite Hreq.
    rewrite <- (fst_again _ [req]) in IH.
    set (again := let '(r, more) :=
                    SecureClient.attempts max_retries session fuel
                                          (S attempt) method url data in
                  (r, [req] ++ more)) in *.
    assert (Hlater :
              accepted (session attempt req) = None ->
              denied (session attempt req) = false ->
              (fst again = Some v
               <-> exists k : nat,
                     attempt <= k <= max_retries
                     /\ accepted (session k req) = Some v
                     /\ forall j : nat,
                          attempt <= j < k ->
                          accepted (session j req) = None
                          /\ denied (session j req) = false)).
    { intros Hacc Hden. rewrite IH. split.
      - intros (k & Hk & Hv & Hbefore). exists k.
        split; [lia|]. split; [exact Hv|].
        intros j Hj. destruct (Nat.eq_dec j attempt) as [->|Hne]; [auto|].
        apply Hbefore. lia.
      - intros (k & Hk & Hv & Hbefore).
        destruct (Nat.eq_dec k attempt) as [->|Hne]; [congruence|].
        exists k. split; [lia|]. split; [exact Hv|].
        intros j Hj. apply Hbefore. lia. }
    assert (Hnow :
              forall w : json,
                accepted (session attempt req) = Some w ->
                (Some w = Some v
                 <-> exists k : nat,
                       attempt <= k <= max_retries
                       /\ accepted (session k req) = Some v
                       /\ forall j : nat,
                            attempt <= j < k ->
                            accepted (session j req) = None
                            /\ denied (session j req) = false)).
    { intros w Hacc. split.
      - intros [= <-]. exists attempt. split; [lia|].
        split; [exact Hacc|]. intros j Hj. lia.
      - intros (k & Hk & Hv & Hbefore).
        destruct (Nat.eq_dec k attempt) as [->|Hne]; [congruence|].
        destruct (Hbefore attempt ltac:(lia)) as [Hnone _]. congruence. }
    assert (Hnever :
              accepted (session attempt req) = None ->
              denied (session attempt req) = true \/ attempt = max_retries ->
              (@None json = Some v
               <-> exists k : nat,
                     attempt <= k <= max_retries
                     /\ accepted (session k req) = Some v
                     /\ forall j : nat,
                          attempt <= j < k ->
                          accepted (session j req) = None
                          /\ denied (session j req) = false)).
    { intros Hacc Hstop. split; [discriminate|].
      intros (k & Hk & Hv & Hbefore).
      destruct (Nat.eq_dec k attempt) as [->|Hne]; [congruence|].
      destruct Hstop as [Hden|Hlast]; [|lia].
      destruct (Hbefore attempt ltac:(lia)) as [_ Hfalse]. congruence. }
    revert Hlater Hnow Hnever. unfold accepted, denied.
    destruct (session attempt req) as [code body|]; intros Hlater Hnow Hnever.
    + destruct ((code =? 200) || (code =? 201)) eqn:Hok.
      { destruct body as [|value|]; cbn [SecureClient.body_of] in *.
        - cbn [fst]. now apply Hnow.
        - destruct value; cbn [fst];
            try (now apply Hnow).
          apply Hnever; [reflexivity|left; apply orb_true_r].
        - destruct (Nat.eqb_spec attempt max_retries).
          + cbn [fst]. apply Hnever; auto.
          + apply Hlater; [reflexivity|].
            destruct ((code =? 401) || (code =? 403)) eqn:Hden.
            * apply orb_true_iff in Hok as [Hc|Hc];
                apply Nat.eqb_eq in Hc; subst; discriminate.
            * reflexivity. }
      destruct ((code =? 401) || (code =? 403)) eqn:Hden.
      { cbn [fst]. apply Hnever; auto. }
      cbn [orb andb] in *.
      destruct (code =? 429); [now apply Hlater|].
      destruct (Nat.ltb_spec attempt max_retries); [now apply Hlater|].
      cbn [fst]. apply Hnever; [reflexivity|right; lia].
    + destruct (Nat.eqb_spec attempt max_retries); [|now apply Hlater].
      cbn [fst]. apply Hnever; auto.
Qed.

(** X18. For the method POST or GET, with [req] the request it makes,
    [_make_request] returns a value exactly when one of the first
    [max_retries + 1] attempts is answered 200 or 201 with an empty body or
    a JSON body other than [null], and no earlier attempt is answered 401
    or 403, or 200 or 201 with the body [null]; every other answer, a body
    that is not JSON and every exception are retried. *)
Theorem make_request_outcome (base method endpoint : str)
        (data : option json) (req : SecureClient.request) (v : json) :
  server_url = Some base -> base <> [] ->
  SecureClient.request_of method (url_of base endpoint) data = Some req ->
  fst (SecureClient._make_request server_url max_retries session method
                                  endpoint data) = Some v
  <-> exists k : nat,
        k <= max_retries
        /\ accepted (session k req) = Some v
        /\ forall j : nat,
             j < k ->
             accepted (session j req) = None
             /\ denied (session j req) = false.
Proof.
  intros -> Hbase Hreq. unfold SecureClient._make_request.
  destruct base as [|c base]; [congruence|].
  fold (url_of (c :: base) endpoint).
  change (SecureClient.attempts max_retries session) with attempts.
  rewrite (attempts_outcome _ _ _ _ v (S max_retries) Hreq 0) by lia.
  split; intros (k & Hk & Hv & Hbefore); exists k;
    (split; [lia|split; [exact Hv|]]); intros j Hj; apply Hbefore; lia.
Qed.

(** X19. [send_report] returns true only for a report that has
    the required fields and holds no sensitive data, and only after the
    server has answered 200 or 201 to a POST of the transformed report to
    [/api/reports]. *)
Theorem send_report_true_only_if_accepted (report : dict) :
  fst (SecureClient.send_report server_url max_retries session report) = true ->
  SecureClient._validate_report report = Some true
  /\ SecureClient._contains_sensitive_data report = false
  /\ exists (base : str) (server_report : dict) (k : nat),
       server_url = Some base
       /\ SecureClient._transform_report_for_server report
          = Some server_report
       /\ k <= max_retries
       /\ accepted (session k (L "POST", url_of base (L "/api/reports"),
                               Some (JDict server_report))) <> None.
Proof.
  unfold SecureClient.send_report.
  destruct (SecureClient.scan_id_of report); [|discriminate].
  destruct (SecureClient._validate_report report) as [[]|] eqn:Hvalid;
    try discriminate.
  destruct (SecureClient._transform_report_for_server report)
    as [server_report|]; [|discriminate].
  destruct (SecureClient._make_request _ _ _ _ _ _) as [response sent] eqn:Hreq.
  intros Hsent. split; [reflexivity|]. split.
  - unfold SecureClient._validate_report in Hvalid.
    destruct (negb _); [discriminate|].
    cbv zeta in Hvalid. destruct (mapM _ _); [|discriminate].
    cbn [bind] in Hvalid.
    destruct (negb _); [discriminate|].
    destruct (SecureClient._contains_sensitive_data report);
      [discriminate|reflexivity].
  - destruct response as [v|]; [|discriminate].
    destruct server_url as [[|c base]|] eqn:Hurl;
      try (cbn in Hreq; discriminate).
    pose proof (f_equal fst Hreq) as Hfst. cbn [fst] in Hfst.
    unfold SecureClient._make_request in Hfst.
    change (SecureClient.attempts max_retries session) with attempts in Hfst.
    apply (attempts_outcome
             (L "POST") _ (Some (JDict server_report))
             (L "POST", url_of (c :: base) (L "/api/reports"),
              Some (JDict server_report))
             v (S max_retries) eq_refl 0 ltac:(lia)) in Hfst
      as (k & Hk & Hv & _).
    exists (c :: base), server_report, k.
    split; [reflexivity|]. split; [reflexivity|]. split; [lia|].
    rewrite Hv. discriminate.
Qed.

End Requests.

Lemma make_request_outcome_witness :
  fst (SecureClient._make_request (Some (L "https://pci.example/")) 3
                                  flaky_server (L "post") (L "/api/reports")
                                  None)
  = Some (JDict []).
Proof.
  apply (proj2 (make_request_outcome
                  (Some (L "https://pci.example/")) 3 flaky_server
                  (L "https://pci.example/") (L "post") (L "/api/reports")
                  None
                  (L "POST",
                   url_of (L "https://pci.example/") (L "/api/reports"), None)
                  (JDict []) eq_refl ltac:(discriminate) eq_refl)).
  exists 2. split; [lia|]. split; [reflexivity|].
  intros j Hj. destruct j as [|[|j]]; [split; reflexivity..|lia].
Defined.

Lemma send_report_true_only_if_accepted_witness :
  SecureClient._validate_report (E := sample_extern)
                                (report_with_context (L "n/a")) = Some true
  /\ SecureClient._contains_sensitive_data (E := sample_extern)
                                           (report_with_context (L "n/a"))
     = false
  /\ exists (base : str) (server_report : dict) (k : nat),
       Some (L "https://pci.example") = Some base
       /\ SecureClient._transform_report_for_server
            (E := sample_extern) (report_with_context (L "n/a"))
          = Some server_report
       /\ k <= 3
       /\ accepted (accepting_server
                      k (L "POST", url_of base (L "/api/reports"),
                         Some (JDict server_report))) <> None.
Proof.
  apply (send_report_true_only_if_accepted
           (E := sample_extern) (Some (L "https://pci.example")) 3
           accepting_server (report_with_context (L "n/a"))).
  vm_compute. reflexivity.
Defined.
(** ** The walk and the two passes *)

(** Induction on a tree, with the property for every item of a directory. *)
Lemma node_induction (P : FileScanner.node -> Prop) :
  (forall p, P (FileScanner.File p)) ->
  (forall p readable items,
      Forall P items -> P (FileScanner.Dir p readable items)) ->
  (forall p, P (FileScanner.Broken p)) ->
  (forall p, P (FileScanner.Other p)) ->
  forall n, P n.
Proof.
  intros Hfile Hdir Hbroken Hother.
  fix IH 1. intros [p|p readable items|p|p].
  - apply Hfile.
  - apply Hdir. induction items as [|item items IHitems]; constructor.
    + apply IH.
    + exact IHitems.
  - apply Hbroken.
  - apply Hother.
Qed.

Section Walk.
Import FileScanner.
Context {E : Extern}.
Variables max_files max_depth : limit.
Variable exclude_patterns : list str.
Variable files_scanned0 : nat.

Let walk := walk_directory max_files max_depth exclude_patterns
                           files_scanned0.
Let excluded := is_excluded exclude_patterns.

(** What [walk_directory] yields is a file of the tree that no exclusion
    pattern matches. *)
Lemma walk_directory_files (directory : node) :
  forall (current_depth : nat) (file_path : str),
    In file_path (walk directory current_depth) ->
    In file_path (files_of directory) /\ excluded file_path = false.
Proof.
  induction directory as [p|p readable items IH|p|p] using node_induction;
    intros current_depth file_path Hin; try contradiction.
  unfold walk in Hin. cbn [walk_directory] in Hin.
  destruct (exceeds current_depth max_depth); [contradiction|].
  destruct (is_excluded exclude_patterns p); [contradiction|].
  destruct (negb readable); [contradiction|].
  destruct (reaches files_scanned0 max_files); [contradiction|].
  apply in_flat_map in Hin as (item & Hitem & Hin).
  rewrite Forall_forall in IH. specialize (IH item Hitem).
  cbn [files_of].
  assert (Hitems : forall q, In q (files_of item) ->
                             In q (flat_map files_of items)).
  { intros q Hq. apply in_flat_map. now exists item. }
  destruct item as [q|q r sub|q|q]; try contradiction.
  - destruct (is_excluded exclude_patterns q) eqn:Hq; [contradiction|].
    destruct Hin as [<-|[]]. split; [|exact Hq].
    apply Hitems. now left.
  - destruct (IH (S current_depth) file_path Hin) as [Hfile Hexcl].
    split; [now apply Hitems|exact Hexcl].
Qed.

(** X21. [walk_directory] yields only regular files of the tree it is
    given, and none that matches an exclusion pattern; it yields nothing
    for a root that is excluded, that cannot be listed or that is not a
    directory, and nothing once [files_scanned] has reached [max_files]. *)
Theorem walk_directory_yields (directory : node) (current_depth : nat) :
  (forall file_path : str,
      In file_path (walk directory current_depth) ->
      In file_path (files_of directory) /\ excluded file_path = false)
  /\ (reaches files_scanned0 max_files = true ->
      walk directory current_depth = [])
  /\ (forall path readable items,
         directory = Dir path readable items ->
         excluded path = true \/ readable = false ->
         walk directory current_depth = [])
  /\ ((forall path readable items, directory <> Dir path readable items) ->
      walk directory current_depth = []).
Proof.
  split; [|split; [|split]].
  - apply walk_directory_files.
  - intros Hmax. unfold walk.
    destruct directory as [p|p readable items|p|p]; try reflexivity.
    cbn [walk_directory]. rewrite Hmax.
    destruct (exceeds current_depth max_depth),
             (is_excluded exclude_patterns p), (negb readable); reflexivity.
  - intros path readable items -> Hskip. unfold walk.
    cbn [walk_directory]. unfold excluded in Hskip.
    destruct (exceeds current_depth max_depth); [reflexivity|].
    destruct Hskip as [->| ->]; [reflexivity|].
    destruct (is_excluded exclude_patterns path); reflexivity.
  - intros Hother. unfold walk.
    destruct directory as [p|p readable items|p|p]; try reflexivity.
    now contradiction (Hother p readable items).
Qed.

End Walk.
Section WalkDepth.
Import FileScanner.
Context {E : Extern}.
Variable max_files : limit.
Variable depth : nat.
Variable exclude_patterns : list str.
Variable files_scanned0 : nat.

Lemma files_within_dir (k : nat) (p : str) (readable : bool)
      (items : list node) :
  files_within k (Dir p readable items)
  = flat_map
      (fun item =>
         match item with
         | File q => [q]
         | Dir _ _ _ =>
             match k with
             | 0 => []
             | S k' => files_within k' item
             end
         | _ => []
         end)
      items.
Proof. reflexivity. Qed.

(** Against a finite depth limit the walk stays within that many levels
    below the root. *)
Lemma walk_directory_within (directory : node) (file_path : str) :
  In file_path
     (walk_directory max_files (Finite depth) exclude_patterns
                     files_scanned0 directory 0) ->
  In file_path (files_within depth directory).
Proof.
  assert (Hgen : forall (n : node) (current_depth : nat),
             In file_path
                (walk_directory max_files (Finite depth) exclude_patterns
                                files_scanned0 n current_depth) ->
             current_depth <= depth
             /\ In file_path (files_within (depth - current_depth) n)).
  { induction n as [p|p readable items IH|p|p] using node_induction;
      intros current_depth Hin; try contradiction.
    cbn [walk_directory exceeds] in Hin.
    destruct (Nat.ltb_spec depth current_depth) as [|Hdepth];
      [contradiction|].
    destruct (is_excluded exclude_patterns p); [contradiction|].
    destruct (negb readable); [contradiction|].
    destruct (reaches files_scanned0 max_files); [contradiction|].
    split; [exact Hdepth|].
    apply in_flat_map in Hin as (item & Hitem & Hin).
    rewrite Forall_forall in IH. specialize (IH item Hitem).
    rewrite files_within_dir. apply in_flat_map. exists item.
    split; [exact Hitem|].
    destruct item as [q|q r sub|q|q]; try contradiction.
    - destruct (is_excluded exclude_patterns q); [contradiction|exact Hin].
    - destruct (IH (S current_depth) Hin) as [Hle Hfile].
      destruct (depth - current_depth) as [|k] eqn:Hk; [lia|].
      replace k with (depth - S current_depth) by lia. exact Hfile. }
  intros Hin. apply Hgen in Hin as [_ Hin].
  now rewrite Nat.sub_0_r in Hin.
Qed.

(** X22. With [max_recursion_depth] set to a [depth] other than 0, which
    stands for no limit, [walk_directory] yields files of the root and of
    directories at most [depth] levels below it, and of no directory
    further down. *)
Theorem walk_directory_depth (directory : node) (file_path : str) :
  0 < depth ->
  In file_path
     (walk_directory max_files (limit_of depth) exclude_patterns
                     files_scanned0 directory 0) ->
  In file_path (files_within depth directory).
Proof.
  intros Hdepth. unfold limit_of.
  destruct (Nat.eqb_spec depth 0) as [->|_]; [lia|].
  apply walk_directory_within.
Qed.

End WalkDepth.

Lemma walk_directory_depth_witness :
  In (L "/data/a/mid.txt") (files_within 1 nested_root).
Proof.
  apply (walk_directory_depth (E := sample_extern) FileScanner.Unlimited
                              1 [] 0 nested_root (L "/data/a/mid.txt")).
  - lia.
  - vm_compute. right. left. reflexivity.
Defined.

Section Passes.
Import FileScanner.
Context {E : Extern}.
Variable config : Config.
Variables max_files max_depth : limit.
Variable concurrency : positive.
Variable exclude_patterns : list str.
Variable files_scanned0 : nat.
Variable stop_requested : nat -> bool.
Variable content_of : str -> option str.
Variable first_completed : nat -> list str -> nat.

Let walk (directory : node) : list str :=
  walk_directory max_files max_depth exclude_patterns files_scanned0
                 directory 0.
Let counting := counting_pass max_files max_depth exclude_patterns
                              files_scanned0 stop_requested.
Let scan_file := FileScanner.scan_file config content_of.
Let loop := scanning_loop config stop_requested content_of first_completed.
Let scanning := scan_directories config max_files max_depth concurrency
                                 exclude_patterns files_scanned0
                                 stop_requested content_of first_completed.

(** *** Where the counted files come from *)

Lemma count_files_from (yielded : list str) :
  forall (all_files : list str) (events : list dict) (reads : nat)
         (all_files' : list str) (events' : list dict) (reads' : nat),
    count_files max_files stop_requested yielded all_files events reads
    = inr (all_files', events', reads') ->
    forall file_path : str,
      In file_path all_files' ->
      In file_path all_files \/ In file_path yielded.
Proof.
  induction yielded as [|y rest IH];
    intros all_files events reads all_files' events' reads' Hcount p Hp;
    cbn [count_files] in Hcount.
  - injection Hcount as <- _ _. now left.
  - destruct (stop_requested reads); [discriminate|].
    destruct (reaches _ max_files).
    + injection Hcount as <- _ _.
      apply in_app_or in Hp as [Hp|[<-|[]]]; [now left|right; now left].
    + destruct (IH _ _ _ _ _ _ Hcount p Hp) as [Hin|Hin].
      * apply in_app_or in Hin as [Hin|[<-|[]]]; [now left|right; now left].
      * right. now right.
Qed.

Lemma count_directories_from (directories : list node) :
  forall (all_files : list str) (events : list dict) (reads : nat)
         (all_files' : list str) (events' : list dict) (reads' : nat),
    count_directories max_files max_depth exclude_patterns files_scanned0
                      stop_requested directories all_files events reads
    = Counted all_files' events' reads' ->
    forall file_path : str,
      In file_path all_files' ->
      In file_path all_files
      \/ exists directory : node,
           In directory directories /\ In file_path (walk directory).
Proof.
  induction directories as [|directory rest IH];
    intros all_files events reads all_files' events' reads' Hcount p Hp;
    cbn [count_directories] in Hcount.
  - injection Hcount as <- _ _. now left.
  - destruct (count_files _ _ _ _ _ _) as [|[[all1 events1] reads1]] eqn:Hdir;
      [discriminate|].
    destruct (IH _ _ _ _ _ _ Hcount p Hp) as [Hin|(d & Hd & Hin)].
    + destruct (count_files_from _ _ _ _ _ _ _ Hdir p Hin) as [Hold|Hnew].
      * now left.
      * right. exists directory. split; [now left|exact Hnew].
    + right. exists d. split; [now right|exact Hin].
Qed.

Lemma counting_pass_from (directories : list node) (all_files : list str)
      (events : list dict) (reads : nat) (file_path : str) :
  counting directories = Counted all_files events reads ->
  In file_path all_files ->
  exists directory : node,
    In directory directories /\ In file_path (walk directory).
Proof.
  intros Hcount Hin.
  destruct (count_directories_from _ _ _ _ _ _ _ Hcount file_path Hin)
    as [[]|H].
  exact H.
Qed.

(** *** Where the matches come from *)

Lemma scan_file_path (file_path : str) (m : PANMatch) :
  In m (scan_file file_path) -> DetectionEngine.file_path m = file_path.
Proof.
  unfold scan_file, FileScanner.scan_file.
  destruct (content_of file_path) as [content|]; [|contradiction].
  intros Hin. apply scan_text_In in Hin
    as (line_num & line & t & pattern & start & end_ & _ & _ & _ & _ & Hhit).
  open_scan_hit_in Hhit. cbv zeta in Hhit.
  destruct (_ || _); [discriminate|].
  destruct (_ && _); [discriminate|].
  destruct (PrimFloat.ltb _ _); [discriminate|].
  injection Hhit as <-. reflexivity.
Qed.

Lemma remove_at_In {A : Type} (i : nat) (l : list A) (a : A) :
  In a (remove_at i l) -> In a l.
Proof.
  unfold remove_at. intros Hin. apply in_app_or in Hin as [Hin|Hin].
  - rewrite <- (firstn_skipn i l). apply in_or_app. now left.
  - rewrite <- (firstn_skipn (S i) l). apply in_or_app. now right.
Qed.

Lemma scanning_loop_from (all_files : list str) (fuel : nat) :
  forall st : Pass2,
    (forall p, In p (futures st) -> In p all_files) ->
    (forall m, In m (all_matches st) ->
               In (DetectionEngine.file_path m) all_files) ->
    forall m,
      In m (all_matches (loop fuel all_files st)) ->
      In (DetectionEngine.file_path m) all_files.
Proof.
  induction fuel as [|fuel IH]; intros st Hfutures Hmatches;
    [exact Hmatches|].
  unfold loop in *. cbn [scanning_loop].
  destruct (futures st) as [|f fs] eqn:Hfs; [exact Hmatches|].
  destruct (stop_requested (reads st)); [exact Hmatches|].
  set (i := first_completed (files_completed st) (f :: fs)
            mod length (f :: fs)).
  assert (Hi : i < length (f :: fs))
    by (apply Nat.mod_upper_bound; discriminate).
  assert (Hdone : forall m,
             In m (all_matches st
                   ++ FileScanner.scan_file config content_of
                        (nth i (f :: fs) [])) ->
             In (DetectionEngine.file_path m) all_files).
  { intros m Hm. apply in_app_or in Hm as [Hm|Hm]; [auto|].
    apply scan_file_path in Hm. rewrite Hm.
    apply Hfutures, nth_In, Hi. }
  assert (Hrest : forall p, In p (remove_at i (f :: fs)) -> In p all_files).
  { intros p Hp. apply Hfutures. exact (remove_at_In _ _ _ Hp). }
  destruct (Nat.ltb_spec (file_index st) (length all_files)) as [Hnext|Hnext].
  - destruct (negb (stop_requested (S (reads st)))).
    + apply IH; cbn [futures all_matches]; [|exact Hdone].
      intros p Hp. apply in_app_or in Hp as [Hp|[<-|[]]]; [auto|].
      apply nth_In, Hnext.
    + apply IH; cbn [futures all_matches]; assumption.
  - apply IH; cbn [futures all_matches]; assumption.
Qed.

(** X25. Every match [scan_directories] returns names a file
    that [walk_directory] yielded for one of the roots: a regular file of
    that tree that matches no exclusion pattern. *)
Theorem scan_directories_sources (directories : list node) (m : PANMatch) :
  In m (fst (scanning directories)) ->
  exists directory : node,
    In directory directories
    /\ In (DetectionEngine.file_path m) (walk directory)
    /\ In (DetectionEngine.file_path m) (files_of directory)
    /\ is_excluded exclude_patterns (DetectionEngine.file_path m) = false.
Proof.
  unfold scanning, scan_directories.
  fold counting.
  destruct (counting directories) as [events|all_files events reads]
    eqn:Hcount; [contradiction|].
  destruct (length all_files =? 0); [contradiction|].
  cbn [fst]. intros Hin.
  apply (scanning_loop_from all_files) in Hin.
  - destruct (counting_pass_from _ _ _ _ _ Hcount Hin) as (d & Hd & Hfile).
    exists d. split; [exact Hd|]. split; [exact Hfile|].
    exact (walk_directory_files max_files max_depth exclude_patterns
                                files_scanned0 d 0 _ Hfile).
  - cbn [futures]. intros p Hp.
    rewrite <- (firstn_skipn (Nat.min (Pos.to_nat concurrency * 2)
                                       (length all_files)) all_files).
    apply in_or_app. now left.
  - cbn [all_matches]. contradiction.
Qed.

(** *** The progress events *)

Lemma phase_event_progress (phase message : str) (a b c : nat) :
  In phase [L "counting"; L "scanning"; L "complete"] ->
  progress_event (phase_event phase message a b c).
Proof.
  intros Hphase. split; [|split].
  - exists phase. split; [reflexivity|exact Hphase].
  - exists a, b, c. repeat split; reflexivity.
  - reflexivity.
Qed.

Lemma scanning_event_progress (a b c : nat) (current_file : str)
      (in_queue : nat) :
  progress_event (scanning_event a b c current_file in_queue).
Proof.
  split; [|split].
  - exists (L "scanning"). split; [reflexivity|]. right. now left.
  - exists a, b, c. repeat split; reflexivity.
  - reflexivity.
Qed.

Lemma complete_event_progress (a b c : nat) :
  progress_event (complete_event a b c).
Proof.
  split; [|split].
  - exists (L "complete"). split; [reflexivity|]. right. right. now left.
  - exists a, b, c. repeat split; reflexivity.
  - reflexivity.
Qed.

Lemma Forall_snoc {A : Type} (P : A -> Prop) (l : list A) (a : A) :
  Forall P l -> P a -> Forall P (l ++ [a]).
Proof.
  intros Hl Ha. apply Forall_app. split; [exact Hl|]. now constructor.
Qed.

Lemma count_files_events (yielded : list str) :
  forall (all_files : list str) (events : list dict) (reads : nat),
    Forall progress_event events ->
    match count_files max_files stop_requested yielded all_files events reads
    with
    | inl events' => Forall progress_event events'
    | inr (_, events', _) => Forall progress_event events'
    end.
Proof.
  induction yielded as [|y rest IH]; intros all_files events reads Hev;
    cbn [count_files]; [exact Hev|].
  set (events1 := if _ =? 0 then _ else events).
  assert (Hev1 : Forall progress_event events1).
  { unfold events1. destruct (_ =? 0); [|exact Hev].
    apply Forall_snoc; [exact Hev|].
    apply phase_event_progress. now left. }
  destruct (stop_requested reads); [exact Hev1|].
  destruct (reaches _ max_files); [exact Hev1|].
  now apply IH.
Qed.

Lemma count_directories_events (directories : list node) :
  forall (all_files : list str) (events : list dict) (reads : nat),
    Forall progress_event events ->
    match count_directories max_files max_depth exclude_patterns
                            files_scanned0 stop_requested directories
                            all_files events reads with
    | Stopped events' => Forall progress_event events'
    | Counted _ events' _ => Forall progress_event events'
    end.
Proof.
  induction directories as [|directory rest IH];
    intros all_files events reads Hev; cbn [count_directories]; [exact Hev|].
  pose proof (count_files_events
                (walk_directory max_files max_depth exclude_patterns
                                files_scanned0 directory 0)
                all_files events reads Hev) as Hdir.
  destruct (count_files _ _ _ _ _ _) as [events1|[[all1 events1] reads1]];
    [exact Hdir|].
  now apply IH.
Qed.

Lemma scanning_loop_events (all_files : list str) (fuel : nat) :
  forall st : Pass2,
    Forall progress_event (FileScanner.events st) ->
    Forall progress_event (FileScanner.events (loop fuel all_files st)).
Proof.
  induction fuel as [|fuel IH]; intros st Hev; [exact Hev|].
  unfold loop in *. cbn [scanning_loop].
  destruct (futures st) as [|f fs]; [exact Hev|].
  destruct (stop_requested (reads st)); [exact Hev|].
  assert (Hev1 : forall a b c d e,
             Forall progress_event
                    (FileScanner.events st ++ [scanning_event a b c d e])).
  { intros. apply Forall_snoc; [exact Hev|]. apply scanning_event_progress. }
  destruct (file_index st <? length all_files);
    [destruct (negb (stop_requested (S (reads st))))|];
    apply IH; cbn [FileScanner.events]; apply Hev1.
Qed.

Lemma count_files_extends (yielded : list str) :
  forall (all_files : list str) (events : list dict) (reads : nat),
    exists more : list dict,
      match count_files max_files stop_requested yielded all_files events
                        reads with
      | inl events' => events'
      | inr (_, events', _) => events'
      end = events ++ more.
Proof.
  induction yielded as [|y rest IH]; intros all_files events reads;
    cbn [count_files].
  - exists []. now rewrite app_nil_r.
  - set (events1 := if _ =? 0 then _ else events).
    assert (Hev1 : exists more, events1 = events ++ more).
    { unfold events1. destruct (_ =? 0); eexists; [reflexivity|].
      symmetry. apply app_nil_r. }
    destruct Hev1 as [more1 Hev1].
    destruct (stop_requested reads); [now exists more1|].
    destruct (reaches _ max_files); [now exists more1|].
    destruct (IH (all_files ++ [y]) events1 (S reads)) as [more Hmore].
    exists (more1 ++ more). now rewrite Hmore, Hev1, app_assoc.
Qed.

Lemma count_directories_extends (directories : list node) :
  forall (all_files : list str) (events : list dict) (reads : nat),
    exists more : list dict,
      match count_directories max_files max_depth exclude_patterns
                              files_scanned0 stop_requested directories
                              all_files events reads with
      | Stopped events' => events'
      | Counted _ events' _ => events'
      end = events ++ more.
Proof.
  induction directories as [|directory rest IH];
    intros all_files events reads; cbn [count_directories].
  - exists []. now rewrite app_nil_r.
  - destruct (count_files_extends
                (walk_directory max_files max_depth exclude_patterns
                                files_scanned0 directory 0)
                all_files events reads) as [more1 Hdir].
    destruct (count_files _ _ _ _ _ _) as [events1|[[all1 events1] reads1]].
    + now exists more1.
    + destruct (IH all1 events1 reads1) as [more Hmore].
      exists (more1 ++ more). now rewrite Hmore, Hdir, app_assoc.
Qed.

Lemma scanning_loop_extends (all_files : list str) (fuel : nat) :
  forall st : Pass2,
    exists more : list dict,
      FileScanner.events (loop fuel all_files st)
      = FileScanner.events st ++ more.
Proof.
  induction fuel as [|fuel IH]; intros st.
  - exists []. now rewrite app_nil_r.
  - unfold loop in *. cbn [scanning_loop].
    destruct (futures st) as [|f fs];
      [exists []; now rewrite app_nil_r|].
    destruct (stop_requested (reads st));
      [exists []; cbn [FileScanner.events]; now rewrite app_nil_r|].
    destruct (file_index st <? length all_files);
      [destruct (negb (stop_requested (S (reads st))))|];
      match goal with
      | |- context [scanning_loop _ _ _ _ fuel all_files ?st'] =>
          destruct (IH st') as [more Hmore]; rewrite Hmore;
            cbn [FileScanner.events]; rewrite <- app_assoc; eexists;
            reflexivity
      end.
Qed.

(** X26. Every event [scan_directories] hands to the progress
    callback holds a phase and the counters [files_scanned], [total_files]
    and [matches_found], and none holds [files_completed]; the first event
    is the counting event.  The callback of the command line, which reads
    [files_completed], therefore fails on each of them. *)
Theorem scan_directories_events (directories : list node) :
  Forall (fun event =>
            progress_event event
            /\ Main.cli_progress_callback event = None)
         (snd (scanning directories))
  /\ hd_error (snd (scanning directories))
     = Some (phase_event (L "counting") (L "Counting files...") 0 0 0).
Proof.
  assert (Hcallback : forall event,
             progress_event event ->
             progress_event event
             /\ Main.cli_progress_callback event = None).
  { intros event Hev. split; [exact Hev|].
    destruct Hev as (_ & _ & Hnone).
    unfold Main.cli_progress_callback. now rewrite Hnone. }
  assert (Hinit : Forall progress_event
                         [phase_event (L "counting") (L "Counting files...")
                                      0 0 0]).
  { constructor; [|constructor]. apply phase_event_progress. now left. }
  split.
  - apply (Forall_impl _ Hcallback).
    unfold scanning, scan_directories, counting_pass.
    pose proof (count_directories_events directories [] _ 0 Hinit) as Hcount.
    destruct (count_directories _ _ _ _ _ _ _ _ _)
      as [events|all_files events reads]; [exact Hcount|].
    destruct (length all_files =? 0); [exact Hcount|].
    cbn [snd]. apply Forall_snoc; [|apply complete_event_progress].
    apply scanning_loop_events. cbn [FileScanner.events].
    apply Forall_snoc; [exact Hcount|].
    apply phase_event_progress. right. now left.
  - unfold scanning, scan_directories, counting_pass.
    destruct (count_directories_extends
                directories []
                [phase_event (L "counting") (L "Counting files...") 0 0 0] 0)
      as [more Hmore].
    destruct (count_directories _ _ _ _ _ _ _ _ _)
      as [events|all_files events reads]; [now rewrite Hmore|].
    destruct (length all_files =? 0); [now rewrite Hmore|].
    cbn [snd].
    match goal with
    | |- context [scanning_loop _ _ _ _ ?fuel all_files ?st] =>
        destruct (scanning_loop_extends all_files fuel st) as [more2 Hmore2]
    end.
    unfold loop in Hmore2. rewrite Hmore2. cbn [FileScanner.events].
    now rewrite Hmore.
Qed.

(** *** A scan without files *)

Lemma count_directories_empty (directories : list node) :
  (forall directory, In directory directories -> walk directory = []) ->
  forall (all_files : list str) (events : list dict) (reads : nat),
    count_directories max_files max_depth exclude_patterns files_scanned0
                      stop_requested directories all_files events reads
    = Counted all_files events reads.
Proof.
  induction directories as [|directory rest IH];
    intros Hempty all_files events reads; cbn [count_directories];
    [reflexivity|].
  unfold walk in Hempty. rewrite (Hempty directory (or_introl eq_refl)).
  cbn [count_files]. apply IH. intros d Hd. apply Hempty. now right.
Qed.

(** X27. When [walk_directory] yields no file for any root,
    [scan_directories] returns no match and the callback receives the
    first counting event only: no completion event is sent. *)
Theorem scan_directories_without_files (directories : list node) :
  (forall directory, In directory directories -> walk directory = []) ->
  scanning directories
  = ([], [phase_event (L "counting") (L "Counting files...") 0 0 0]).
Proof.
  intros Hempty. unfold scanning, scan_directories, counting_pass.
  now rewrite (count_directories_empty directories Hempty).
Qed.

(** *** A scan that is not stopped *)

Hypothesis never_stopped : forall read : nat, stop_requested read = false.

Lemma count_files_all (yielded : list str) :
  forall (all_files : list str) (events : list dict) (reads : nat),
    max_files = Unlimited ->
    exists events' : list dict,
      count_files max_files stop_requested yielded all_files events reads
      = inr (all_files ++ yielded, events', reads + length yielded).
Proof.
  induction yielded as [|y rest IH]; intros all_files events reads Hmax;
    cbn [count_files].
  - exists events. now rewrite app_nil_r, Nat.add_0_r.
  - rewrite never_stopped, Hmax. cbn [reaches]. rewrite <- Hmax.
    destruct (IH (all_files ++ [y])
                 (if length (all_files ++ [y]) mod 1000 =? 0
                  then events ++
                       [phase_event (L "counting")
                          (L "Found "
                             ++ int_repr (Z.of_nat (length (all_files ++ [y])))
                             ++ L " files...")
                          0 (length (all_files ++ [y])) 0]
                  else events)
                 (S reads) Hmax) as [events' Hrest].
    exists events'. rewrite Hrest, <- app_assoc. cbn [app length].
    now rewrite Nat.add_succ_r.
Qed.

Lemma count_directories_all (directories : list node) :
  forall (all_files : list str) (events : list dict) (reads : nat),
    max_files = Unlimited ->
    exists events' : list dict,
      count_directories max_files max_depth exclude_patterns files_scanned0
                        stop_requested directories all_files events reads
      = Counted (all_files ++ flat_map walk directories) events'
                (reads + length (flat_map walk directories)).
Proof.
  induction directories as [|directory rest IH];
    intros all_files events reads Hmax; cbn [count_directories flat_map].
  - exists events. now rewrite app_nil_r, Nat.add_0_r.
  - destruct (count_files_all (walk directory) all_files events reads Hmax)
      as [events1 Hdir].
    unfold walk in Hdir at 1. rewrite Hdir.
    destruct (IH (all_files ++ walk directory) events1
                 (reads + length (walk directory)) Hmax)
      as [events' Hrest].
    exists events'. rewrite Hrest, <- app_assoc, length_app.
    now rewrite Nat.add_assoc.
Qed.

(** X24. Without a limit on the number of files
    ([max_files_per_scan] 0) and without a stop request, the counting pass
    lists every file [walk_directory] yields, root after root. *)
Theorem counting_pass_unlimited (directories : list node) :
  max_files = Unlimited ->
  exists events : list dict,
    counting directories
    = Counted (flat_map walk directories) events
              (length (flat_map walk directories)).
Proof.
  intros Hmax. unfold counting, counting_pass.
  exact (count_directories_all directories [] _ 0 Hmax).
Qed.

Lemma nth_remove_at {A : Type} (i : nat) (l : list A) (d : A) :
  i < length l -> Permutation (nth i l d :: remove_at i l) l.
Proof.
  revert i. induction l as [|a l IH]; intros i Hi; cbn [length] in Hi;
    [lia|].
  destruct i as [|i]; [reflexivity|].
  unfold remove_at. cbn [nth firstn skipn app].
  etransitivity; [apply perm_swap|]. constructor.
  apply IH. lia.
Qed.

Lemma firstn_succ_nth {A : Type} (i : nat) (l : list A) (d : A) :
  i < length l -> firstn (S i) l = firstn i l ++ [nth i l d].
Proof.
  revert i. induction l as [|a l IH]; intros i Hi; cbn [length] in Hi;
    [lia|].
  destruct i as [|i]; [reflexivity|].
  cbn [firstn nth app]. f_equal. apply IH. lia.
Qed.

(** The scanning loop, when no stop is requested, goes through every
    counted file once. *)
Lemma scanning_loop_complete (all_files : list str) (fuel : nat) :
  forall (st : Pass2) (processed : list str),
    all_matches st = flat_map scan_file processed ->
    Permutation (processed ++ futures st)
                (firstn (file_index st) all_files) ->
    files_completed st = length processed ->
    file_index st <= length all_files ->
    (file_index st < length all_files -> futures st <> []) ->
    length all_files - length processed <= fuel ->
    exists order : list str,
      Permutation order all_files
      /\ all_matches (loop fuel all_files st) = flat_map scan_file order
      /\ files_completed (loop fuel all_files st) = length all_files.
Proof.
  assert (Hdone :
            forall (st : Pass2) (processed : list str),
              all_matches st = flat_map scan_file processed ->
              Permutation (processed ++ futures st)
                          (firstn (file_index st) all_files) ->
              files_completed st = length processed ->
              file_index st <= length all_files ->
              (futures st = [] -> length all_files <= file_index st) ->
              futures st = [] \/ length all_files <= length processed ->
              Permutation processed all_files
              /\ length processed = length all_files
              /\ futures st = []).
  { intros st processed _ Hperm _ Hle Hempty Hend.
    pose proof (Permutation_length Hperm) as Hlen.
    rewrite length_app, length_firstn in Hlen.
    assert (Hnil : futures st = []).
    { destruct Hend as [H|H]; [exact H|].
      destruct (futures st); [reflexivity|cbn [length] in Hlen; lia]. }
    rewrite Hnil, app_nil_r in Hperm. rewrite Hnil in Hlen.
    cbn [length] in Hlen. specialize (Hempty Hnil).
    rewrite firstn_all2 in Hperm by lia.
    split; [exact Hperm|]. split; [|exact Hnil].
    exact (Permutation_length Hperm). }
  induction fuel as [|fuel IH];
    intros st processed Hmatches Hperm Hcompleted Hle Hnext Hfuel.
  - assert (Hempty : futures st = [] ->
                      length all_files <= file_index st).
    { intros Hnil.
      destruct (Nat.le_gt_cases (length all_files) (file_index st))
        as [H|H]; [exact H|]. now contradiction (Hnext H). }
    destruct (Hdone st processed Hmatches Hperm Hcompleted Hle Hempty)
      as (Hp & Hlen & _); [right; lia|].
    exists processed. cbn. split; [exact Hp|]. split; [exact Hmatches|].
    congruence.
  - unfold loop in *. cbn [scanning_loop].
    destruct (futures st) as [|f fs] eqn:Hfs.
    + assert (Hfi : length all_files <= file_index st).
      { destruct (Nat.le_gt_cases (length all_files) (file_index st))
          as [H|H]; [exact H|]. now contradiction (Hnext H). }
      rewrite <- Hfs in Hperm.
      destruct (Hdone st processed Hmatches Hperm Hcompleted Hle)
        as (Hp & Hlen & _); [intros; exact Hfi|now left|].
      exists processed. split; [exact Hp|]. split; [exact Hmatches|].
      congruence.
    + rewrite !never_stopped. cbn [negb].
      set (i := first_completed (files_completed st) (f :: fs)
                mod length (f :: fs)).
      assert (Hi : i < length (f :: fs))
        by (apply Nat.mod_upper_bound; discriminate).
      set (file_path := nth i (f :: fs) []).
      assert (Hperm1 :
                Permutation ((processed ++ [file_path])
                             ++ remove_at i (f :: fs))
                            (firstn (file_index st) all_files)).
      { rewrite <- Hperm, <- app_assoc. apply Permutation_app_head.
        cbn [app]. apply nth_remove_at, Hi. }
      assert (Hmatches1 :
                all_matches st ++ FileScanner.scan_file config content_of
                                    file_path
                = flat_map scan_file (processed ++ [file_path])).
      { rewrite flat_map_app, Hmatches. cbn [flat_map].
        now rewrite app_nil_r. }
      assert (Hcompleted1 : S (files_completed st)
                            = length (processed ++ [file_path])).
      { rewrite length_app, Hcompleted. cbn [length]. lia. }
      assert (Hfuel1 : length all_files - length (processed ++ [file_path])
                       <= fuel).
      { rewrite length_app. cbn [length]. lia. }
      destruct (Nat.ltb_spec (file_index st) (length all_files)) as [Hlt|Hge].
      * apply (IH _ (processed ++ [file_path]));
          cbn [all_matches futures files_completed FileScanner.file_index].
        -- exact Hmatches1.
        -- rewrite (firstn_succ_nth (file_index st) all_files [] Hlt),
             app_assoc.
           now apply Permutation_app_tail.
        -- exact Hcompleted1.
        -- lia.
        -- intros _ Hnil. apply app_eq_nil in Hnil as [_ Hnil]. discriminate.
        -- exact Hfuel1.
      * apply (IH _ (processed ++ [file_path]));
          cbn [all_matches futures files_completed FileScanner.file_index].
        -- exact Hmatches1.
        -- exact Hperm1.
        -- exact Hcompleted1.
        -- exact Hle.
        -- intros Hlt. lia.
        -- exact Hfuel1.
Qed.

(** X28. When no stop is requested, [scan_directories] scans
    every file the counting pass listed exactly once: the matches it
    returns are those of [scan_file] for the files in the order of their
    completion, and the completion event reports all the files as
    scanned. *)
Theorem scan_directories_complete (directories : list node)
        (all_files : list str) (events : list dict) (reads : nat) :
  counting directories = Counted all_files events reads ->
  exists order : list str,
    Permutation order all_files
    /\ fst (scanning directories) = flat_map scan_file order
    /\ (all_files <> [] ->
        last (snd (scanning directories)) []
        = complete_event (length all_files) (length all_files)
                         (length (fst (scanning directories)))).
Proof.
  intros Hcount. unfold scanning, scan_directories. fold counting.
  rewrite Hcount.
  destruct all_files as [|file_path rest].
  { exists []. cbn. split; [constructor|]. split; [reflexivity|].
    intros H. now contradiction H. }
  set (all_files := file_path :: rest).
  change (length all_files =? 0) with false. cbv iota.
  set (batch := Nat.min (Pos.to_nat concurrency * 2) (length all_files)).
  set (st0 := mkPass2 (firstn batch all_files) batch 0 []
                      (events ++
                       [phase_event (L "scanning") (L "Scanning files...") 0
                                    (length all_files) 0]) reads).
  assert (Hbatch : 1 <= batch <= length all_files).
  { unfold batch, all_files. cbn [length]. lia. }
  destruct (scanning_loop_complete all_files (length all_files) st0 [])
    as (order & Hperm & Hmatches & Hcompleted).
  - reflexivity.
  - reflexivity.
  - reflexivity.
  - cbn [FileScanner.file_index st0]. lia.
  - cbn [FileScanner.file_index futures st0]. intros _ Hnil.
    apply (f_equal (@length str)) in Hnil.
    rewrite length_firstn in Hnil. cbn [length] in Hnil. lia.
  - cbn [length]. lia.
  - exists order. unfold loop in *. cbn [fst snd].
    split; [exact Hperm|]. split; [exact Hmatches|].
    intros _. rewrite last_last, Hcompleted. reflexivity.
Qed.

End Passes.

Lemma scan_directories_sources_witness :
  exists m : PANMatch,
    fst (FileScanner.scan_directories
           (E := sample_extern) default_config (FileScanner.Finite 100)
           (FileScanner.Finite 8) 4 [] 0 (fun _ => false) same_content
           (fun _ _ => 0) one_root) = [m]
    /\ exists directory : FileScanner.node,
         In directory one_root
         /\ In (DetectionEngine.file_path m)
               (FileScanner.walk_directory
                  (E := sample_extern) (FileScanner.Finite 100)
                  (FileScanner.Finite 8) [] 0 directory 0)
         /\ In (DetectionEngine.file_path m) (files_of directory)
         /\ FileScanner.is_excluded (E := sample_extern) []
                                    (DetectionEngine.file_path m) = false.
Proof.
  eexists. split; [vm_compute; reflexivity|].
  apply (scan_directories_sources
           (E := sample_extern) default_config (FileScanner.Finite 100)
           (FileScanner.Finite 8) 4 [] 0 (fun _ => false) same_content
           (fun _ _ => 0) one_root).
  vm_compute. left. reflexivity.
Defined.

Lemma scan_directories_without_files_witness :
  FileScanner.scan_directories
    (E := sample_extern) default_config (FileScanner.Finite 100)
    (FileScanner.Finite 8) 4 [] 0 (fun _ => false) same_content
    (fun _ _ => 0)
    [FileScanner.Dir (L "/empty") true []; FileScanner.Other (L "/missing")]
  = ([], [FileScanner.phase_event (L "counting") (L "Counting files...")
                                  0 0 0]).
Proof.
  apply (scan_directories_without_files
           (E := sample_extern) default_config (FileScanner.Finite 100)
           (FileScanner.Finite 8) 4 [] 0 (fun _ => false) same_content
           (fun _ _ => 0)).
  intros directory [<-|[<-|[]]]; reflexivity.
Defined.

Lemma counting_pass_unlimited_witness :
  exists events : list dict,
    FileScanner.counting_pass
      (E := sample_extern) FileScanner.Unlimited (FileScanner.Finite 8) [] 0
      (fun _ => false) two_roots
    = FileScanner.Counted
        (flat_map (fun directory =>
                     FileScanner.walk_directory
                       (E := sample_extern) FileScanner.Unlimited
                       (FileScanner.Finite 8) [] 0 directory 0)
                  two_roots)
        events
        (length (flat_map (fun directory =>
                             FileScanner.walk_directory
                               (E := sample_extern) FileScanner.Unlimited
                               (FileScanner.Finite 8) [] 0 directory 0)
                          two_roots)).
Proof.
  apply (counting_pass_unlimited
           (E := sample_extern) FileScanner.Unlimited (FileScanner.Finite 8)
           [] 0 (fun _ => false) (fun _ => eq_refl) two_roots eq_refl).
Defined.

Lemma scan_directories_complete_witness :
  exists order : list str,
    Permutation order [L "/a/one.txt"; L "/b/two.txt"]
    /\ fst (FileScanner.scan_directories
              (E := sample_extern) default_config (FileScanner.Finite 100)
              (FileScanner.Finite 8) 4 [] 0 (fun _ => false) same_content
              (fun _ _ => 0) two_roots)
       = flat_map (FileScanner.scan_file default_config same_content) order
    /\ ([L "/a/one.txt"; L "/b/two.txt"] <> [] ->
        last (snd (FileScanner.scan_directories
                     (E := sample_extern) default_config
                     (FileScanner.Finite 100) (FileScanner.Finite 8) 4 [] 0
                     (fun _ => false) same_content (fun _ _ => 0) two_roots))
             []
        = FileScanner.complete_event
            (length [L "/a/one.txt"; L "/b/two.txt"])
            (length [L "/a/one.txt"; L "/b/two.txt"])
            (length (fst (FileScanner.scan_directories
                            (E := sample_extern) default_config
                            (FileScanner.Finite 100) (FileScanner.Finite 8)
                            4 [] 0 (fun _ => false) same_content
                            (fun _ _ => 0) two_roots)))).
Proof.
  apply (scan_directories_complete
           (E := sample_extern) default_config (FileScanner.Finite 100)
           (FileScanner.Finite 8) 4 [] 0 (fun _ => false) same_content
           (fun _ _ => 0) (fun _ => eq_refl) two_roots
           [L "/a/one.txt"; L "/b/two.txt"]
           [FileScanner.phase_event (L "counting") (L "Counting files...")
                                    0 0 0] 2).
  vm_compute. reflexivity.
Defined.

(** X23. With [max_files_per_scan] set to an [n] other than 0, which
    stands for no limit, the counting pass lists at most [n - 1] files plus
    one for each root: the limit is tested after a file is added, and
    reaching it ends the walk of the current root only. *)
Theorem counting_pass_configured_limit
        (E : Extern) (n : nat) (max_depth : FileScanner.limit)
        (exclude_patterns : list str) (files_scanned0 : nat)
        (stop_requested : nat -> bool) (directories : list FileScanner.node)
        (all_files : list str) (events : list dict) (reads : nat) :
  0 < n ->
  FileScanner.counting_pass (FileScanner.limit_of n) max_depth
                            exclude_patterns files_scanned0 stop_requested
                            directories
  = FileScanner.Counted all_files events reads ->
  length all_files <= n - 1 + length directories.
Proof.
  intros Hn. unfold FileScanner.limit_of.
  destruct (Nat.eqb_spec n 0) as [->|_]; [lia|].
  apply (@counting_pass_bound E).
Qed.

Lemma counting_pass_configured_limit_witness :
  length [L "/a/one.txt"; L "/b/two.txt"] <= 1 - 1 + length two_roots.
Proof.
  apply (counting_pass_configured_limit
           sample_extern 1 (FileScanner.Finite 8) [] 0 (fun _ => false)
           two_roots [L "/a/one.txt"; L "/b/two.txt"]
           [FileScanner.phase_event (L "counting") (L "Counting files...")
                                    0 0 0] 2).
  - lia.
  - vm_compute. reflexivity.
Defined.
(** ** The report the agent saves and sends *)

Section GeneratedReport.
Context {E : Extern}.
Variable config : dict.
Variable settings : Config.
Variable agent_id : str.

Lemma config_summary_counts (summary : dict) :
  Main._get_config_summary config = Some summary ->
  exists n : nat,
    get (L "scan_directories") summary = Some (JInt (Z.of_nat n)).
Proof.
  unfold Main._get_config_summary.
  destruct (Main.setting config (L "agent") (L "scan_directories") _)
    as [dirs|]; [|discriminate].
  cbn [bind].
  assert (Hlen : forall x v, Main.len x = Some v ->
                             exists n : nat, v = JInt (Z.of_nat n)).
  { intros [] v H; try discriminate; injection H as <-; eexists;
      reflexivity. }
  destruct (Main.len dirs) as [v|] eqn:Hv; [|discriminate].
  destruct (Hlen _ _ Hv) as [n ->]. cbn [bind].
  repeat match goal with
         | |- bind ?m _ = Some _ -> _ =>
             destruct m; [cbn [bind]|discriminate]
         end.
  intros [= <-]. exists n. reflexivity.
Qed.

(** X29. The hash in a report of [generate_report] is the
    digest of the report as [create_report] built it, before
    [actual_directories] was added: the report that is saved and sent, with
    its hash cleared, has one more entry, and its canonical JSON text is
    not the text that was hashed. *)
Theorem generate_report_hash (scan_id current_operator : str)
        (current_directories : option (list str)) (timestamp : str)
        (scan_stats : dict) (matches : list PANMatch) (report : dict) :
  Main.generate_report config settings agent_id (Some scan_id)
                       current_operator current_directories timestamp
                       scan_stats matches
  = Some report ->
  exists (summary built : dict) (directories : json),
    Main._get_config_summary config = Some summary
    /\ ReportGenerator.build_report settings timestamp agent_id scan_id
                                    current_operator matches scan_stats
                                    summary = Some built
    /\ stored_hash report = Some (JStr (ReportGenerator.report_digest built))
    /\ get (L "actual_directories") report = Some directories
    /\ ReportGenerator.set_report_hash [] report
       = Some (built ++ [(L "actual_directories", directories)])
    /\ dumps true (JDict (built ++ [(L "actual_directories", directories)]))
       <> dumps true (JDict built).
Proof.
  unfold Main.generate_report.
  destruct scan_id as [|c scan_id]; [discriminate|].
  destruct (Main._get_config_summary config) as [summary|]; [|discriminate].
  cbn [bind].
  destruct (create_report_eq settings timestamp agent_id (c :: scan_id)
                             current_operator matches scan_stats summary)
    as (findings & built & h & Hf & _ & Hbuilt & -> & ->).
  cbn [bind].
  match goal with
  | |- bind ?m _ = Some _ -> _ =>
      destruct m as [directories|]; [cbn [bind]|discriminate]
  end.
  intros [= <-]. exists summary, built, directories.
  split; [reflexivity|]. split; [exact Hbuilt|].
  unfold ReportGenerator.build_report in Hbuilt.
  rewrite Hf in Hbuilt. cbn [bind] in Hbuilt. injection Hbuilt as <-.
  split; [reflexivity|]. split; [reflexivity|]. split; [reflexivity|].
  intros Heq. apply (f_equal (fun text => nth_error text 2)) in Heq.
  vm_compute in Heq. discriminate.
Qed.

Lemma Some_inj {A : Type} (a b : A) : Some a = Some b -> a = b.
Proof. now intros [= ->]. Qed.

Lemma scan_date_total (timestamp : str) :
  exists date : json,
    SecureClient.scan_date_of (JStr timestamp) = Some date.
Proof.
  unfold SecureClient.scan_date_of.
  destruct (negb (SecureClient.truthy (JStr timestamp)));
    [eexists; reflexivity|].
  destruct (contains (L "T") timestamp); [|eexists; reflexivity].
  destruct (iso_date timestamp); eexists; reflexivity.
Qed.

Lemma generic_directories_total (n : nat) :
  exists names : json,
    SecureClient.generic_directories (JInt (Z.of_nat n)) = Some names.
Proof. eexists. reflexivity. Qed.

(** X30. [_transform_report_for_server] accepts every report of
    [generate_report]: the report for the server names the directories of
    the scan session in [directories_scanned], and carries the agent, the
    operator, the findings and the hash of the report unchanged. *)
Theorem generated_report_on_the_wire (scan_id current_operator : str)
        (current_directories : option (list str)) (timestamp : str)
        (scan_stats : dict) (matches : list PANMatch) (report : dict) :
  Main.generate_report config settings agent_id (Some scan_id)
                       current_operator current_directories timestamp
                       scan_stats matches
  = Some report ->
  exists (server_report : dict) (directories hash : json)
         (findings : list dict),
    SecureClient._transform_report_for_server report = Some server_report
    /\ get (L "actual_directories") report = Some directories
    /\ get (L "directories_scanned") server_report = Some directories
    /\ get (L "agent_id") server_report = Some (JStr agent_id)
    /\ get (L "operator") server_report = Some (JStr current_operator)
    /\ ReportGenerator._process_findings settings matches = Some findings
    /\ get (L "findings") server_report = Some (JList (map JDict findings))
    /\ stored_hash report = Some hash
    /\ stored_hash server_report = Some hash.
Proof.
  unfold Main.generate_report.
  destruct scan_id as [|c scan_id]; [discriminate|].
  destruct (Main._get_config_summary config) as [summary|] eqn:Hsummary;
    [|discriminate].
  cbn [bind].
  destruct (config_summary_counts summary Hsummary) as [n Hn].
  destruct (create_report_eq settings timestamp agent_id (c :: scan_id)
                             current_operator matches scan_stats summary)
    as (findings & built & h & Hf & _ & Hbuilt & Hh & ->).
  clear Hh. cbn [bind].
  match goal with
  | |- bind ?m _ = Some _ -> _ =>
      destruct m as [directories|]; [cbn [bind]|discriminate]
  end.
  intros [= <-].
  unfold ReportGenerator.build_report in Hbuilt.
  rewrite Hf in Hbuilt. cbn [bind] in Hbuilt.
  apply Some_inj in Hbuilt. subst built.
  assert (Hdirs : get_default (L "scan_directories") (JInt 0) summary
                  = JInt (Z.of_nat n))
    by (unfold get_default; now rewrite Hn).
  rewrite Hdirs.
  destruct (scan_date_total timestamp) as [date Hdate].
  destruct (generic_directories_total n) as [names Hnames].
  eexists _, directories, (JStr h), findings.
  split.
  - unfold SecureClient._transform_report_for_server.
    cbn [get_default get set str_eqb L list_ascii_of_string Ascii.eqb
         Bool.eqb andb SecureClient.dict_get bind].
    rewrite Hdate. cbn [bind]. rewrite Hnames. cbn [bind].
    reflexivity.
  - repeat split; reflexivity || exact Hf.
Qed.

End GeneratedReport.

Lemma generate_report_hash_witness :
  exists report : dict,
    Main.generate_report (E := sample_extern) sample_config default_config
                         (L "pci-agent-0123456789abcdef")
                         (Some (L "scan-1")) (L "auditor")
                         (Some [L "/data"]) (L "2024-05-01T10:00:00+00:00")
                         [] []
    = Some report
    /\ exists (summary built : dict) (directories : json),
         Main._get_config_summary sample_config = Some summary
         /\ ReportGenerator.build_report
              (E := sample_extern) default_config
              (L "2024-05-01T10:00:00+00:00")
              (L "pci-agent-0123456789abcdef") (L "scan-1") (L "auditor")
              [] [] summary = Some built
         /\ stored_hash report
            = Some (JStr (ReportGenerator.report_digest
                            (E := sample_extern) built))
         /\ get (L "actual_directories") report = Some directories
         /\ ReportGenerator.set_report_hash [] report
            = Some (built ++ [(L "actual_directories", directories)])
         /\ dumps (E := sample_extern) true
                  (JDict (built ++ [(L "actual_directories", directories)]))
            <> dumps (E := sample_extern) true (JDict built).
Proof.
  eexists. split; [vm_compute; reflexivity|].
  apply (generate_report_hash
           (E := sample_extern) sample_config default_config
           (L "pci-agent-0123456789abcdef") (L "scan-1") (L "auditor")
           (Some [L "/data"]) (L "2024-05-01T10:00:00+00:00") [] []).
  vm_compute. reflexivity.
Defined.

Lemma generated_report_on_the_wire_witness :
  exists report : dict,
    Main.generate_report (E := sample_extern) sample_config default_config
                         (L "pci-agent-0123456789abcdef")
                         (Some (L "scan-1")) (L "auditor")
                         (Some [L "/data"]) (L "2024-05-01T10:00:00+00:00")
                         [] []
    = Some report
    /\ exists (server_report : dict) (directories hash : json)
              (findings : list dict),
         SecureClient._transform_report_for_server
           (E := sample_extern) report = Some server_report
         /\ get (L "actual_directories") report = Some directories
         /\ get (L "directories_scanned") server_report = Some directories
         /\ get (L "agent_id") server_report
            = Some (JStr (L "pci-agent-0123456789abcdef"))
         /\ get (L "operator") server_report = Some (JStr (L "auditor"))
         /\ ReportGenerator._process_findings
              (E := sample_extern) default_config [] = Some findings
         /\ get (L "findings") server_report
            = Some (JList (map JDict findings))
         /\ stored_hash report = Some hash
         /\ stored_hash server_report = Some hash.
Proof.
  eexists. split; [vm_compute; reflexivity|].
  apply (generated_report_on_the_wire
           (E := sample_extern) sample_config default_config
           (L "pci-agent-0123456789abcdef") (L "scan-1") (L "auditor")
           (Some [L "/data"]) (L "2024-05-01T10:00:00+00:00") [] []).
  vm_compute. reflexivity.
Defined.
(** ** Retained numbers and the transmission gate *)






Section Occurrences.
Context {E : Extern}.



End Occurrences.











Section Retention.
Context {E : Extern}.
Variable settings : Config.


End Retention.

(** ** What the scan is sure to find *)

(** [p{n}] reads exactly [n] characters of the class. *)
Lemma rep_exactly (A : Type) (p : ascii -> bool) (k : Re.cont A) (s : str) :
  forall (u : str) (prev : option ascii),
    forallb p u = true ->
    Re.rep p (length u) (Some (length u)) prev (u ++ s) k
    = k (last_char prev u) s.
Proof.
  induction u as [|c u IH]; intros prev Hu.
  - cbn [length app last_char]. destruct s as [|c s]; cbn [Re.rep Nat.eqb].
    + reflexivity.
    + cbn [Re.can_take]. rewrite andb_false_r. reflexivity.
  - cbn [forallb] in Hu. apply andb_true_iff in Hu as [Hc Hu].
    cbn [length app last_char Re.rep Nat.eqb Re.can_take Nat.pred option_map].
    rewrite Hc. cbn [andb]. rewrite (IH (Some c) Hu).
    destruct (k (last_char (Some c) u) s); reflexivity.
Qed.

(** [p{n}] fails where fewer than [n] characters of the class stand. *)
Lemma rep_exactly_none (A : Type) (p : ascii -> bool) (k : Re.cont A)
      (n : nat) (prev : option ascii) (s : str) :
  (forall c, hd_error s = Some c -> p c = false) ->
  Re.rep p (S n) (Some (S n)) prev s k = None.
Proof.
  intros Hs. destruct s as [|c s]; cbn [Re.rep Nat.eqb]; [reflexivity|].
  rewrite (Hs c eq_refl). reflexivity.
Qed.

Lemma last_char_digit (u : str) (prev : option ascii) :
  u <> [] -> forallb isdecimal u = true ->
  Re.is_word_opt (last_char prev u) = true.
Proof.
  revert prev. induction u as [|c u IH]; intros prev Hne Hu; [congruence|].
  cbn [forallb] in Hu. apply andb_true_iff in Hu as [Hc Hu].
  cbn [last_char]. destruct u as [|c' u].
  - cbn [last_char Re.is_word_opt]. now apply isdecimal_isword.
  - apply IH; [discriminate|exact Hu].
Qed.

(** The VISA pattern reads a bare Visa number whole. *)
Lemma match_at_visa (pattern : Re.regex) (prev : option ascii)
      (run post : str) :
  In (VISA, pattern) compiled_patterns ->
  visa_number run ->
  not_word prev -> not_word (hd_error post) ->
  Re.match_at pattern prev (run ++ post) = Some post.
Proof.
  intros Hin (rest & -> & Hrest & Hlen) Hprev Hpost.
  unfold compiled_patterns in Hin. cbn [In] in Hin.
  destruct Hin as [[= <-]|Hin].
  2:{ repeat (destruct Hin as [[=]|Hin]). contradiction. }
  unfold not_word in Hprev, Hpost.
  assert (Hsplit : exists u v : str,
             rest = u ++ v /\ length u = 12 /\ forallb isdecimal u = true
             /\ forallb isdecimal v = true /\ (v = [] \/ length v = 3)).
  { exists (firstn 12 rest), (skipn 12 rest).
    rewrite firstn_skipn. rewrite <- (firstn_skipn 12 rest) in Hrest.
    rewrite forallb_app in Hrest. apply andb_true_iff in Hrest as [Hu Hv].
    repeat split; auto.
    - rewrite length_firstn. lia.
    - destruct Hlen as [Hlen|Hlen].
      + left. apply length_zero_iff_nil. rewrite length_skipn. lia.
      + right. rewrite length_skipn. lia. }
  destruct Hsplit as (u & v & -> & Hu12 & Hu & Hv & Hv3).
  unfold Re.match_at, Re.Cat, Re.Opt, Re.Exactly, Re.Ch.
  cbn [fold_right Re.rmatch app hd_error Re.is_word_opt].
  rewrite Hprev. change (isword "4") with true. cbn [xorb].
  change (Ascii.eqb "4" "4") with true. cbv iota.
  rewrite <- app_assoc. unfold d. rewrite <- Hu12 at 1 2.
  rewrite rep_exactly by exact Hu.
  assert (Hlast : Re.is_word_opt (last_char (Some "4"%char) u) = true).
  { apply last_char_digit; [|exact Hu]. intros ->. discriminate. }
  destruct Hv3 as [->|Hv3].
  - cbn [app]. rewrite rep_exactly_none.
    2:{ intros c Hc. rewrite Hc in Hpost. cbn in Hpost.
        destruct (isdecimal c) eqn:Hd; [|reflexivity].
        now rewrite (isdecimal_isword _ Hd) in Hpost. }
    rewrite Hlast, Hpost. reflexivity.
  - rewrite <- Hv3 at 1 2. rewrite rep_exactly by exact Hv.
    assert (Hlastv : Re.is_word_opt (last_char (last_char (Some "4"%char) u) v)
                     = true).
    { apply last_char_digit; [|exact Hv]. intros ->. discriminate. }
    rewrite Hlastv, Hpost. reflexivity.
Qed.

Lemma take_while_prefix (p : ascii -> bool) (u rest : str) :
  forallb p u = true -> length u <= length (take_while p (u ++ rest)).
Proof.
  induction u as [|c u IH]; intros Hu; cbn [length app]; [lia|].
  cbn [forallb] in Hu. apply andb_true_iff in Hu as [Hc Hu].
  cbn [take_while]. rewrite Hc. cbn [length]. specialize (IH Hu). lia.
Qed.

(** The scan of a pattern that reads digits reaches every bare number that
    the pattern matches: an earlier match ends before it. *)
Lemma finditer_reaches (r : Re.regex) (run post : str) :
  within isdecimal r ->
  (forall prev, not_word prev -> Re.match_at r prev (run ++ post) = Some post) ->
  forall (pre : str) (prev : option ascii) (pos skip : nat),
    skip <= length pre ->
    not_word (last_char prev pre) ->
    In (pos + length pre, pos + length pre + length run)
       (Re.finditer_from r prev (pre ++ run ++ post) pos skip).
Proof.
  intros Hr Hrun.
  induction pre as [|c pre IH]; intros prev pos skip Hskip Hprev.
  - simpl in Hskip. assert (skip = 0) as -> by lia.
    cbn [app last_char] in *.
    rewrite finditer_from_ready, (Hrun prev Hprev).
    left. unfold Re.match_len. rewrite length_app, !Nat.add_0_r.
    f_equal. lia.
  - cbn [app length last_char] in *.
    replace (pos + S (length pre)) with (S pos + length pre) by lia.
    destruct skip as [|skip]; [rewrite finditer_from_ready|];
      cbn [Re.finditer_from].
    + destruct (Re.match_at _ _ _) as [rest|] eqn:Hm.
      * right. apply IH; [|exact Hprev].
        apply (match_at_sound isdecimal r _ _ _ Hr) in Hm as (u & Heq & Hu).
        pose proof (take_while_prefix isdecimal u rest Hu) as Hshort.
        rewrite <- Heq in Hshort.
        pose proof (@take_while_stops isdecimal (c :: pre) (run ++ post) prev
                      ltac:(discriminate)
                      (not_word_not_digit Hprev)) as Hstop.
        change ((c :: pre) ++ run ++ post) with (c :: pre ++ run ++ post)
          in Hstop.
        change (length (c :: pre)) with (S (length pre)) in Hstop.
        unfold Re.match_len. rewrite Heq at 1. rewrite length_app. lia.
      * apply IH; [lia|exact Hprev].
    + apply IH; [lia|exact Hprev].
Qed.

Lemma enumerate_nth {A : Type} (xs : list A) :
  forall (start i : nat) (x : A),
    nth_error xs i = Some x -> In (start + i, x) (enumerate start xs).
Proof.
  induction xs as [|y xs IH]; intros start i x Hnth.
  - destruct i; discriminate.
  - destruct i as [|i]; cbn [nth_error enumerate] in *.
    + injection Hnth as ->. left. f_equal. lia.
    + right. replace (start + S i) with (S start + i) by lia.
      now apply IH.
Qed.

(** X8. At the default minimum confidence of 0.7 [scan_text]
    reports every Visa number (a 4 followed by 12 or 15 more digits) that
    passes the Luhn check and touches no word character on either side, on
    a line that the masked-line filter lets through: the match has the
    card type visa, the line and the columns of the number, and its masked
    form. *)
Theorem scan_text_finds_visa_number (cfg : Config) (text file_path : str)
        (i : nat) (pre run post : str) :
  min_confidence cfg = 0.7%float ->
  nth_error (split_lines text) i = Some (pre ++ run ++ post) ->
  is_masked_number cfg (pre ++ run ++ post) = false ->
  visa_number run ->
  luhn_check run = Some true ->
  not_word (last_char None pre) ->
  not_word (hd_error post) ->
  exists m : PANMatch,
    In m (scan_text cfg text file_path)
    /\ card_type m = VISA
    /\ line_number m = S i
    /\ column_start m = length pre
    /\ column_end m = length pre + length run
    /\ luhn_valid m = true
    /\ masked_match m = mask_pan run (show_last4_only cfg).
Proof.
  intros Hmin Hline Hmask Hvisa Hluhn Hpre Hpost.
  assert (Hpat : exists pattern, In (VISA, pattern) compiled_patterns)
    by (eexists; left; reflexivity).
  destruct Hpat as (pattern & Hpat).
  assert (Hspan : In (length pre, length pre + length run)
                     (Re.finditer pattern (pre ++ run ++ post))).
  { apply (finditer_reaches pattern run post
             (compiled_patterns_digits _ _ Hpat)
             (fun prev Hprev =>
                match_at_visa pattern prev run post Hpat Hvisa Hprev Hpost)
             pre None 0 0); [lia|exact Hpre]. }
  assert (Hdigits : forallb isdecimal run = true).
  { destruct Hvisa as (rest & -> & Hrest & _). cbn [forallb].
    now rewrite Hrest. }
  assert (Hlen : 13 <= length run <= 19).
  { destruct Hvisa as (rest & -> & _ & Hlen). cbn [length]. lia. }
  rewrite (luhn_check_decimal run Hdigits) in Hluhn.
  apply Some_inj in Hluhn.
  destruct (scan_hit cfg file_path (S i) (pre ++ run ++ post) VISA
                     (length pre) (length pre + length run))
    as [m|] eqn:Hhit.
  - exists m. split.
    + unfold scan_text. apply in_flat_map. exists (S i, pre ++ run ++ post).
      split; [exact (enumerate_nth _ 1 i _ Hline)|].
      unfold scan_line. rewrite Hmask.
      apply in_flat_map. exists (VISA, pattern). split; [exact Hpat|].
      apply in_flat_map.
      exists (length pre, length pre + length run).
      split; [exact Hspan|]. rewrite Hhit. left. reflexivity.
    + pose proof (scan_hit_luhn_at_default _ _ _ _ _ _ _ _ Hmin Hhit)
        as Hvalid.
      open_scan_hit_in Hhit. cbv zeta in Hhit.
      rewrite slice_middle, (filter_all isdecimal run Hdigits) in Hhit.
      destruct (_ || _); [discriminate|].
      destruct (_ && _); [discriminate|].
      destruct (PrimFloat.ltb _ _); [discriminate|].
      injection Hhit as <-. cbn. rewrite Hluhn. repeat split; reflexivity.
  - exfalso. open_scan_hit_in Hhit. cbv zeta in Hhit.
    rewrite slice_middle, (filter_all isdecimal run Hdigits) in Hhit.
    destruct Hlen as [Hlo Hhi].
    assert (Hrange : (length run <? 13) || (19 <? length run) = false).
    { apply orb_false_iff. split; apply Nat.ltb_ge; lia. }
    rewrite Hrange, Hluhn in Hhit.
    rewrite andb_false_r in Hhit.
    assert (Hclear : is_masked_number cfg
                       (wide_context_before cfg (pre ++ run ++ post)
                                            (length pre)
                        ++ run
                        ++ wide_context_after cfg (pre ++ run ++ post)
                                              (length pre + length run))
                     = false).
    { destruct (@full_context_part cfg (pre ++ run ++ post) (length pre)
                  (length pre + length run) ltac:(lia)) as (a & b & Heq).
      unfold full_context in Heq. rewrite slice_middle in Heq.
      set (window := wide_context_before _ _ _ ++ run ++ _) in *.
      clear Hhit. unfold is_masked_number in *.
      destruct (negb (exclude_masked cfg)); [reflexivity|].
      destruct (matches_masked_pattern window) eqn:Hwin; [|reflexivity].
      rewrite Heq in Hmask.
      now rewrite (@matches_masked_pattern_part a _ b Hwin) in Hmask. }
    rewrite Hclear, Hmin, confidence_with_luhn in Hhit. discriminate.
Qed.

Lemma scan_text_finds_visa_number_witness :
  exists m : PANMatch,
    In m (scan_text default_config text_two_lines (L "orders.txt"))
    /\ card_type m = VISA
    /\ line_number m = 2
    /\ column_start m = 10
    /\ column_end m = 26
    /\ luhn_valid m = true
    /\ masked_match m = L "************0366".
Proof.
  apply (scan_text_finds_visa_number default_config text_two_lines
           (L "orders.txt") 1 (L "Visa card ") (L "4532015112830366")
           (L " exp 12/27")).
  - reflexivity.
  - vm_compute. reflexivity.
  - vm_compute. reflexivity.
  - exists (L "532015112830366"). repeat split. right. reflexivity.
  - vm_compute. reflexivity.
  - reflexivity.
  - reflexivity.
Defined.
